(** * Workflow execution and quality gating of e2e_agents

    A shallow embedding of
    - [src/phases/phase-d-execute/WorkflowExecutor.ts] and [ExecuteAgent.ts],
    - [src/core/self-critique/ConfidenceCalculator.ts], [CritiqueEngine.ts]
      and the validators [ScanValidator.ts] and [InterpretValidator.ts],
    - [src/core/cognitive/CognitiveQuadrantManager.ts],
    - [src/phases/phase-c-orchestrate/SOPFormatter.ts] and [SOPParser.ts],
    - the zod schemas of [src/types/schemas.ts] these use,
    followed by the properties of the specification checked against them.

    Conventions.  A JavaScript [number] that holds a position, a bound or a
    duration is a [Z].  A score is an exact rational [Q] where only counts
    and comparisons with fixed thresholds matter; the scorer itself is also
    given on binary64 numbers ([ConfidenceCalculator64]), and what is said
    of its range check, its rounding and its review flag is said of that
    one.  An optional field is an [option]; a value typed [any] is
    a [json] tree.  A [Record<string, any>] used as a dictionary is a
    [gmap string json].  Code that awaits the browser threads an explicit
    world through a small state-and-exception monad.  Calls to [console]
    are left out. *)

From Stdlib Require Import ZArith QArith Qround Lqa Ascii String List.
From Stdlib Require Floats.SpecFloat.
From stdpp Require Import base option list strings gmap pretty sorting.

Set Warnings "-register-all".
Local Open Scope Z_scope.
Local Open Scope string_scope.

(** ** JavaScript values and string helpers *)

(** Values of type [any]: what [JSON.parse] can produce. *)
Inductive json : Type :=
| JNull
| JBool (b : bool)
| JNum (n : Z)
| JStr (s : string)
| JArr (l : list json)
| JObj (kvs : list (string * json)).

Module JS.

(** The double-quote character, as a one-character string. *)
Definition dq : string := String (ascii_of_nat 34) EmptyString.

(** [s.startsWith(p)] *)
Fixpoint startsWith (p s : string) : bool :=
  match p, s with
  | EmptyString, _ => true
  | String a p', String b s' => if Ascii.eqb a b then startsWith p' s' else false
  | String _ _, EmptyString => false
  end.

(** [s.includes(p)] *)
Fixpoint includes (p s : string) : bool :=
  startsWith p s ||
  match s with
  | EmptyString => false
  | String _ s' => includes p s'
  end.

(** Truthiness of an optional string: [undefined] and [""] are falsy. *)
Definition truthy (o : option string) : bool :=
  match o with
  | Some s => negb (String.eqb s "")
  | None => false
  end.

(** [s] without its prefix [p], if it has it. *)
Fixpoint drop_prefix (p s : string) : option string :=
  match p, s with
  | EmptyString, _ => Some s
  | String a p', String b s' => if Ascii.eqb a b then drop_prefix p' s' else None
  | String _ _, EmptyString => None
  end.

(** White space as [trim] and the class [\s] see it (ASCII only). *)
Definition is_space (c : ascii) : bool :=
  let n := nat_of_ascii c in (((9 <=? n) && (n <=? 13)) || (n =? 32))%nat.

(** A line terminator, which the class [.] does not match (ASCII only). *)
Definition is_line_terminator (c : ascii) : bool :=
  let n := nat_of_ascii c in ((n =? 10) || (n =? 13))%nat.

Definition is_digit (c : ascii) : bool :=
  let n := nat_of_ascii c in ((48 <=? n) && (n <=? 57))%nat.

(** A character of the class [\w]. *)
Definition is_word_char (c : ascii) : bool :=
  let n := nat_of_ascii c in
  ((48 <=? n) && (n <=? 57) || (65 <=? n) && (n <=? 90)
   || (97 <=? n) && (n <=? 122) || (n =? 95))%nat.

(** The longest prefix of characters in the class [p], and the rest. *)
Fixpoint span (p : ascii -> bool) (s : string) : string * string :=
  match s with
  | String c s' =>
      if p c then let '(a, b) := span p s' in (String c a, b)
      else (EmptyString, s)
  | EmptyString => (EmptyString, EmptyString)
  end.

Fixpoint trimStart (s : string) : string :=
  match s with
  | String c s' => if is_space c then trimStart s' else s
  | EmptyString => EmptyString
  end.

Fixpoint trimEnd (s : string) : string :=
  match s with
  | EmptyString => EmptyString
  | String c s' =>
      match trimEnd s' with
      | EmptyString => if is_space c then EmptyString else String c EmptyString
      | t => String c t
      end
  end.

(** [s.trim()] *)
Definition trim (s : string) : string := trimEnd (trimStart s).

(** [s.split(sep)] for a one-character separator. *)
Fixpoint split (sep : ascii) (s : string) : list string :=
  match s with
  | EmptyString => [EmptyString]
  | String c s' =>
      if Ascii.eqb c sep then EmptyString :: split sep s'
      else match split sep s' with
           | x :: rest => String c x :: rest
           | [] => [String c EmptyString]
           end
  end.

(** [s.replace(/c/g, "")] for one character [c]. *)
Fixpoint remove_char (c : ascii) (s : string) : string :=
  match s with
  | EmptyString => EmptyString
  | String a s' => if Ascii.eqb a c then remove_char c s' else String a (remove_char c s')
  end.

Fixpoint all_chars (p : ascii -> bool) (s : string) : bool :=
  match s with
  | EmptyString => true
  | String c s' => p c && all_chars p s'
  end.

Fixpoint last_char (s : string) : option ascii :=
  match s with
  | EmptyString => None
  | String c EmptyString => Some c
  | String _ s' => last_char s'
  end.

(** [arr.join(sep)] *)
Fixpoint join (sep : string) (l : list string) : string :=
  match l with
  | [] => ""
  | [x] => x
  | x :: rest => x +:+ sep +:+ join sep rest
  end.

(** [String(v)] for a defined value; inside [Array.prototype.join] a
    [null] element prints as the empty string. *)
Fixpoint toString (v : json) : string :=
  match v with
  | JNull => "null"
  | JBool true => "true"
  | JBool false => "false"
  | JNum n => pretty n
  | JStr s => s
  | JArr l =>
      join "," (map (fun x => match x with JNull => "" | _ => toString x end) l)
  | JObj _ => "[object Object]"
  end.

(** A template hole [${v}] for an optional value. *)
Definition show (o : option json) : string :=
  match o with
  | Some v => toString v
  | None => "undefined"
  end.

(** [a ?? b] on a value typed [any]: [null] and [undefined] take [b]. *)
Definition nullish (o : option json) (d : json) : json :=
  match o with
  | Some JNull | None => d
  | Some v => v
  end.

(** The number of UTF-16 code units of a text held as UTF-8 bytes, which is
    what [s.length] counts: one per character, two for a character outside
    the basic plane (a four-byte sequence). *)
Definition units16 (c : ascii) : nat :=
  let n := nat_of_ascii c in
  if (n <? 128)%nat then 1%nat
  else if (n <? 192)%nat then 0%nat
  else if (n <? 240)%nat then 1%nat
  else 2%nat.

Fixpoint length16 (s : string) : nat :=
  match s with
  | EmptyString => 0%nat
  | String c s' => (units16 c + length16 s')%nat
  end.

End JS.

(** ** The data model of [src/types/schemas.ts] *)

Inductive Action : Type :=
| navigate | click | input | select | wait | verify | screenshot | extract
| conditional | loop.

Inductive DataSource : Type := user | faker | state | constant.

Inductive ValidationType : Type :=
| exists_ | visible | text | value | count | custom.

Inductive Strategy : Type := retry | skip | abort | fallback.

Record Target : Type := {
  t_selector : option string;
  t_url : option string;
  t_value : option string }.

Record Data : Type := {
  d_source : DataSource;
  d_field : option string;
  d_fakerMethod : option string;
  d_value : option json }.

Record Validation : Type := {
  v_type : ValidationType;
  v_expected : option json;
  v_timeout : option Z }.

Record ErrorHandling : Type := {
  strategy : Strategy;
  maxRetries : option Z;
  fallbackStepNumber : option Z }.

(** [SOPStepSchema].  A step that went through the schema has an action;
    [SOPParser.validate] and [critiqueOrchestrate] are also handed steps
    built from unchecked JSON and test [!step.action], so the field is
    optional here: [None] is a step whose [action] is [undefined]. *)
Record SOPStep : Type := {
  stepNumber : Z;
  action : option Action;
  description : string;
  target : option Target;
  data : option Data;
  validation : option Validation;
  errorHandling : option ErrorHandling }.

Record Dimensions : Type := {
  completeness : Q;
  accuracy : Q;
  feasibility : Q;
  coverage : Q }.

(** [ConfidenceScoreSchema] *)
Record ConfidenceScore : Type := {
  overall : Q;
  dimensions : Dimensions;
  reasoning : string;
  humanReviewRequired : bool }.

Inductive Severity : Type := critical | high | medium | low.

Record Issue : Type := {
  severity : Severity;
  i_description : string;
  suggestion : option string }.

Record AutoCorrection : Type := {
  ac_description : string;
  applied : bool }.

Inductive PhaseId : Type :=
| PhaseScan | PhaseInterpret | PhaseOrchestrate | PhaseExecute | PhaseDerive.

(** [CritiqueResultSchema] *)
Record CritiqueResult : Type := {
  phaseId : PhaseId;
  c_timestamp : string;
  confidence : ConfidenceScore;
  issues : list Issue;
  autoCorrections : list AutoCorrection }.

Record RequiredInput : Type := {
  field : string;
  type : string;
  required : bool;
  defaultValue : option json }.

Record Criterion : Type := {
  sc_description : string;
  sc_validation : string }.

Inductive Complexity : Type := simple | medium_ | complex.

(** [SOPWorkflowSchema] *)
Record SOPWorkflow : Type := {
  w_id : string;
  name : string;
  w_description : string;
  metadataIds : list string;
  timestamp : string;
  steps : list SOPStep;
  requiredInputs : list RequiredInput;
  successCriteria : list Criterion;
  estimatedDuration : Z;
  complexity : Complexity;
  tags : list string;
  critique : CritiqueResult }.

Record FailedStep : Type := {
  fs_stepNumber : Z;
  fs_error : string;
  fs_timestamp : string }.

(** [ExecutionStateSchema] *)
Record ExecutionState : Type := {
  es_id : string;
  es_workflowId : string;
  es_timestamp : string;
  variables : gmap string json;
  currentStepNumber : Z;
  completedSteps : list Z;
  failedSteps : list FailedStep;
  currentUrl : option string;
  cookies : option (list json);
  localStorage : option (gmap string string);
  sessionStorage : option (gmap string string) }.

Inductive StepStatus : Type := StepSuccess | StepFailure | StepSkipped.

(** An element of [ExecutionResult["stepResults"]]. *)
Record StepOutcome : Type := {
  so_stepNumber : Z;
  so_status : StepStatus;
  so_duration : Z;
  so_output : option json;
  so_error : option string;
  so_screenshot : option string }.

Inductive RunStatus : Type := success | failure | partial | skipped.

(** [ExecutionResultSchema] *)
Record ExecutionResult : Type := {
  r_id : string;
  r_workflowId : string;
  executionStateId : string;
  r_timestamp : string;
  status : RunStatus;
  duration : Z;
  stepResults : list StepOutcome;
  screenshots : list string;
  logs : list string;
  finalState : ExecutionState;
  r_critique : CritiqueResult }.

Inductive Mode : Type := autonomous | supervised | collaborative | manual.

Inductive InterventionPoint : Type :=
| before_phase | after_phase | on_low_confidence | on_error | on_critical_issue.

Record Thresholds : Type := {
  autoApprove : Q;
  requireReview : Q;
  autoCorrect : Q }.

(** [CognitiveQuadrantSchema] *)
Record CognitiveQuadrant : Type := {
  mode : Mode;
  thresholds : Thresholds;
  humanInterventionPoints : list InterventionPoint }.

(** The string each enumeration value stands for. *)
Definition action_names : list (string * Action) :=
  [("navigate", navigate); ("click", click); ("input", input);
   ("select", select); ("wait", wait); ("verify", verify);
   ("screenshot", screenshot); ("extract", extract);
   ("conditional", conditional); ("loop", loop)].

Definition action_name (a : Action) : string :=
  match a with
  | navigate => "navigate" | click => "click" | input => "input"
  | select => "select" | wait => "wait" | verify => "verify"
  | screenshot => "screenshot" | extract => "extract"
  | conditional => "conditional" | loop => "loop"
  end.

(** [`${step.action}`] *)
Definition action_text (a : option Action) : string :=
  from_option action_name "undefined" a.

Definition source_names : list (string * DataSource) :=
  [("user", user); ("faker", faker); ("state", state); ("constant", constant)].

Definition source_name (s : DataSource) : string :=
  match s with
  | user => "user" | faker => "faker" | state => "state"
  | constant => "constant"
  end.

Definition validation_type_names : list (string * ValidationType) :=
  [("exists", exists_); ("visible", visible); ("text", text);
   ("value", value); ("count", count); ("custom", custom)].

Definition validation_type_name (t : ValidationType) : string :=
  match t with
  | exists_ => "exists" | visible => "visible" | text => "text"
  | value => "value" | count => "count" | custom => "custom"
  end.

Definition strategy_names : list (string * Strategy) :=
  [("retry", retry); ("skip", skip); ("abort", abort); ("fallback", fallback)].

Definition strategy_name (s : Strategy) : string :=
  match s with
  | retry => "retry" | skip => "skip" | abort => "abort"
  | fallback => "fallback"
  end.

Definition complexity_names : list (string * Complexity) :=
  [("simple", simple); ("medium", medium_); ("complex", complex)].

Definition complexity_name (c : Complexity) : string :=
  match c with
  | simple => "simple" | medium_ => "medium" | complex => "complex"
  end.

(** ** The session collaborator and the executor's monad *)

(** A thrown [Error], identified by its [message]. *)
Definition Err : Type := string.

(** The browser session ([PlaywrightManager] and the playwright [Page]), the
    value generator, the clock and [crypto.randomUUID], as operations on an
    abstract world.  A call that may reject returns [inl message]. *)
Record Session (World : Type) : Type := {
  pw_initialize : World -> (Err + unit) * World;
  pw_newPage : World -> (Err + unit) * World;
  pw_goto : string -> World -> (Err + unit) * World;
  pw_click : string -> World -> (Err + unit) * World;
  pw_fill : string -> json -> World -> (Err + unit) * World;
  pw_screenshot : World -> (Err + string) * World;
  page_selectOption : string -> string -> World -> (Err + unit) * World;
  page_waitForSelector : string -> Z -> World -> (Err + unit) * World;
  page_textContent : string -> World -> (Err + option string) * World;
  page_query : string -> World -> (Err + bool) * World;
  page_isVisible : string -> World -> (Err + bool) * World;
  page_inputValue : string -> World -> (Err + string) * World;
  page_close : World -> (Err + unit) * World;
  setTimeout : Z -> World -> World;
  faker_value : string -> World -> string * World;
  Date_now : World -> Z * World;
  Date_iso : World -> string * World;
  randomUUID : World -> string * World;
  storage_savePhaseData : ExecutionResult -> World -> (Err + unit) * World;
  storage_saveTextFile :
    string -> string -> ExecutionState -> World -> (Err + unit) * World;
  storage_saveBinaryFile :
    string -> string -> string -> World -> (Err + unit) * World }.

Arguments pw_initialize {World}.
Arguments pw_newPage {World}.
Arguments pw_goto {World}.
Arguments pw_click {World}.
Arguments pw_fill {World}.
Arguments pw_screenshot {World}.
Arguments page_selectOption {World}.
Arguments page_waitForSelector {World}.
Arguments page_textContent {World}.
Arguments page_query {World}.
Arguments page_isVisible {World}.
Arguments page_inputValue {World}.
Arguments page_close {World}.
Arguments setTimeout {World}.
Arguments faker_value {World}.
Arguments Date_now {World}.
Arguments Date_iso {World}.
Arguments randomUUID {World}.
Arguments storage_savePhaseData {World}.
Arguments storage_saveTextFile {World}.
Arguments storage_saveBinaryFile {World}.

(** The mutable state one [executeWorkflow] call works on: the world, the
    fields of the [WorkflowExecutor] instance and the local [stepResults]
    array that both the [try] block and the [catch] block see. *)
Record Run (World : Type) : Type := mkRun {
  world : World;
  currentPage : bool;
  executionState : ExecutionState;
  run_stepResults : list StepOutcome }.

Arguments mkRun {World}.
Arguments world {World}.
Arguments currentPage {World}.
Arguments executionState {World}.
Arguments run_stepResults {World}.

(** A computation that reads and writes a state [S] and either returns or
    throws. *)
Definition M (S A : Type) : Type := S -> (Err + A) * S.

Section Monad.

Context {S : Type}.

Definition ret {A} (a : A) : M S A := fun r => (inr a, r).

Definition throw {A} (e : Err) : M S A := fun r => (inl e, r).

Definition bind {A B} (m : M S A) (k : A -> M S B) : M S B :=
  fun r =>
    match m r with
    | (inl e, r') => (inl e, r')
    | (inr a, r') => k a r'
    end.

(** [try { m } catch (e) { h e }] *)
Definition try_catch {A} (m : M S A) (h : Err -> M S A) : M S A :=
  fun r =>
    match m r with
    | (inl e, r') => h e r'
    | (inr a, r') => (inr a, r')
    end.

(** [try { m } finally { c }]: [c] runs on both exits; if [c] throws,
    its error replaces the outcome of [m]. *)
Definition finally {A} (m : M S A) (c : M S unit) : M S A :=
  fun r =>
    let '(x, r') := m r in
    match c r' with
    | (inl e, r'') => (inl e, r'')
    | (inr _, r'') => (x, r'')
    end.

(** A call that cannot fail. *)
Definition total {A} (op : S -> A * S) : M S A :=
  fun r => let '(a, r') := op r in (inr a, r').

(** [m] returns on every state: it never throws. *)
Definition no_throw {A} (m : M S A) : Prop :=
  forall r, exists a r', m r = (inr a, r').

(** Whatever [m] returns satisfies [P]. *)
Definition returns {A} (P : A -> Prop) (m : M S A) : Prop :=
  forall r a r', m r = (inr a, r') -> P a.

End Monad.

Declare Scope js_scope.
Delimit Scope js_scope with js.
Notation "x <- m ;; k" := (bind m (fun x => k))
  (at level 100, m at next level, right associativity) : js_scope.
Notation "m ;;; k" := (bind m (fun _ => k))
  (at level 100, right associativity) : js_scope.

(** An outcome that is not a success carries an error text and no
    screenshot. *)
Definition explained (o : StepOutcome) : Prop :=
  so_status o <> StepSuccess ->
  (exists e, so_error o = Some e) /\ so_screenshot o = None.

(** [results] holds one outcome for each of the first steps of [todo], in
    the order of the steps. *)
Definition recorded_for (todo : list SOPStep) (results : list StepOutcome)
  : Prop :=
  map so_stepNumber results = map stepNumber (take (length results) todo).

(** [es'] is [es] after variables were added or overwritten: every other
    field the executor uses is the same and no variable is lost. *)
Definition extends_variables (es es' : ExecutionState) : Prop :=
  es_id es' = es_id es /\
  es_workflowId es' = es_workflowId es /\
  currentStepNumber es' = currentStepNumber es /\
  forall k, is_Some (variables es !! k) -> is_Some (variables es' !! k).

(** [es] with another variable bag. *)
Definition with_variables (es : ExecutionState) (vars : gmap string json)
  : ExecutionState :=
  {| es_id := es_id es; es_workflowId := es_workflowId es;
     es_timestamp := es_timestamp es; variables := vars;
     currentStepNumber := currentStepNumber es;
     completedSteps := completedSteps es; failedSteps := failedSteps es;
     currentUrl := currentUrl es; cookies := cookies es;
     localStorage := localStorage es; sessionStorage := sessionStorage es |}.

(** The same, but for the current step number. *)
Definition carries (es es' : ExecutionState) : Prop :=
  es_id es' = es_id es /\
  es_workflowId es' = es_workflowId es /\
  forall k, is_Some (variables es !! k) -> is_Some (variables es' !! k).

Module Exec.
Section WithSession.

Context {World : Type} (sess : Session World).
Local Open Scope js_scope.

Local Abbreviation M := (M (Run World)).

(** A session call. *)
Definition call {A} (op : World -> (Err + A) * World) : M A :=
  fun r =>
    let '(x, w') := op (world r) in
    (x, mkRun w' (currentPage r) (executionState r) (run_stepResults r)).

(** A call that cannot fail. *)
Definition call_total {A} (op : World -> A * World) : M A :=
  fun r =>
    let '(a, w') := op (world r) in
    (inr a, mkRun w' (currentPage r) (executionState r) (run_stepResults r)).

Definition get : M (Run World) := fun r => (inr r, r).

Definition set_currentPage (b : bool) : M unit :=
  fun r => (inr tt, mkRun (world r) b (executionState r) (run_stepResults r)).

Definition set_executionState (f : ExecutionState -> ExecutionState) : M unit :=
  fun r =>
    (inr tt, mkRun (world r) (currentPage r) (f (executionState r))
               (run_stepResults r)).

Definition set_stepResults (f : list StepOutcome -> list StepOutcome) : M unit :=
  fun r =>
    (inr tt, mkRun (world r) (currentPage r) (executionState r)
               (f (run_stepResults r))).

(** *** [WorkflowExecutor.ts] *)

(** What [executeStep] and its helpers resolve to. *)
Record StepRes : Type := {
  sr_success : bool;
  sr_output : option json;
  sr_error : option string;
  sr_screenshot : option string }.

Definition ok (out : option json) : StepRes :=
  {| sr_success := true; sr_output := out; sr_error := None;
     sr_screenshot := None |}.

Definition failed (e : string) : StepRes :=
  {| sr_success := false; sr_output := None; sr_error := Some e;
     sr_screenshot := None |}.

(** [step.target?.selector], [step.target?.url], [step.target?.value] *)
Definition target_selector (step : SOPStep) : option string :=
  target step ≫= t_selector.
Definition target_url (step : SOPStep) : option string :=
  target step ≫= t_url.
Definition target_value (step : SOPStep) : option string :=
  target step ≫= t_value.

(** [b !== expected] for a boolean [b] *)
Definition differs_bool (b : bool) (expected : option json) : bool :=
  match expected with
  | Some (JBool b') => negb (Bool.eqb b b')
  | _ => true
  end.

(** [s !== expected] for a string [s] *)
Definition differs_string (s : string) (expected : option json) : bool :=
  match expected with
  | Some (JStr s') => negb (String.eqb s s')
  | _ => true
  end.

Definition validateStep (step : SOPStep) : M StepRes :=
  r <- get ;;
  match validation step with
  | None => ret (ok None)
  | Some v =>
    if negb (currentPage r) then ret (ok None) else
    try_catch
      (match v_type v with
       | exists_ =>
           let selector := default "body" (target_selector step) in
           found <- call (page_query sess selector) ;;
           if differs_bool found (v_expected v)
           then ret (failed ("Element " +:+ selector +:+ " existence check failed"))
           else ret (ok None)
       | visible =>
           let selector := default "body" (target_selector step) in
           isVisible <- call (page_isVisible sess selector) ;;
           if differs_bool isVisible (v_expected v)
           then ret (failed ("Element " +:+ selector +:+ " visibility check failed"))
           else ret (ok None)
       | text =>
           let selector := default "body" (target_selector step) in
           txt <- call (page_textContent sess selector) ;;
           let expectedText := JS.show (v_expected v) in
           if negb (from_option (JS.includes expectedText) false txt)
           then ret (failed ("Text validation failed: expected " +:+ JS.dq
                               +:+ expectedText +:+ JS.dq +:+ ", got " +:+ JS.dq
                               +:+ default "null" txt +:+ JS.dq))
           else ret (ok None)
       | value =>
           let selector := default "" (target_selector step) in
           val <- call (page_inputValue sess selector) ;;
           if differs_string val (v_expected v)
           then ret (failed ("Value validation failed: expected " +:+ JS.dq
                               +:+ JS.show (v_expected v) +:+ JS.dq
                               +:+ ", got " +:+ JS.dq +:+ val +:+ JS.dq))
           else ret (ok None)
       | count | custom => ret (ok None)
       end)
      (fun e => ret (failed ("Validation failed: " +:+ e)))
  end.

Definition executeNavigate (step : SOPStep) : M StepRes :=
  if negb (JS.truthy (target_url step)) then ret (failed "No URL specified") else
  let u := default "" (target_url step) in
  call (pw_goto sess u) ;;;
  let done_ := ret (ok (Some (JObj [("url", JStr u)]))) in
  match validation step with
  | Some _ =>
      validationResult <- validateStep step ;;
      if negb (sr_success validationResult) then ret validationResult else done_
  | None => done_
  end.

Definition executeClick (step : SOPStep) : M StepRes :=
  if negb (JS.truthy (target_selector step))
  then ret (failed "No selector specified") else
  let sel := default "" (target_selector step) in
  call (pw_click sess sel) ;;;
  ret (ok (Some (JObj [("selector", JStr sel)]))).

Definition generateFakerValue (method : string) : M string :=
  if negb (JS.includes "." method) then
    if String.eqb method "name" then call_total (faker_value sess "person.fullName")
    else if String.eqb method "email" then call_total (faker_value sess "internet.email")
    else if String.eqb method "phone" then call_total (faker_value sess "phone.number")
    else if String.eqb method "address"
         then call_total (faker_value sess "location.streetAddress")
    else if String.eqb method "company" then call_total (faker_value sess "company.name")
    else call_total (faker_value sess "lorem.word")
  else call_total (faker_value sess "person.fullName").

Definition set_variable (k : string) (v : json) : M unit :=
  set_executionState (fun es =>
    {| es_id := es_id es; es_workflowId := es_workflowId es;
       es_timestamp := es_timestamp es;
       variables := <[k := v]> (variables es);
       currentStepNumber := currentStepNumber es;
       completedSteps := completedSteps es; failedSteps := failedSteps es;
       currentUrl := currentUrl es; cookies := cookies es;
       localStorage := localStorage es; sessionStorage := sessionStorage es |}).

Definition executeInput (step : SOPStep) : M StepRes :=
  if negb (JS.truthy (target_selector step))
  then ret (failed "No selector specified") else
  let sel := default "" (target_selector step) in
  r <- get ;;
  val <- match d_source <$> data step with
         | Some user =>
             let fieldName := default "value" (data step ≫= d_field) in
             ret (JS.nullish (variables (executionState r) !! fieldName) (JStr ""))
         | Some faker =>
             v <- generateFakerValue (default "name" (data step ≫= d_fakerMethod)) ;;
             ret (JStr v)
         | Some constant => ret (JS.nullish (data step ≫= d_value) (JStr ""))
         | _ => ret (JStr (default "" (target_value step)))
         end ;;
  call (pw_fill sess sel val) ;;;
  (if JS.truthy (data step ≫= d_field)
   then set_variable (default "" (data step ≫= d_field)) val
   else ret tt) ;;;
  ret (ok (Some (JObj [("selector", JStr sel); ("value", val)]))).

Definition executeSelect (step : SOPStep) : M StepRes :=
  if negb (JS.truthy (target_selector step)) || negb (JS.truthy (target_value step))
  then ret (failed "No selector or value specified") else
  let sel := default "" (target_selector step) in
  let val := default "" (target_value step) in
  r <- get ;;
  if negb (currentPage r) then ret (failed "No active page") else
  call (page_selectOption sess sel val) ;;;
  ret (ok (Some (JObj [("selector", JStr sel); ("value", JStr val)]))).

Definition executeWait (step : SOPStep) : M StepRes :=
  let timeout := default 5000 (validation step ≫= v_timeout) in
  r <- get ;;
  (if JS.truthy (target_selector step)
   then if currentPage r
        then call (page_waitForSelector sess (default "" (target_selector step)) timeout)
        else ret tt
   else call_total (fun w => (tt, setTimeout sess timeout w))) ;;;
  ret (ok (Some (JObj [("waited", JNum timeout)]))).

Definition executeVerify (step : SOPStep) : M StepRes := validateStep step.

Definition executeScreenshot (step : SOPStep) : M StepRes :=
  base64 <- call (pw_screenshot sess) ;;
  ret {| sr_success := true; sr_output := None; sr_error := None;
         sr_screenshot := Some ("data:image/png;base64," +:+ base64) |}.

Definition executeExtract (step : SOPStep) : M StepRes :=
  r <- get ;;
  if negb (JS.truthy (target_selector step)) || negb (currentPage r)
  then ret (failed "No selector specified") else
  txt <- call (page_textContent sess (default "" (target_selector step))) ;;
  let v := from_option JStr JNull txt in
  (if JS.truthy (data step ≫= d_field)
   then set_variable (default "" (data step ≫= d_field)) v
   else ret tt) ;;;
  ret (ok (Some (JObj [("text", v)]))).

Definition executeStep (step : SOPStep) : M StepRes :=
  r <- get ;;
  if negb (currentPage r) then ret (failed "No active page") else
  try_catch
    (match action step with
     | Some navigate => executeNavigate step
     | Some click => executeClick step
     | Some input => executeInput step
     | Some select => executeSelect step
     | Some wait => executeWait step
     | Some verify => executeVerify step
     | Some screenshot => executeScreenshot step
     | Some extract => executeExtract step
     | Some conditional | Some loop | None =>
         ret (failed ("Unknown action: " +:+ action_text (action step)))
     end)
    (fun e => ret (failed e)).

(** [const lastResult = stepResults[stepResults.length - 1];
     if (lastResult) { ... }] *)
Fixpoint update_last {A} (f : A -> A) (l : list A) : list A :=
  match l with
  | [] => []
  | [x] => [f x]
  | x :: rest => x :: update_last f rest
  end.

(** [lastResult.status = "success"; lastResult.output = retryResult.output] *)
Definition mark_retried (out : option json) (o : StepOutcome) : StepOutcome :=
  {| so_stepNumber := so_stepNumber o; so_status := StepSuccess;
     so_duration := so_duration o; so_output := out;
     so_error := so_error o; so_screenshot := so_screenshot o |}.

(** [lastResult.status = "skipped"] *)
Definition mark_skipped (o : StepOutcome) : StepOutcome :=
  {| so_stepNumber := so_stepNumber o; so_status := StepSkipped;
     so_duration := so_duration o; so_output := so_output o;
     so_error := so_error o; so_screenshot := so_screenshot o |}.

(** The [while (retryCount < maxRetries && !retrySuccess)] loop; [left] is
    [maxRetries - retryCount].  Returns [retrySuccess]. *)
Fixpoint retry_loop (left : nat) (step : SOPStep) : M bool :=
  match left with
  | O => ret false
  | S left' =>
      retryResult <- executeStep step ;;
      if sr_success retryResult
      then set_stepResults (update_last (mark_retried (sr_output retryResult))) ;;;
           ret true
      else retry_loop left' step
  end.

(** [this.executionState.currentStepNumber = step.stepNumber] *)
Definition set_currentStepNumber (n : Z) : M unit :=
  set_executionState (fun es =>
    {| es_id := es_id es; es_workflowId := es_workflowId es;
       es_timestamp := es_timestamp es; variables := variables es;
       currentStepNumber := n;
       completedSteps := completedSteps es; failedSteps := failedSteps es;
       currentUrl := currentUrl es; cookies := cookies es;
       localStorage := localStorage es; sessionStorage := sessionStorage es |}).

(** The [for (const step of workflow.steps)] loop. *)
Fixpoint run_steps (todo : list SOPStep) : M unit :=
  match todo with
  | [] => ret tt
  | step :: rest =>
      let next := (set_currentStepNumber (stepNumber step) ;;; run_steps rest) in
      stepStartTime <- call_total (Date_now sess) ;;
      stepResult <- executeStep step ;;
      stepEnd <- call_total (Date_now sess) ;;
      let stepDuration := stepEnd - stepStartTime in
      set_stepResults (fun l => (l ++ [
        {| so_stepNumber := stepNumber step;
           so_status := if sr_success stepResult then StepSuccess else StepFailure;
           so_duration := stepDuration;
           so_output := sr_output stepResult;
           so_error := sr_error stepResult;
           so_screenshot := sr_screenshot stepResult |}])%list) ;;;
      if negb (sr_success stepResult) then
        match errorHandling step with
        | Some eh =>
            match strategy eh with
            | abort => ret tt
            | retry =>
                retrySuccess <-
                  retry_loop (Z.to_nat (default 3 (maxRetries eh))) step ;;
                if negb retrySuccess then ret tt else next
            | skip =>
                set_stepResults (update_last mark_skipped) ;;;
                run_steps rest
            | fallback => next
            end
        | None => next
        end
      else next
  end.

Definition is_success (o : StepOutcome) : bool :=
  match so_status o with StepSuccess => true | _ => false end.

Definition is_failure (o : StepOutcome) : bool :=
  match so_status o with StepFailure => true | _ => false end.

(** The [ExecutionResult] built after the loop.  The coverage is the
    quotient of two counts; for a workflow without steps the program
    divides 0 by 0 and stores NaN, which [Q] lacks: [Qdiv] gives 0 there. *)
Definition normal_result (workflow : SOPWorkflow) (es : ExecutionState)
    (results : list StepOutcome) (duration : Z) (rid ts cts : string)
  : ExecutionResult :=
  let allSuccess := forallb is_success results in
  let anyFailure := existsb is_failure results in
  {| r_id := rid;
     r_workflowId := w_id workflow;
     executionStateId := es_id es;
     r_timestamp := ts;
     status := if allSuccess then success
               else if anyFailure then failure else partial;
     duration := duration;
     stepResults := results;
     screenshots :=
       map (fun r => "step_" +:+ pretty (so_stepNumber r) +:+ "_screenshot.png")
           (List.filter (fun r => JS.truthy (so_screenshot r)) results);
     logs := [];
     finalState := es;
     r_critique :=
       {| phaseId := PhaseExecute;
          c_timestamp := cts;
          confidence :=
            {| overall := if allSuccess then 0.9%Q
                          else if anyFailure then 0.3%Q else 0.6%Q;
               dimensions :=
                 {| completeness :=
                      if Nat.eqb (length results) (length (steps workflow))
                      then 1%Q else 0.5%Q;
                    accuracy := if allSuccess then 1%Q else 0.5%Q;
                    feasibility := 1%Q;
                    coverage :=
                      (inject_Z (Z.of_nat (length results))
                       / inject_Z (Z.of_nat (length (steps workflow))))%Q |};
               reasoning := if allSuccess then "All steps completed successfully"
                            else if anyFailure then "Some steps failed"
                            else "Partial completion";
               humanReviewRequired := anyFailure |};
          issues :=
            map (fun r =>
                   {| severity := high;
                      i_description :=
                        "Step " +:+ pretty (so_stepNumber r) +:+ " failed: "
                        +:+ default "" (so_error r);
                      suggestion := None |})
                (List.filter (fun r => JS.truthy (so_error r)) results);
          autoCorrections := [] |} |}.

(** The [ExecutionResult] built in the [catch] block. *)
Definition caught_result (workflow : SOPWorkflow) (es : ExecutionState)
    (results : list StepOutcome) (duration : Z) (rid ts cts : string)
    (message : string) : ExecutionResult :=
  {| r_id := rid;
     r_workflowId := w_id workflow;
     executionStateId := es_id es;
     r_timestamp := ts;
     status := failure;
     duration := duration;
     stepResults := results;
     screenshots := [];
     logs := [message];
     finalState := es;
     r_critique :=
       {| phaseId := PhaseExecute;
          c_timestamp := cts;
          confidence :=
            {| overall := 0.1%Q;
               dimensions :=
                 {| completeness := 0%Q; accuracy := 0%Q;
                    feasibility := 0.5%Q; coverage := 0%Q |};
               reasoning := "Workflow execution failed with exception";
               humanReviewRequired := true |};
          issues :=
            [ {| severity := critical;
                 i_description := "Workflow failed: " +:+ message;
                 suggestion := None |} ];
          autoCorrections := [] |} |}.

(** [cleanup]: a rejection of [close()] is swallowed by [.catch(() => {})]. *)
Definition cleanup : M unit :=
  r <- get ;;
  if currentPage r
  then try_catch (call (page_close sess)) (fun _ => ret tt) ;;;
       set_currentPage false
  else ret tt.

(** The statements of the [try] block of [executeWorkflow]. *)
Definition executeWorkflow_try (workflow : SOPWorkflow)
    (userInputs : option (gmap string json)) (startTime : Z)
  : M ExecutionResult :=
  call (pw_initialize sess) ;;;
  call (pw_newPage sess) ;;;
  set_currentPage true ;;;
  set_executionState (fun es =>
    {| es_id := es_id es; es_workflowId := w_id workflow;
       es_timestamp := es_timestamp es;
       variables := default ∅ userInputs ∪ variables es;
       currentStepNumber := currentStepNumber es;
       completedSteps := completedSteps es; failedSteps := failedSteps es;
       currentUrl := currentUrl es; cookies := cookies es;
       localStorage := localStorage es; sessionStorage := sessionStorage es |}) ;;;
  run_steps (steps workflow) ;;;
  endTime <- call_total (Date_now sess) ;;
  r <- get ;;
  rid <- call_total (randomUUID sess) ;;
  ts <- call_total (Date_iso sess) ;;
  cts <- call_total (Date_iso sess) ;;
  ret (normal_result workflow (executionState r) (run_stepResults r)
         (endTime - startTime) rid ts cts).

(** The [catch (error)] block of [executeWorkflow]. *)
Definition executeWorkflow_catch (workflow : SOPWorkflow) (startTime : Z)
    (message : Err) : M ExecutionResult :=
  endTime <- call_total (Date_now sess) ;;
  r <- get ;;
  rid <- call_total (randomUUID sess) ;;
  ts <- call_total (Date_iso sess) ;;
  cts <- call_total (Date_iso sess) ;;
  ret (caught_result workflow (executionState r) (run_stepResults r)
         (endTime - startTime) rid ts cts message).

Definition executeWorkflow (workflow : SOPWorkflow)
    (userInputs : option (gmap string json)) : M ExecutionResult :=
  startTime <- call_total (Date_now sess) ;;
  set_stepResults (fun _ => []) ;;;
  finally
    (try_catch (executeWorkflow_try workflow userInputs startTime)
               (executeWorkflow_catch workflow startTime))
    cleanup.

(** *** Vocabulary for the properties of the step loop *)

(** The first statements of the loop body: run [step] once, time it and
    push its outcome. *)
Definition record_attempt (step : SOPStep) : M StepRes :=
  stepStartTime <- call_total (Date_now sess) ;;
  stepResult <- executeStep step ;;
  stepEnd <- call_total (Date_now sess) ;;
  set_stepResults (fun l => (l ++ [
    {| so_stepNumber := stepNumber step;
       so_status := if sr_success stepResult then StepSuccess else StepFailure;
       so_duration := stepEnd - stepStartTime;
       so_output := sr_output stepResult;
       so_error := sr_error stepResult;
       so_screenshot := sr_screenshot stepResult |}])%list) ;;;
  ret stepResult.

(** [executeStep] read as a total function; it never throws, see
    [executeStep_attempt] below. *)
Definition attempt (step : SOPStep) (r : Run World) : StepRes * Run World :=
  match executeStep step r with
  | (inr res, r') => (res, r')
  | (inl e, r') => (failed e, r')
  end.

(** The result of the first attempt at [step] and the state once its outcome
    is recorded. *)
Definition first_attempt (step : SOPStep) (r : Run World) : StepRes * Run World :=
  match record_attempt step r with
  | (inr res, r') => (res, r')
  | (inl e, r') => (failed e, r')
  end.

(** The state after [n] more attempts at [step], none of which is recorded. *)
Definition after_attempts (n : nat) (step : SOPStep) (r : Run World) : Run World :=
  Nat.iter n (fun r' => (attempt step r').2) r.

(** Re-attempt number [j + 1] at [step] from [r] fails. *)
Definition reattempt_fails (step : SOPStep) (r : Run World) (j : nat) : Prop :=
  sr_success (attempt step (after_attempts j step r)).1 = false.

(** [step] with another error-handling policy. *)
Definition with_policy (step : SOPStep) (eh : option ErrorHandling) : SOPStep :=
  {| stepNumber := stepNumber step; action := action step;
     description := description step; target := target step;
     data := data step; validation := validation step; errorHandling := eh |}.

(** [o] is the outcome pushed for a first attempt at [step] that gave [res]. *)
Definition first_outcome_of (step : SOPStep) (res : StepRes) (o : StepOutcome)
  : Prop :=
  so_stepNumber o = stepNumber step /\
  so_status o = (if sr_success res then StepSuccess else StepFailure) /\
  so_output o = sr_output res /\
  so_error o = sr_error res /\
  so_screenshot o = sr_screenshot res.

(** What the rest of the loop does once [step] is dealt with. *)
Definition continue_after (step : SOPStep) (rest : list SOPStep) : M unit :=
  set_currentStepNumber (stepNumber step) ;;; run_steps rest.

(** The run state with the last recorded outcome rewritten by [f]. *)
Definition amend_last (f : StepOutcome -> StepOutcome) (r : Run World) : Run World :=
  mkRun (world r) (currentPage r) (executionState r)
        (update_last f (run_stepResults r)).

(** A result that reports failure carries an error text and no screenshot. *)
Definition explains_failure (res : StepRes) : Prop :=
  sr_success res = false ->
  (exists e, sr_error res = Some e) /\ sr_screenshot res = None.

(** [m] leaves the recorded outcomes and the page handle alone. *)
Definition keeps_record {A} (m : M A) : Prop :=
  forall r,
    run_stepResults (m r).2 = run_stepResults r /\
    currentPage (m r).2 = currentPage r.

(** [m] changes the execution state by adding or overwriting variables
    only. *)
Definition varies {A} (m : M A) : Prop :=
  forall r, extends_variables (executionState r) (executionState (m r).2).

(** The state in which [executeWorkflow] enters its [try] block. *)
Definition entering (r : Run World) : Run World :=
  mkRun (Date_now sess (world r)).2 (currentPage r) (executionState r) [].

(** The browser session starts: [initialize] and [newPage] both resolve. *)
Definition session_starts (r : Run World) : Prop :=
  exists w1 w2,
    pw_initialize sess (world (entering r)) = (inr tt, w1) /\
    pw_newPage sess w1 = (inr tt, w2).

End WithSession.
End Exec.

(** The overall status is derived from the recorded outcomes: [success] iff
    all of them are successes, [failure] iff one of them is a failure,
    [partial] otherwise. *)
Definition status_follows_outcomes (res : ExecutionResult) : Prop :=
  (status res = success <->
     forall o, In o (stepResults res) -> so_status o = StepSuccess) /\
  (status res = failure <->
     exists o, In o (stepResults res) /\ so_status o = StepFailure) /\
  (status res = partial <->
     ~ (forall o, In o (stepResults res) -> so_status o = StepSuccess) /\
     ~ (exists o, In o (stepResults res) /\ so_status o = StepFailure)).

(** The critique attached by the [catch] block of [executeWorkflow]. *)
Definition caught_critique (res : ExecutionResult) (message : Err) : Prop :=
  status res = failure /\
  logs res = [message] /\
  issues (r_critique res) =
    [ {| severity := critical;
         i_description := "Workflow failed: " +:+ message;
         suggestion := None |} ] /\
  overall (confidence (r_critique res)) = 0.1%Q /\
  dimensions (confidence (r_critique res)) =
    {| completeness := 0%Q; accuracy := 0%Q;
       feasibility := 0.5%Q; coverage := 0%Q |} /\
  humanReviewRequired (confidence (r_critique res)) = true.

(** *** [ExecuteAgent.ts] *)

Module Agent.
Section WithSession.

Context {World : Type} (sess : Session World).
Local Open Scope js_scope.

Local Abbreviation W := (M World).

(** [WorkflowExecutor.createInitialState], run by the constructor. *)
Definition createInitialState : W ExecutionState :=
  i <- total (randomUUID sess) ;;
  ts <- total (Date_iso sess) ;;
  ret {| es_id := i; es_workflowId := ""; es_timestamp := ts;
         variables := ∅; currentStepNumber := 0;
         completedSteps := []; failedSteps := [];
         currentUrl := Some ""; cookies := Some [];
         localStorage := Some ∅; sessionStorage := Some ∅ |}.

(** [new WorkflowExecutor(playwright)] followed by one method call on it;
    returns the method's result and the executor's state afterwards. *)
Definition on_new_executor {A} (m : M (Run World) A) : W (A * ExecutionState) :=
  es <- createInitialState ;;
  (fun w =>
     match m (mkRun w false es []) with
     | (inl e, r) => (inl e, world r)
     | (inr a, r) => (inr (a, executionState r), world r)
     end).

(** [s.replace(/:/g, "-")] *)
Fixpoint replace_colons (s : string) : string :=
  match s with
  | EmptyString => EmptyString
  | String c s' =>
      String (if Ascii.eqb c ":" then "-"%char else c) (replace_colons s')
  end.

Fixpoint drop_word_chars (s : string) : string :=
  match s with
  | String c s' => if JS.is_word_char c then drop_word_chars s' else s
  | EmptyString => EmptyString
  end.

(** [s.replace(/^data:image\/\w+;base64,/, "")] *)
Definition strip_data_url (s : string) : string :=
  match JS.drop_prefix "data:image/" s with
  | Some (String c rest) =>
      if JS.is_word_char c then
        match JS.drop_prefix ";base64," (drop_word_chars rest) with
        | Some payload => payload
        | None => s
        end
      else s
  | _ => s
  end.

Fixpoint save_screenshots (timestampDir : string) (l : list StepOutcome) : W unit :=
  match l with
  | [] => ret tt
  | stepResult :: rest =>
      (if JS.truthy (so_screenshot stepResult)
       then storage_saveBinaryFile sess timestampDir
              ("step_" +:+ pretty (so_stepNumber stepResult) +:+ "_screenshot.png")
              (strip_data_url (default "" (so_screenshot stepResult)))
       else ret tt) ;;;
      save_screenshots timestampDir rest
  end.

Definition saveExecutionResults (result : ExecutionResult) (st : ExecutionState)
  : W unit :=
  storage_savePhaseData sess result ;;;
  let stateFilename := "state_" +:+ es_id st +:+ ".json" in
  now <- total (Date_iso sess) ;;
  let timestampDir := replace_colons now in
  storage_saveTextFile sess timestampDir stateFilename st ;;;
  save_screenshots timestampDir (stepResults result).

Definition execute (workflow : SOPWorkflow)
    (userInputs : option (gmap string json)) : W ExecutionResult :=
  ran <- on_new_executor (Exec.executeWorkflow sess workflow userInputs) ;;
  let '(result, finalState) := ran in
  saveExecutionResults result finalState ;;;
  ret result.

(** The result [executeBatch] pushes when [execute] throws. *)
Definition batch_failure (workflow : SOPWorkflow) (message : Err)
  : W ExecutionResult :=
  rid <- total (randomUUID sess) ;;
  sid <- total (randomUUID sess) ;;
  ts <- total (Date_iso sess) ;;
  fid <- total (randomUUID sess) ;;
  fts <- total (Date_iso sess) ;;
  cts <- total (Date_iso sess) ;;
  ret {| r_id := rid;
         r_workflowId := w_id workflow;
         executionStateId := sid;
         r_timestamp := ts;
         status := failure;
         duration := 0;
         stepResults := [];
         screenshots := [];
         logs := [message];
         finalState :=
           {| es_id := fid; es_workflowId := w_id workflow;
              es_timestamp := fts; variables := ∅; currentStepNumber := 0;
              completedSteps := []; failedSteps := [];
              currentUrl := None; cookies := None;
              localStorage := None; sessionStorage := None |};
         r_critique :=
           {| phaseId := PhaseExecute;
              c_timestamp := cts;
              confidence :=
                {| overall := 0%Q;
                   dimensions :=
                     {| completeness := 0%Q; accuracy := 0%Q;
                        feasibility := 0%Q; coverage := 0%Q |};
                   reasoning := "Execution failed with exception";
                   humanReviewRequired := true |};
              issues :=
                [ {| severity := critical; i_description := message;
                     suggestion := None |} ];
              autoCorrections := [] |} |}.

Fixpoint executeBatch_loop (workflows : list SOPWorkflow)
    (userInputsMap : option (gmap string (gmap string json)))
    (results : list ExecutionResult) : W (list ExecutionResult) :=
  match workflows with
  | [] => ret results
  | workflow :: rest =>
      result <-
        try_catch
          (let userInputs := userInputsMap ≫= (fun m => m !! w_id workflow) in
           execute workflow userInputs)
          (batch_failure workflow) ;;
      executeBatch_loop rest userInputsMap (results ++ [result])%list
  end.

Definition executeBatch (workflows : list SOPWorkflow)
    (userInputsMap : option (gmap string (gmap string json)))
  : W (list ExecutionResult) :=
  executeBatch_loop workflows userInputsMap [].

(** [resume] *)
Definition resume (workflow : SOPWorkflow) (st : ExecutionState) (fromStep : Z)
  : W ExecutionResult :=
  let stepsToExecute :=
    List.filter (fun step => (fromStep <=? stepNumber step)%Z) (steps workflow) in
  let partialWorkflow :=
    {| w_id := w_id workflow; name := name workflow;
       w_description := w_description workflow;
       metadataIds := metadataIds workflow; timestamp := timestamp workflow;
       steps := stepsToExecute;
       requiredInputs := requiredInputs workflow;
       successCriteria := successCriteria workflow;
       estimatedDuration := estimatedDuration workflow;
       complexity := complexity workflow; tags := tags workflow;
       critique := critique workflow |} in
  ran <- on_new_executor
           (Exec.executeWorkflow sess partialWorkflow (Some (variables st))) ;;
  let '(result, finalState) := ran in
  saveExecutionResults result finalState ;;;
  ret result.

(** The critique attached to the result [executeBatch] synthesises. *)
Definition batch_critique (res : ExecutionResult) (message : Err) : Prop :=
  status res = failure /\
  stepResults res = [] /\
  issues (r_critique res) =
    [ {| severity := critical; i_description := message; suggestion := None |} ] /\
  overall (confidence (r_critique res)) = 0%Q /\
  dimensions (confidence (r_critique res)) =
    {| completeness := 0%Q; accuracy := 0%Q;
       feasibility := 0%Q; coverage := 0%Q |}.

End WithSession.
End Agent.


(** ** [ConfidenceCalculator.ts] *)

Module ConfidenceCalculator.

Local Open Scope Q_scope.

(** [a < b] on numbers *)
Definition Qltb (a b : Q) : bool := negb (Qle_bool b a).

(** [Math.round(x)]: the nearest integer, a half rounding up. *)
Definition Math_round (x : Q) : Z := Qfloor (x + (1 # 2)).

(** The [Error] thrown for a score outside [0, 1]; its message quotes the
    offending score. *)
Inductive RangeError : Type := ScoreOutOfRange (score : Q).

Definition weights : Dimensions :=
  {| completeness := 0.3; accuracy := 0.3; feasibility := 0.25;
     coverage := 0.15 |}.

(** [Object.values(dimensions)] *)
Definition values (d : Dimensions) : list Q :=
  [completeness d; accuracy d; feasibility d; coverage d].

(** The [forEach] that validates the scores: the first offender throws. *)
Fixpoint check_range (scores : list Q) : option RangeError :=
  match scores with
  | [] => None
  | score :: rest =>
      if Qltb score 0 || Qltb 1 score then Some (ScoreOutOfRange score)
      else check_range rest
  end.

(** The weighted average, before any rounding. *)
Definition weighted_sum (d : Dimensions) : Q :=
  completeness d * completeness weights
  + accuracy d * accuracy weights
  + feasibility d * feasibility weights
  + coverage d * coverage weights.

Definition calculate (dims : Dimensions) (reasoning_ : string)
    (humanReviewThreshold : option Q) : RangeError + ConfidenceScore :=
  let threshold := default 0.6 humanReviewThreshold in
  match check_range (values dims) with
  | Some e => inl e
  | None =>
      let sum := weighted_sum dims in
      let review :=
        Qltb sum threshold || Qltb (accuracy dims) 0.5
        || Qltb (feasibility dims) 0.5 in
      inr {| overall := inject_Z (Math_round (sum * 1000)) / 1000;
             dimensions := dims;
             reasoning := reasoning_;
             humanReviewRequired := review |}
  end.

(** [Math.max(0, x)] *)
Definition max0 (x : Q) : Q := if Qltb x 0 then 0 else x.

(** [Math.min(1, x)] *)
Definition min1 (x : Q) : Q := if Qltb 1 x then 1 else x.

Definition calculateCompletenessFromIssues (totalExpected missingCount : Z) : Q :=
  if (totalExpected =? 0)%Z then 1
  else max0 (1 - inject_Z missingCount / inject_Z totalExpected).

Definition calculateAccuracyFromErrors (totalItems errorCount : Z) : Q :=
  if (totalItems =? 0)%Z then 1
  else max0 (1 - inject_Z errorCount / inject_Z totalItems).

Definition calculateCoverageScore (coveredItems totalItems : Z) : Q :=
  if (totalItems =? 0)%Z then 1
  else min1 (inject_Z coveredItems / inject_Z totalItems).

(** [quickScore]: the score of a list of issue descriptions;
    [totalExpected] is 10 when left out. *)
Definition quickScore (issues_ : list string) (totalExpected : option Z)
  : RangeError + ConfidenceScore :=
  let expected := default 10%Z totalExpected in
  let found := Z.of_nat (length issues_) in
  let completeness_ := calculateCompletenessFromIssues expected found in
  let accuracy_ := if (found =? 0)%Z then 1 else 0.7 in
  let feasibility_ := if (found =? 0)%Z then 1 else 0.8 in
  let coverage_ := completeness_ in
  calculate
    {| completeness := completeness_; accuracy := accuracy_;
       feasibility := feasibility_; coverage := coverage_ |}
    (if (found =? 0)%Z then "没有发现问题"
     else "发现 " +:+ pretty found +:+ " 个问题: " +:+ JS.join ", " issues_)
    None.

(** Every score lies in [0, 1]. *)
Definition in_range (d : Dimensions) : Prop :=
  Forall (fun score => 0 <= score <= 1) (values d).

End ConfidenceCalculator.

(** ** JavaScript numbers *)

(** A JavaScript number is an IEEE 754 binary64 value: a signed zero, a
    signed infinity, NaN, or a sign, a mantissa [m] and an exponent [e]
    standing for [m * 2^e].  The arithmetic is that of the Standard
    Library's [SpecFloat] at precision 53: every product, sum and quotient
    is rounded to the nearest number, ties to the even mantissa. *)
Module Binary64.

Definition number : Type := SpecFloat.spec_float.

Definition prec : Z := 53.
Definition emax : Z := 1024.

Definition NaN : number := SpecFloat.S754_nan.

(** The number of an integer literal. *)
Definition of_Z (n : Z) : number := SpecFloat.binary_normalize prec emax n 0 false.

Definition zero : number := of_Z 0.
Definition one : number := of_Z 1.

(** [x * y], [x + y], [x / y] *)
Definition mul : number -> number -> number := SpecFloat.SFmul prec emax.
Definition add : number -> number -> number := SpecFloat.SFadd prec emax.
Definition div : number -> number -> number := SpecFloat.SFdiv prec emax.

(** [x < y] and [x <= y]: false as soon as one side is NaN. *)
Definition ltb : number -> number -> bool := SpecFloat.SFltb.
Definition leb : number -> number -> bool := SpecFloat.SFleb.

(** The number of the decimal literal [n/d], as in [0.3] for [3/10]: the
    number nearest to the quotient, which is what the correctly rounded
    division of the two integers gives. *)
Definition literal (n d : Z) : number := div (of_Z n) (of_Z d).

(** [Math.round(x)]: NaN, the infinities, the zeros and the integers are
    returned as they are; any other [x] gives the integer [floor(x + 1/2)],
    with the sign of [x] when that integer is zero. *)
Definition Math_round (x : number) : number :=
  match x with
  | SpecFloat.S754_finite s m e =>
      if (0 <=? e)%Z then x
      else
        let n := (SpecFloat.cond_Zopp s (Zpos m) + 2 ^ (- e - 1)) / 2 ^ (- e) in
        if (n =? 0)%Z then SpecFloat.S754_zero s else of_Z n
  | _ => x
  end.

(** [x] is a zero, a positive number or [+Infinity]. *)
Definition nonnegative (x : number) : Prop :=
  match x with
  | SpecFloat.S754_zero _ => True
  | SpecFloat.S754_finite s _ _ | SpecFloat.S754_infinity s => s = false
  | SpecFloat.S754_nan => False
  end.

(** The rational a finite number stands for, in lowest terms. *)
Definition exact (x : number) : option Q :=
  match x with
  | SpecFloat.S754_zero _ => Some 0%Q
  | SpecFloat.S754_finite s m e =>
      Some (Qred (inject_Z (SpecFloat.cond_Zopp s (Zpos m)) * Qpower 2 e))
  | _ => None
  end.

End Binary64.

(** ** [ConfidenceCalculator.calculate] on binary64 numbers *)

(** The scorer with its scores as the numbers the program computes with.
    The module [ConfidenceCalculator] above has the same code over the
    rationals. *)
Module ConfidenceCalculator64.

Import Binary64.

Record Dimensions : Type := {
  completeness : number;
  accuracy : number;
  feasibility : number;
  coverage : number }.

(** [ConfidenceScoreSchema] *)
Record ConfidenceScore : Type := {
  overall : number;
  dimensions : Dimensions;
  reasoning : string;
  humanReviewRequired : bool }.

(** The [Error] thrown for a score outside [0, 1]; its message quotes the
    offending score. *)
Inductive RangeError : Type := ScoreOutOfRange (score : number).

Definition weights : Dimensions :=
  {| completeness := literal 3 10; accuracy := literal 3 10;
     feasibility := literal 25 100; coverage := literal 15 100 |}.

(** [Object.values(dimensions)] *)
Definition values (d : Dimensions) : list number :=
  [completeness d; accuracy d; feasibility d; coverage d].

(** The [forEach] that validates the scores,
    [if (score < 0 || score > 1) throw]: the first offender throws. *)
Fixpoint check_range (scores : list number) : option RangeError :=
  match scores with
  | [] => None
  | score :: rest =>
      if ltb score zero || ltb one score then Some (ScoreOutOfRange score)
      else check_range rest
  end.

Definition calculate (dims : Dimensions) (reasoning_ : string)
    (humanReviewThreshold : option number) : RangeError + ConfidenceScore :=
  let threshold := default (literal 6 10) humanReviewThreshold in
  match check_range (values dims) with
  | Some e => inl e
  | None =>
      let overall_ :=
        add (add (add (mul (completeness dims) (completeness weights))
                      (mul (accuracy dims) (accuracy weights)))
                 (mul (feasibility dims) (feasibility weights)))
            (mul (coverage dims) (coverage weights)) in
      let review :=
        ltb overall_ threshold || ltb (accuracy dims) (literal 5 10)
        || ltb (feasibility dims) (literal 5 10) in
      inr {| overall := div (Math_round (mul overall_ (of_Z 1000))) (of_Z 1000);
             dimensions := dims;
             reasoning := reasoning_;
             humanReviewRequired := review |}
  end.

(** The formula of the specification on the exact values of the scores,
    [0.30 c + 0.30 a + 0.25 f + 0.15 v], as a rational in lowest terms;
    it serves only to compare [calculate] with. *)
Definition exact_weighted_sum (d : Dimensions) : option Q :=
  match exact (completeness d), exact (accuracy d),
        exact (feasibility d), exact (coverage d) with
  | Some c, Some a, Some f, Some v =>
      Some (Qred (0.3 * c + 0.3 * a + 0.25 * f + 0.15 * v))
  | _, _, _, _ => None
  end.

End ConfidenceCalculator64.

(** ** [CognitiveQuadrantManager.ts] *)

Module CognitiveQuadrantManager.

Import ConfidenceCalculator.
Local Open Scope Q_scope.

(** The constructor: every missing part of the configuration takes its
    default. *)
Definition constructor (mode_ : option Mode) (thresholds_ : option Thresholds)
    (points : option (list InterventionPoint)) : CognitiveQuadrant :=
  {| mode := default supervised mode_;
     thresholds :=
       {| autoApprove := default 0.8 (autoApprove <$> thresholds_);
          requireReview := default 0.6 (requireReview <$> thresholds_);
          autoCorrect := default 0.5 (autoCorrect <$> thresholds_) |};
     humanInterventionPoints :=
       default [on_low_confidence; on_critical_issue] points |}.

(** The reason texts, one constructor per message of the source; those
    that quote the confidence as a percentage, [(confidence * 100).toFixed(1)],
    carry the confidence. *)
Inductive Reason : Type :=
| ConfidenceTooLow (c : Q)            (* 置信度过低 (..%) *)
| CriticalErrorDetected               (* 检测到关键错误 *)
| HandledAutomatically                (* 自动处理 *)
| HighConfidenceApproved              (* 置信度高，自动批准 *)
| MediumConfidenceNeedsReview (c : Q) (* 置信度中等 (..%)，需要审核 *)
| InterventionPointHit                (* 触发人工介入点 *)
| ConfidenceBelowThreshold (c : Q)    (* 置信度低于阈值 (..%) *)
| CriticalIssueDetected               (* 检测到关键问题 *)
| VeryHighConfidenceApproved          (* 置信度极高，自动批准 *)
| ManualModeNeedsReview               (* 人工模式，需要人工审核 *)
| AutoCorrectableIssues               (* 检测到可自动修正的问题 *)
| MediumConfidenceSuggestReview.      (* 置信度中等，建议审核 *)

Record Escalation : Type := {
  shouldEscalate : bool;
  reason : Reason }.

Inductive RecommendedAction : Type := approve | reject | review | auto_correct.

Record Recommendation : Type := {
  rec_action : RecommendedAction;
  rec_reason : Reason }.

Definition is_critical (i : Issue) : bool :=
  match severity i with critical => true | _ => false end.

Definition hasCriticalErrors (c : CritiqueResult) : bool :=
  existsb is_critical (issues c).

Fixpoint checkInterventionPoints_loop (config : CognitiveQuadrant)
    (c : CritiqueResult) (points : list InterventionPoint) : bool :=
  match points with
  | [] => false
  | point :: rest =>
      let fires :=
        match point with
        | on_low_confidence =>
            Qltb (overall (confidence c)) (requireReview (thresholds config))
        | on_critical_issue => hasCriticalErrors c
        | on_error => (0 <? length (issues c))%nat
        | before_phase | after_phase => false
        end in
      if fires then true else checkInterventionPoints_loop config c rest
  end.

Definition checkInterventionPoints (config : CognitiveQuadrant)
    (c : CritiqueResult) : bool :=
  checkInterventionPoints_loop config c (humanInterventionPoints config).

(** [shouldEscalateToHuman]; the final [return] of the source is past the
    four modes and cannot be reached with a [Mode]. *)
Definition shouldEscalateToHuman (config : CognitiveQuadrant)
    (c : CritiqueResult) : Escalation :=
  let conf := overall (confidence c) in
  let th := thresholds config in
  match mode config with
  | autonomous =>
      if Qltb conf (autoCorrect th)
      then {| shouldEscalate := true; reason := ConfidenceTooLow conf |}
      else if hasCriticalErrors c
      then {| shouldEscalate := true; reason := CriticalErrorDetected |}
      else {| shouldEscalate := false; reason := HandledAutomatically |}
  | collaborative =>
      if Qle_bool (autoApprove th) conf
      then {| shouldEscalate := false; reason := HighConfidenceApproved |}
      else if Qltb conf (requireReview th)
      then {| shouldEscalate := true; reason := MediumConfidenceNeedsReview conf |}
      else if checkInterventionPoints config c
      then {| shouldEscalate := true; reason := InterventionPointHit |}
      else {| shouldEscalate := false; reason := HandledAutomatically |}
  | supervised =>
      if Qle_bool (autoApprove th) conf
      then {| shouldEscalate := false; reason := HighConfidenceApproved |}
      else if Qltb conf (requireReview th)
      then {| shouldEscalate := true; reason := ConfidenceBelowThreshold conf |}
      else if hasCriticalErrors c
      then {| shouldEscalate := true; reason := CriticalIssueDetected |}
      else {| shouldEscalate := false; reason := HandledAutomatically |}
  | manual =>
      if Qle_bool 0.9 conf && (length (issues c) =? 0)%nat
      then {| shouldEscalate := false; reason := VeryHighConfidenceApproved |}
      else {| shouldEscalate := true; reason := ManualModeNeedsReview |}
  end.

Definition shouldAttemptAutoCorrect (config : CognitiveQuadrant)
    (c : CritiqueResult) : bool :=
  (0 <? length (autoCorrections c))%nat
  && (0 <? length (issues c))%nat
  && Qle_bool (autoCorrect (thresholds config)) (overall (confidence c)).

Definition getRecommendedAction (config : CognitiveQuadrant)
    (c : CritiqueResult) : Recommendation :=
  let escalation := shouldEscalateToHuman config c in
  if shouldEscalate escalation then
    if Qltb (overall (confidence c)) (autoCorrect (thresholds config))
    then {| rec_action := reject; rec_reason := reason escalation |}
    else {| rec_action := review; rec_reason := reason escalation |}
  else if shouldAttemptAutoCorrect config c
  then {| rec_action := auto_correct; rec_reason := AutoCorrectableIssues |}
  else if Qle_bool (autoApprove (thresholds config)) (overall (confidence c))
  then {| rec_action := approve; rec_reason := HighConfidenceApproved |}
  else {| rec_action := review; rec_reason := MediumConfidenceSuggestReview |}.

(** The intervention points whose trigger can decide an escalation. *)
Definition consulted (point : InterventionPoint) : bool :=
  match point with
  | on_error | on_critical_issue => true
  | before_phase | after_phase | on_low_confidence => false
  end.

(** [config] with other intervention points. *)
Definition with_points (config : CognitiveQuadrant)
    (points : list InterventionPoint) : CognitiveQuadrant :=
  {| mode := mode config; thresholds := thresholds config;
     humanInterventionPoints := points |}.

(** The thresholds are in their intended order. *)
Definition ordered (th : Thresholds) : Prop :=
  autoCorrect th <= requireReview th /\
  requireReview th <= autoApprove th /\
  autoCorrect th <= 0.9.

(** A critique with the given overall confidence and issues. *)
Definition critique_with (conf : Q) (l : list Issue) : CritiqueResult :=
  {| phaseId := PhaseExecute; c_timestamp := "2024-01-01T00:00:00.000Z";
     confidence :=
       {| overall := conf;
          dimensions := {| completeness := conf; accuracy := conf;
                           feasibility := conf; coverage := conf |};
          reasoning := "Scenario"; humanReviewRequired := false |};
     issues := l; autoCorrections := [] |}.

Definition low_issue : Issue :=
  {| severity := low; i_description := "Label could be clearer";
     suggestion := None |}.

End CognitiveQuadrantManager.


(** ** The data model of the scan and interpret phases
    ([src/types/schemas.ts]) *)

Module PageModel.

Record BoundingBox : Type := {
  bb_x : Q;
  bb_y : Q;
  bb_width : Q;
  bb_height : Q }.

Inductive ElementType : Type :=
| el_button | el_input | el_link | el_form | el_text | el_image | el_other.

(** [ElementInfoSchema] *)
Record ElementInfo : Type := {
  e_selector : string;
  tagName : string;
  e_text : option string;
  attributes : gmap string string;
  boundingBox : option BoundingBox;
  isInteractive : bool;
  elementType : ElementType }.

(** [NetworkRequestSchema] *)
Record NetworkRequest : Type := {
  nr_url : string;
  nr_method : string;
  nr_status : option Z;
  resourceType : string;
  nr_timestamp : string }.

Inductive ConsoleType : Type :=
| con_log | con_warn | con_error | con_info | con_debug.

(** [ConsoleMessageSchema] *)
Record ConsoleMessage : Type := {
  cm_type : ConsoleType;
  cm_text : string;
  cm_timestamp : string }.

(** [ScanResultSchema] *)
Record ScanResult : Type := {
  sr_id : string;
  sr_url : string;
  sr_route : string;
  sr_timestamp : string;
  sr_screenshot_path : string;
  elements : list ElementInfo;
  networkRequests : list NetworkRequest;
  console : list ConsoleMessage;
  htmlSnapshot : string;
  sr_critique : CritiqueResult }.

Inductive DataType : Type :=
| dt_string | dt_number | dt_boolean | dt_date | dt_email | dt_phone
| dt_url | dt_file | dt_other.

(** [DataDependencySchema] *)
Record DataDependency : Type := {
  fieldName : string;
  dependsOn : list string;
  validationRules : list string;
  dataType : DataType }.

Record FlowStep : Type := {
  fl_order : Z;
  fl_action : string;
  targetElement : option string;
  fl_expectedOutcome : string }.

(** [BusinessFlowSchema] *)
Record BusinessFlow : Type := {
  bf_id : string;
  bf_name : string;
  bf_description : string;
  bf_steps : list FlowStep;
  preconditions : list string;
  postconditions : list string }.

Inductive PageType : Type :=
| pt_landing | pt_form | pt_dashboard | pt_detail | pt_list | pt_auth
| pt_other.

Inductive Relationship : Type :=
| rel_parent | rel_child | rel_sibling | rel_next | rel_previous.

Record RelatedPage : Type := {
  rp_url : string;
  relationship : Relationship }.

(** [PageMetadataSchema]; [validateCompleteness] tests
    [!metadata.pageType], so the page type is optional here. *)
Record PageMetadata : Type := {
  pm_id : string;
  scanResultId : string;
  pm_url : string;
  pm_route : string;
  pm_timestamp : string;
  pageTitle : string;
  pageType : option PageType;
  primaryPurpose : string;
  businessFunctions : list string;
  interactiveElements : list ElementInfo;
  dataDependencies : list DataDependency;
  businessFlows : list BusinessFlow;
  relatedPages : list RelatedPage;
  pm_critique : CritiqueResult }.

Inductive DeriveStrategy : Type :=
| by_error_pattern | by_mutation | by_llm_inferred.

Inductive StrategyLevel : Type := level_1 | level_2 | level_3.

Inductive MutationType : Type :=
| boundary_value | invalid_input | missing_field | wrong_order
| timing_issue | timing_delay | selector_change | unexpected_navigation
| race_condition | permission_denial | other_mutation.

Record Mutation : Type := {
  mu_stepNumber : Z;
  mutationType : MutationType;
  originalValue : option json;
  mutatedValue : option json;
  expectedBehavior : string }.

Inductive ExpectedOutcome : Type := expect_success | expect_failure.

(** [DerivedTestCaseSchema] *)
Record DerivedTestCase : Type := {
  tc_id : string;
  sourceWorkflowId : string;
  tc_timestamp : string;
  tc_strategy : DeriveStrategy;
  strategyLevel : StrategyLevel;
  mutations : list Mutation;
  tc_workflow : SOPWorkflow;
  expectedOutcome : ExpectedOutcome;
  expectedFailureMode : option string;
  bugHypothesis : string;
  tc_critique : CritiqueResult }.

End PageModel.

(** ** [validators/ScanValidator.ts] *)

Module ScanValidator.

Import PageModel ConfidenceCalculator.
Local Open Scope Q_scope.

(** [toIssue]; the severity is [medium] when left out. *)
Definition toIssue (description_ : string) (severity_ : option Severity) : Issue :=
  {| severity := default medium severity_; i_description := description_;
     suggestion := None |}.

Definition validateCompleteness (scanResult : ScanResult) : list Issue :=
  ((if String.eqb (sr_url scanResult) ""
    then [toIssue "缺少 URL" (Some critical)] else [])
   ++ (if String.eqb (sr_screenshot_path scanResult) ""
       then [toIssue "缺少截图" (Some high)] else [])
   ++ (if String.eqb (htmlSnapshot scanResult) ""
       then [toIssue "缺少 HTML 快照" (Some medium)] else [])
   ++ (if (length (elements scanResult) =? 0)%nat
       then [toIssue "未提取到任何页面元素" (Some high)] else []))%list.

(** The [forEach] over the elements of [validateAccuracy], from index
    [index] on. *)
Fixpoint element_issues (index : Z) (l : list ElementInfo) : list Issue :=
  match l with
  | [] => []
  | element :: rest =>
      ((if String.eqb (e_selector element) ""
        then [toIssue ("元素 " +:+ pretty index +:+ " 缺少选择器") (Some high)]
        else [])
       ++ (if String.eqb (tagName element) ""
           then [toIssue ("元素 " +:+ pretty index +:+ " 缺少标签名") (Some high)]
           else [])
       ++ element_issues (index + 1) rest)%list
  end.

(** [validateAccuracy]; [valid_url s] tells whether [new URL(s)] returns
    rather than throws. *)
Definition validateAccuracy (valid_url : string -> bool)
    (scanResult : ScanResult) : list Issue :=
  ((if negb (valid_url (sr_url scanResult))
    then [toIssue ("无效的 URL: " +:+ sr_url scanResult) (Some critical)]
    else [])
   ++ (if negb (String.eqb (sr_screenshot_path scanResult) "")
          && negb (JS.startsWith "data:image" (sr_screenshot_path scanResult))
       then [toIssue "截图格式不正确，应为 base64 data URL" (Some medium)]
       else [])
   ++ element_issues 0 (elements scanResult))%list.

Definition has_type (t : ElementType) (el : ElementInfo) : bool :=
  match t, elementType el with
  | el_button, el_button | el_input, el_input | el_link, el_link => true
  | _, _ => false
  end.

Definition validateCoverage (scanResult : ScanResult) : list Issue :=
  let hasButtons := existsb (has_type el_button) (elements scanResult) in
  let hasInputs := existsb (has_type el_input) (elements scanResult) in
  let hasLinks := existsb (has_type el_link) (elements scanResult) in
  if negb hasButtons && negb hasInputs && negb hasLinks
  then [toIssue "未找到任何交互元素（按钮、输入框、链接）" (Some low)]
  else [].

(** [validate]; [now] is the value of [new Date().toISOString()].  An
    error thrown by [calculate] leaves the method. *)
Definition validate (valid_url : string -> bool) (now : string)
    (scanResult : ScanResult) : RangeError + CritiqueResult :=
  let completenessIssues := validateCompleteness scanResult in
  let accuracyIssues := validateAccuracy valid_url scanResult in
  let coverageIssues := validateCoverage scanResult in
  let allIssues := (completenessIssues ++ accuracyIssues ++ coverageIssues)%list in
  match
    calculate
      {| completeness :=
           calculateCompletenessFromIssues 5
             (Z.of_nat (length completenessIssues));
         accuracy :=
           calculateAccuracyFromErrors
             (Z.of_nat (length (elements scanResult)))
             (Z.of_nat (length accuracyIssues));
         feasibility :=
           if (length completenessIssues =? 0)%nat then 1 else 0.5;
         coverage := if (length coverageIssues =? 0)%nat then 1 else 0.7 |}
      (if (length allIssues =? 0)%nat then "扫描结果完整且准确"
       else "发现 " +:+ pretty (length allIssues) +:+ " 个问题")
      None
  with
  | inl e => inl e
  | inr confidence_ =>
      inr {| phaseId := PhaseScan; c_timestamp := now;
             confidence := confidence_; issues := allIssues;
             autoCorrections := [] |}
  end.

End ScanValidator.

(** ** [validators/InterpretValidator.ts] *)

Module InterpretValidator.

Import PageModel ConfidenceCalculator.
Local Open Scope Q_scope.

(** [toIssue]; the severity is [medium] when left out. *)
Definition toIssue (description_ : string) (severity_ : option Severity) : Issue :=
  {| severity := default medium severity_; i_description := description_;
     suggestion := None |}.

(** [validateCompleteness] *)
Definition validateCompleteness (metadata : PageMetadata) : list Issue :=
  ((if String.eqb (pageTitle metadata) ""
    then [toIssue "缺少页面标题" (Some high)] else [])
   ++ (match pageType metadata with
       | None => [toIssue "缺少页面类型" (Some high)]
       | Some _ => []
       end)
   ++ (if (length (businessFunctions metadata) =? 0)%nat
       then [toIssue "未识别任何业务功能" (Some medium)] else [])
   ++ (if (length (businessFlows metadata) =? 0)%nat
       then [toIssue "未识别任何业务流程" (Some low)] else []))%list.

(** The [forEach] over the business functions, from index [index] on. *)
Fixpoint function_issues (index : Z) (l : list string) : list Issue :=
  match l with
  | [] => []
  | func :: rest =>
      ((if (JS.length16 func <? 3)%nat
        then [toIssue ("业务功能 " +:+ pretty index +:+ " 描述过于简短: "
                       +:+ JS.dq +:+ func +:+ JS.dq) (Some low)]
        else [])
       ++ function_issues (index + 1) rest)%list
  end.

(** The [forEach] over the business flows, from index [index] on. *)
Fixpoint flow_issues (index : Z) (l : list BusinessFlow) : list Issue :=
  match l with
  | [] => []
  | flow :: rest =>
      ((if String.eqb (bf_name flow) ""
        then [toIssue ("业务流程 " +:+ pretty index +:+ " 缺少名称") (Some high)]
        else [])
       ++ (if (length (bf_steps flow) =? 0)%nat
           then [toIssue ("业务流程 " +:+ JS.dq +:+ bf_name flow +:+ JS.dq
                          +:+ " 没有定义步骤") (Some medium)]
           else [])
       ++ flow_issues (index + 1) rest)%list
  end.

Definition validateAccuracy (metadata : PageMetadata) : list Issue :=
  (function_issues 0 (businessFunctions metadata)
   ++ flow_issues 0 (businessFlows metadata))%list.

Definition validateFeasibility (metadata : PageMetadata) : list Issue :=
  flat_map
    (fun dep =>
       if String.eqb (fieldName dep) ""
       then [toIssue "数据依赖缺少字段名" (Some medium)] else [])
    (dataDependencies metadata).

(** [validate]; [now] is the value of [new Date().toISOString()].  An
    error thrown by [calculate] leaves the method. *)
Definition validate (now : string) (metadata : PageMetadata)
  : RangeError + CritiqueResult :=
  let completenessIssues := validateCompleteness metadata in
  let accuracyIssues := validateAccuracy metadata in
  let feasibilityIssues := validateFeasibility metadata in
  let allIssues :=
    (completenessIssues ++ accuracyIssues ++ feasibilityIssues)%list in
  match
    calculate
      {| completeness :=
           calculateCompletenessFromIssues 4
             (Z.of_nat (length completenessIssues));
         accuracy :=
           calculateAccuracyFromErrors
             (Z.of_nat (length (businessFunctions metadata))
              + Z.of_nat (length (businessFlows metadata)))
             (Z.of_nat (length accuracyIssues));
         feasibility :=
           if (length feasibilityIssues =? 0)%nat then 1
           else 1 - inject_Z (Z.of_nat (length feasibilityIssues)) * 0.1;
         coverage :=
           if (0 <? length (businessFlows metadata))%nat then 1 else 0.5 |}
      (if (length allIssues =? 0)%nat then "业务解读完整且准确"
       else "发现 " +:+ pretty (length allIssues) +:+ " 个问题")
      None
  with
  | inl e => inl e
  | inr confidence_ =>
      inr {| phaseId := PhaseInterpret; c_timestamp := now;
             confidence := confidence_; issues := allIssues;
             autoCorrections := [] |}
  end.

End InterpretValidator.

(** ** [CritiqueEngine.ts] *)

Module CritiqueEngine.

Import ConfidenceCalculator.
Local Open Scope Q_scope.

(** The engine holds its [humanReviewThreshold], 0.6 when left out. *)
Record Engine : Type := { humanReviewThreshold : Q }.

Definition constructor (threshold : option Q) : Engine :=
  {| humanReviewThreshold := default 0.6 threshold |}.

(** [toIssue]; the severity is [medium] when left out. *)
Definition toIssue (description_ : string) (severity_ : option Severity) : Issue :=
  {| severity := default medium severity_; i_description := description_;
     suggestion := None |}.

(** The [forEach] over the steps of [critiqueOrchestrate], from index
    [index] on: [if (!step.action)], then [if (!step.description)]. *)
Fixpoint step_issues (index : Z) (l : list SOPStep) : list Issue :=
  match l with
  | [] => []
  | step :: rest =>
      ((match action step with
        | None => [toIssue ("步骤 " +:+ pretty index +:+ " 缺少动作类型") (Some high)]
        | Some _ => []
        end)
       ++ (if String.eqb (description step) ""
           then [toIssue ("步骤 " +:+ pretty index +:+ " 缺少描述") (Some medium)]
           else [])
       ++ step_issues (index + 1) rest)%list
  end.

(** The issues [critiqueOrchestrate] collects. *)
Definition orchestrate_issues (workflow : SOPWorkflow) : list Issue :=
  ((if String.eqb (name workflow) ""
    then [toIssue "缺少工作流名称" (Some high)] else [])
   ++ (if (length (steps workflow) =? 0)%nat
       then [toIssue "工作流没有定义步骤" (Some critical)] else [])
   ++ step_issues 0 (steps workflow))%list.

(** [critiqueOrchestrate]; [now] is the value of
    [new Date().toISOString()].  An error thrown by [quickScore] leaves the
    method. *)
Definition critiqueOrchestrate (now : string) (workflow : SOPWorkflow)
  : RangeError + CritiqueResult :=
  let issues_ := orchestrate_issues workflow in
  match quickScore (map i_description issues_) (Some 10%Z) with
  | inl e => inl e
  | inr confidence_ =>
      inr {| phaseId := PhaseOrchestrate; c_timestamp := now;
             confidence := confidence_; issues := issues_;
             autoCorrections := [] |}
  end.

(** The issues [critiqueExecute] collects. *)
Definition execute_issues (executionResult : ExecutionResult) : list Issue :=
  ((match status executionResult with
    | failure =>
        let hasErrorDetails :=
          existsb (fun sr => JS.truthy (so_error sr))
                  (stepResults executionResult) in
        if negb hasErrorDetails
        then [toIssue "执行失败但未记录错误信息" (Some high)] else []
    | _ => []
    end)
   ++ (if (length (stepResults executionResult) =? 0)%nat
       then [toIssue "没有记录任何步骤结果" (Some critical)] else []))%list.

(** [critiqueExecute] *)
Definition critiqueExecute (now : string) (executionResult : ExecutionResult)
  : RangeError + CritiqueResult :=
  let issues_ := execute_issues executionResult in
  match quickScore (map i_description issues_) (Some 5%Z) with
  | inl e => inl e
  | inr confidence_ =>
      inr {| phaseId := PhaseExecute; c_timestamp := now;
             confidence := confidence_; issues := issues_;
             autoCorrections := [] |}
  end.

(** [critiqueScan] and [critiqueInterpret] hand over to the validators. *)
Definition critiqueScan (valid_url : string -> bool) (now : string)
    (scanResult : PageModel.ScanResult) : RangeError + CritiqueResult :=
  ScanValidator.validate valid_url now scanResult.

Definition critiqueInterpret (now : string) (metadata : PageModel.PageMetadata)
  : RangeError + CritiqueResult :=
  InterpretValidator.validate now metadata.

(** The issues [critiqueDerive] collects. *)
Definition derive_issues (testCase : PageModel.DerivedTestCase) : list Issue :=
  ((if String.eqb (name (PageModel.tc_workflow testCase)) ""
    then [toIssue "派生测试缺少工作流名称" (Some high)] else [])
   ++ (if String.eqb (PageModel.sourceWorkflowId testCase) ""
       then [toIssue "未指定源工作流" (Some high)] else [])
   ++ (if (length (PageModel.mutations testCase) =? 0)%nat
       then [toIssue "没有定义任何变异" (Some medium)] else []))%list.

(** [critiqueDerive] *)
Definition critiqueDerive (now : string) (testCase : PageModel.DerivedTestCase)
  : RangeError + CritiqueResult :=
  let issues_ := derive_issues testCase in
  match quickScore (map i_description issues_) (Some 8%Z) with
  | inl e => inl e
  | inr confidence_ =>
      inr {| phaseId := PhaseDerive; c_timestamp := now;
             confidence := confidence_; issues := issues_;
             autoCorrections := [] |}
  end.

(** [requiresHumanReview] *)
Definition requiresHumanReview (engine : Engine) (c : CritiqueResult) : bool :=
  humanReviewRequired (confidence c)
  || Qltb (overall (confidence c)) (humanReviewThreshold engine)
  || existsb (fun i => match severity i with critical => true | _ => false end)
             (issues c).

End CritiqueEngine.

(** ** A scripted session, used to run the executor on concrete inputs *)

Module Script.

(** The world is the list of outcomes of the calls still to come: [true]
    lets the next fallible call succeed, [false] makes it reject; when the
    script is exhausted every call succeeds. *)
Definition play {A : Type} (a : A) (w : list bool) : (Err + A) * list bool :=
  match w with
  | false :: w' => (inl "scripted failure", w')
  | true :: w' => (inr a, w')
  | [] => (inr a, [])
  end.

Definition session : Session (list bool) :=
  {| pw_initialize := play tt;
     pw_newPage := play tt;
     pw_goto := fun _ => play tt;
     pw_click := fun _ => play tt;
     pw_fill := fun _ _ => play tt;
     pw_screenshot := play "AAAA";
     page_selectOption := fun _ _ => play tt;
     page_waitForSelector := fun _ _ => play tt;
     page_textContent := fun _ => play (Some "ready");
     page_query := fun _ => play true;
     page_isVisible := fun _ => play true;
     page_inputValue := fun _ => play "";
     page_close := play tt;
     setTimeout := fun _ w => w;
     faker_value := fun _ w => ("Ada Lovelace", w);
     Date_now := fun w => (0, w);
     Date_iso := fun w => ("2024-01-01T00:00:00.000Z", w);
     randomUUID := fun w => ("123e4567-e89b-42d3-a456-426614174000", w);
     storage_savePhaseData := fun _ => play tt;
     storage_saveTextFile := fun _ _ _ => play tt;
     storage_saveBinaryFile := fun _ _ _ => play tt |}.

(** The executor as [new WorkflowExecutor(playwright)] leaves it. *)
Definition fresh (w : list bool) : Run (list bool) :=
  mkRun w false
    {| es_id := "123e4567-e89b-42d3-a456-426614174000"; es_workflowId := "";
       es_timestamp := "2024-01-01T00:00:00.000Z";
       variables := ∅; currentStepNumber := 0;
       completedSteps := []; failedSteps := [];
       currentUrl := Some ""; cookies := Some [];
       localStorage := Some ∅; sessionStorage := Some ∅ |}
    [].

(** The executor in the middle of a run, a page being open. *)
Definition running (w : list bool) : Run (list bool) :=
  mkRun w true (executionState (fresh w)) [].

(** What [executeWorkflow] resolves to on a fresh executor. *)
Definition run (workflow : SOPWorkflow) (w : list bool) : option ExecutionResult :=
  match Exec.executeWorkflow session workflow None (fresh w) with
  | (inr res, _) => Some res
  | (inl _, _) => None
  end.

Definition a_critique : CritiqueResult :=
  {| phaseId := PhaseOrchestrate; c_timestamp := "2024-01-01T00:00:00.000Z";
     confidence :=
       {| overall := 1%Q;
          dimensions := {| completeness := 1%Q; accuracy := 1%Q;
                           feasibility := 1%Q; coverage := 1%Q |};
          reasoning := "Parsed from markdown";
          humanReviewRequired := false |};
     issues := []; autoCorrections := [] |}.

Definition click_step (n : Z) (eh : option ErrorHandling) : SOPStep :=
  {| stepNumber := n; action := Some click; description := "Press the button";
     target := Some {| t_selector := Some "#go"; t_url := None; t_value := None |};
     data := None; validation := None; errorHandling := eh |}.

Definition policy (s : Strategy) (n : option Z) : option ErrorHandling :=
  Some {| strategy := s; maxRetries := n; fallbackStepNumber := None |}.

Definition workflow_of (l : list SOPStep) : SOPWorkflow :=
  {| w_id := "123e4567-e89b-42d3-a456-426614174000"; name := "Login";
     w_description := "Sign in"; metadataIds := [];
     timestamp := "2024-01-01T00:00:00.000Z";
     steps := l; requiredInputs := []; successCriteria := [];
     estimatedDuration := 0; complexity := simple; tags := [];
     critique := a_critique |}.

(** The result [executeWorkflow] builds when the browser does not launch. *)
Definition launch_failure : ExecutionResult :=
  Exec.caught_result (workflow_of [click_step 1 None])
    (executionState (fresh [])) [] 0
    "123e4567-e89b-42d3-a456-426614174000"
    "2024-01-01T00:00:00.000Z" "2024-01-01T00:00:00.000Z"
    "scripted failure".

(** A derived test case that lacks name, source workflow and mutations. *)
Definition bare_test_case : PageModel.DerivedTestCase :=
  {| PageModel.tc_id := "123e4567-e89b-42d3-a456-426614174000";
     PageModel.sourceWorkflowId := "";
     PageModel.tc_timestamp := "2024-01-01T00:00:00.000Z";
     PageModel.tc_strategy := PageModel.by_mutation;
     PageModel.strategyLevel := PageModel.level_1;
     PageModel.mutations := [];
     PageModel.tc_workflow :=
       {| w_id := "123e4567-e89b-42d3-a456-426614174000"; name := "";
          w_description := ""; metadataIds := [];
          timestamp := "2024-01-01T00:00:00.000Z";
          steps := []; requiredInputs := []; successCriteria := [];
          estimatedDuration := 0; complexity := simple; tags := [];
          critique := a_critique |};
     PageModel.expectedOutcome := PageModel.expect_failure;
     PageModel.expectedFailureMode := None;
     PageModel.bugHypothesis := "";
     PageModel.tc_critique := a_critique |}.

End Script.


(** ** [JSON.stringify] and [JSON.parse]

    Strings are byte strings; numbers are integers, the only numerals the
    formatter below prints. *)

Module JSON.

Definition is_ws (c : ascii) : bool :=
  let n := nat_of_ascii c in
  ((n =? 32) || (n =? 9) || (n =? 10) || (n =? 13))%nat.

Definition is_digit (c : ascii) : bool :=
  let n := nat_of_ascii c in ((48 <=? n) && (n <=? 57))%nat.

Definition hex_digit (n : nat) : ascii :=
  ascii_of_nat (if (n <? 10)%nat then 48 + n else 87 + n).

(** One character of a quoted string. *)
Definition escape (c : ascii) : string :=
  let n := nat_of_ascii c in
  let bs := String (ascii_of_nat 92) EmptyString in
  if (n =? 34)%nat then bs +:+ JS.dq
  else if (n =? 92)%nat then bs +:+ bs
  else if (n =? 8)%nat then bs +:+ "b"
  else if (n =? 9)%nat then bs +:+ "t"
  else if (n =? 10)%nat then bs +:+ "n"
  else if (n =? 12)%nat then bs +:+ "f"
  else if (n =? 13)%nat then bs +:+ "r"
  else if (n <? 32)%nat
       then bs +:+ "u00" +:+ String (hex_digit (n / 16))
                             (String (hex_digit (n mod 16)) EmptyString)
  else String c EmptyString.

Fixpoint escape_all (s : string) : string :=
  match s with
  | EmptyString => EmptyString
  | String c s' => escape c +:+ escape_all s'
  end.

Definition quote (s : string) : string := JS.dq +:+ escape_all s +:+ JS.dq.

Definition newline : string := String (ascii_of_nat 10) EmptyString.

(** [JSON.stringify(v, null, gap)] at the current indentation; [gap] is the
    empty string for the compact form. *)
Fixpoint stringify_at (gap indent : string) (v : json) {struct v} : string :=
  let inner := indent +:+ gap in
  let compact := String.eqb gap "" in
  let wrap (opening closing : string) (items : list string) : string :=
    match items with
    | [] => opening +:+ closing
    | _ =>
        if compact then opening +:+ JS.join "," items +:+ closing
        else opening +:+ newline +:+ inner
             +:+ JS.join ("," +:+ newline +:+ inner) items
             +:+ newline +:+ indent +:+ closing
    end in
  match v with
  | JNull => "null"
  | JBool true => "true"
  | JBool false => "false"
  | JNum n => pretty n
  | JStr s => quote s
  | JArr l => wrap "[" "]" (map (stringify_at gap inner) l)
  | JObj kvs =>
      wrap "{" "}"
        (map (fun kv =>
                quote kv.1 +:+ (if compact then ":" else ": ")
                +:+ stringify_at gap inner kv.2) kvs)
  end.

(** [JSON.stringify(v)] *)
Definition stringify (v : json) : string := stringify_at "" "" v.

(** [JSON.stringify(v, null, 2)] *)
Definition stringify_pretty (v : json) : string := stringify_at "  " "" v.

(** An object literal whose [undefined] properties are left out. *)
Definition object (fields : list (string * option json)) : json :=
  JObj (omap (fun kv => match kv.2 with Some v => Some (kv.1, v) | None => None end)
             fields).

(** Property lookup on a parsed value; of duplicate keys the last one
    counts. *)
Fixpoint lookup_last (k : string) (kvs : list (string * json)) : option json :=
  match kvs with
  | [] => None
  | (k', v) :: rest =>
      match lookup_last k rest with
      | Some v' => Some v'
      | None => if String.eqb k k' then Some v else None
      end
  end.

Definition get (k : string) (v : json) : option json :=
  match v with
  | JObj kvs => lookup_last k kvs
  | _ => None
  end.

Fixpoint skip_ws (s : string) : string :=
  match s with
  | String c s' => if is_ws c then skip_ws s' else s
  | EmptyString => EmptyString
  end.

Definition hex_value (c : ascii) : option N :=
  let n := N_of_ascii c in
  if ((48 <=? n) && (n <=? 57))%N then Some (n - 48)%N
  else if ((97 <=? n) && (n <=? 102))%N then Some (n - 87)%N
  else if ((65 <=? n) && (n <=? 70))%N then Some (n - 55)%N
  else None.

(** The UTF-8 bytes of a code point of the basic plane that is not a
    surrogate. *)
Definition utf8 (n : N) : option string :=
  if (n <? 128)%N then Some (String (ascii_of_N n) EmptyString)
  else if (n <? 2048)%N then
    Some (String (ascii_of_N (192 + n / 64))
            (String (ascii_of_N (128 + n mod 64)) EmptyString))
  else if ((55296 <=? n) && (n <=? 57343))%N then None
  else
    Some (String (ascii_of_N (224 + n / 4096))
            (String (ascii_of_N (128 + (n / 64) mod 64))
               (String (ascii_of_N (128 + n mod 64)) EmptyString))).

(** The rest of a string literal, after its opening quote: the text and
    what follows the closing quote. *)
Fixpoint parse_string (s : string) : option (string * string) :=
  match s with
  | EmptyString => None
  | String c s' =>
      let n := nat_of_ascii c in
      if (n =? 34)%nat then Some (EmptyString, s')
      else if (n <? 32)%nat then None
      else if (n =? 92)%nat then
        match s' with
        | String e s'' =>
            let one (b : nat) :=
              match parse_string s'' with
              | Some (t, rest) => Some (String (ascii_of_nat b) t, rest)
              | None => None
              end in
            let m := nat_of_ascii e in
            if (m =? 34)%nat then one 34%nat
            else if (m =? 92)%nat then one 92%nat
            else if (m =? 47)%nat then one 47%nat
            else if (m =? 98)%nat then one 8%nat
            else if (m =? 102)%nat then one 12%nat
            else if (m =? 110)%nat then one 10%nat
            else if (m =? 114)%nat then one 13%nat
            else if (m =? 116)%nat then one 9%nat
            else if (m =? 117)%nat then
              match s'' with
              | String h1 (String h2 (String h3 (String h4 s3))) =>
                  match hex_value h1, hex_value h2, hex_value h3, hex_value h4,
                        parse_string s3 with
                  | Some a, Some b, Some c', Some d, Some (t, rest) =>
                      match utf8 (((a * 16 + b) * 16 + c') * 16 + d)%N with
                      | Some bytes => Some (bytes +:+ t, rest)
                      | None => None
                      end
                  | _, _, _, _, _ => None
                  end
              | _ => None
              end
            else None
        | EmptyString => None
        end
      else
        match parse_string s' with
        | Some (t, rest) => Some (String c t, rest)
        | None => None
        end
  end.

Fixpoint span_digits (s : string) : string * string :=
  match s with
  | String c s' =>
      if is_digit c then let '(d, rest) := span_digits s' in (String c d, rest)
      else (EmptyString, s)
  | EmptyString => (EmptyString, EmptyString)
  end.

Fixpoint digits_value (acc : Z) (s : string) : Z :=
  match s with
  | String c s' => digits_value (10 * acc + Z.of_nat (nat_of_ascii c - 48)) s'
  | EmptyString => acc
  end.

(** An integer numeral: no leading zero, no fraction, no exponent. *)
Definition parse_number (s : string) : option (Z * string) :=
  let '(negative, body) :=
    match s with
    | String "-" s' => (true, s')
    | _ => (false, s)
    end in
  let '(d, rest) := span_digits body in
  match d with
  | EmptyString => None
  | String "0" (String _ _) => None
  | _ =>
      match rest with
      | String "." _ | String "e" _ | String "E" _ => None
      | _ => Some (if negative then - digits_value 0 d else digits_value 0 d, rest)
      end
  end.

Fixpoint parse_value (fuel : nat) (s : string) : option (json * string) :=
  match fuel with
  | O => None
  | S fuel' =>
      match skip_ws s with
      | String "{" s1 =>
          match skip_ws s1 with
          | String "}" rest => Some (JObj [], rest)
          | _ => parse_members fuel' s1 []
          end
      | String "[" s1 =>
          match skip_ws s1 with
          | String "]" rest => Some (JArr [], rest)
          | _ => parse_elements fuel' s1 []
          end
      | String c s1 as s0 =>
          if (nat_of_ascii c =? 34)%nat then
            match parse_string s1 with
            | Some (t, rest) => Some (JStr t, rest)
            | None => None
            end
          else
            match JS.drop_prefix "true" s0, JS.drop_prefix "false" s0,
                  JS.drop_prefix "null" s0 with
            | Some rest, _, _ => Some (JBool true, rest)
            | _, Some rest, _ => Some (JBool false, rest)
            | _, _, Some rest => Some (JNull, rest)
            | _, _, _ =>
                match parse_number s0 with
                | Some (n, rest) => Some (JNum n, rest)
                | None => None
                end
            end
      | EmptyString => None
      end
  end
with parse_members (fuel : nat) (s : string) (acc : list (string * json))
  : option (json * string) :=
  match fuel with
  | O => None
  | S fuel' =>
      match skip_ws s with
      | String q s1 =>
          if (nat_of_ascii q =? 34)%nat then
            match parse_string s1 with
            | Some (k, s2) =>
                match skip_ws s2 with
                | String ":" s3 =>
                    match parse_value fuel' s3 with
                    | Some (v, s4) =>
                        match skip_ws s4 with
                        | String "," s5 => parse_members fuel' s5 (acc ++ [(k, v)])
                        | String "}" rest => Some (JObj (acc ++ [(k, v)]), rest)
                        | _ => None
                        end
                    | None => None
                    end
                | _ => None
                end
            | None => None
            end
          else None
      | EmptyString => None
      end
  end
with parse_elements (fuel : nat) (s : string) (acc : list json)
  : option (json * string) :=
  match fuel with
  | O => None
  | S fuel' =>
      match parse_value fuel' s with
      | Some (v, s1) =>
          match skip_ws s1 with
          | String "," s2 => parse_elements fuel' s2 (acc ++ [v])
          | String "]" rest => Some (JArr (acc ++ [v]), rest)
          | _ => None
          end
      | None => None
      end
  end.

(** [JSON.parse(s)]; [None] stands for the [SyntaxError] it throws.  Every
    recursive call consumes input, so the length of the text bounds the
    depth. *)
Definition parse (s : string) : option json :=
  match parse_value (S (String.length s)) s with
  | Some (v, rest) =>
      match skip_ws rest with
      | EmptyString => Some v
      | _ => None
      end
  | None => None
  end.

End JSON.


(** ** [SOPFormatter.ts] *)

Module SOPFormatter.

Definition bt : string := "`".

Definition target_json (t : Target) : json :=
  JSON.object [("selector", JStr <$> t_selector t); ("url", JStr <$> t_url t);
               ("value", JStr <$> t_value t)].

Definition data_json (d : Data) : json :=
  JSON.object [("source", Some (JStr (source_name (d_source d))));
               ("field", JStr <$> d_field d);
               ("fakerMethod", JStr <$> d_fakerMethod d);
               ("value", d_value d)].

Definition validation_json (v : Validation) : json :=
  JSON.object [("type", Some (JStr (validation_type_name (v_type v))));
               ("expected", v_expected v);
               ("timeout", JNum <$> v_timeout v)].

Definition errorHandling_json (eh : ErrorHandling) : json :=
  JSON.object [("strategy", Some (JStr (strategy_name (strategy eh))));
               ("maxRetries", JNum <$> maxRetries eh);
               ("fallbackStepNumber", JNum <$> fallbackStepNumber eh)].

(** The object literal handed to [JSON.stringify] for a step: the step
    number, the action and the four descriptors, and nothing else.  An
    [undefined] action is left out like the other [undefined] values. *)
Definition step_json (step : SOPStep) : json :=
  JSON.object [("stepNumber", Some (JNum (stepNumber step)));
               ("action", JStr ∘ action_name <$> action step);
               ("target", target_json <$> target step);
               ("data", data_json <$> data step);
               ("validation", validation_json <$> validation step);
               ("errorHandling", errorHandling_json <$> errorHandling step)].

(** [formatTarget]; a [Target] has neither [text] nor [condition]. *)
Definition formatTarget (t : option Target) : string :=
  match t with
  | None => "-"
  | Some t =>
      match t_selector t, t_url t with
      | Some sel, _ => bt +:+ sel +:+ bt
      | None, Some u => bt +:+ u +:+ bt
      | None, None => JSON.stringify (target_json t)
      end
  end.

(** [formatData]; a [Data] is never a string. *)
Definition formatData (d : option Data) : string :=
  match d with
  | None => "-"
  | Some d => bt +:+ JSON.stringify (data_json d) +:+ bt
  end.

Definition formatValidation (v : option Validation) : string :=
  match v with
  | None => "-"
  | Some v =>
      JS.join ", "
        (["Type: " +:+ validation_type_name (v_type v);
          "Expected: " +:+ from_option JSON.stringify "undefined" (v_expected v)]
         ++ match v_timeout v with
            | Some t =>
                if (t =? 0)%Z then [] else ["Timeout: " +:+ pretty t +:+ "ms"]
            | None => []
            end)%list
  end.

Definition input_row (i : RequiredInput) : string :=
  let required_ := if required i then "Yes" else "No" in
  let defaultVal := JS.toString (JS.nullish (defaultValue i) (JStr "-")) in
  "| " +:+ field i +:+ " | " +:+ type i +:+ " | " +:+ required_
  +:+ " | " +:+ defaultVal +:+ " |".

Definition step_lines (step : SOPStep) : list string :=
  (["### Step " +:+ pretty (stepNumber step) +:+ ": " +:+ description step;
    "";
    "**Action**: " +:+ bt +:+ action_text (action step) +:+ bt]
   ++ match target step with
      | Some t => ["**Target**: " +:+ formatTarget (Some t)]
      | None => []
      end
   ++ match data step with
      | Some d => ["**Data**: " +:+ formatData (Some d)]
      | None => []
      end
   ++ match validation step with
      | Some v => ["**Validation**: " +:+ formatValidation (Some v)]
      | None => []
      end
   ++ match errorHandling step with
      | Some eh =>
          ["**Error Handling**:";
           "- Strategy: " +:+ strategy_name (strategy eh);
           "- Max Retries: " +:+ from_option pretty "undefined" (maxRetries eh)]
          ++ match fallbackStepNumber eh with
             | Some n => ["- Fallback Step: " +:+ pretty n]
             | None => []
             end
      | None => []
      end
   ++ [""; "```json"; JSON.stringify_pretty (step_json step); "```"; ""])%list.

Fixpoint criteria_lines (index : Z) (l : list Criterion) : list string :=
  match l with
  | [] => []
  | criterion :: rest =>
      (pretty (index + 1) +:+ ". " +:+ sc_description criterion)
      :: ("   Validation: " +:+ sc_validation criterion)
      :: criteria_lines (index + 1) rest
  end.

Definition toMarkdown (workflow : SOPWorkflow) : string :=
  JS.join JSON.newline
    (["# SOP: " +:+ name workflow;
      "";
      "> **Generated**: " +:+ timestamp workflow;
      "> **ID**: " +:+ bt +:+ w_id workflow +:+ bt;
      "> **Description**: " +:+ w_description workflow;
      "> **Complexity**: " +:+ complexity_name (complexity workflow);
      ""]
     ++ (if (0 <? length (requiredInputs workflow))%nat
         then ["## Required Inputs"; "";
               "| Field | Type | Required | Default |";
               "|-------|------|----------|---------|"]
              ++ map input_row (requiredInputs workflow) ++ [""]
         else [])
     ++ ["## Workflow Steps"; ""]
     ++ concat (map step_lines (steps workflow))
     ++ (if (0 <? length (successCriteria workflow))%nat
         then ["## Success Criteria"; ""]
              ++ criteria_lines 0 (successCriteria workflow) ++ [""]
         else []))%list.

End SOPFormatter.


(** ** The zod schemas as validators

    A validator reads the value found at a path (nothing, for a missing
    property) and returns the typed value or the issues it raises; an
    object validator collects the issues of all its properties and drops
    the properties it does not know. *)

Module Zod.

Record Issue : Type := {
  path : list string;
  message : string }.

Definition Result (A : Type) : Type := list Issue + A.

Definition Schema (A : Type) : Type := list string -> option json -> Result A.

Definition pure {A} (a : A) : Result A := inr a.

Definition ap {A B} (f : Result (A -> B)) (x : Result A) : Result B :=
  match f, x with
  | inr g, inr a => inr (g a)
  | inl e, inr _ => inl e
  | inr _, inl e => inl e
  | inl e1, inl e2 => inl (e1 ++ e2)%list
  end.

Definition type_of (v : option json) : string :=
  match v with
  | None => "undefined"
  | Some JNull => "null"
  | Some (JBool _) => "boolean"
  | Some (JNum _) => "number"
  | Some (JStr _) => "string"
  | Some (JArr _) => "array"
  | Some (JObj _) => "object"
  end.

Definition wrong_type {A} (expected : string) (p : list string)
    (v : option json) : Result A :=
  inl [ {| path := p;
           message := match v with
                      | None => "Required"
                      | _ => "Expected " +:+ expected +:+ ", received "
                             +:+ type_of v
                      end |} ].

Definition string_ : Schema string := fun p v =>
  match v with
  | Some (JStr s) => inr s
  | _ => wrong_type "string" p v
  end.

Definition number : Schema Z := fun p v =>
  match v with
  | Some (JNum n) => inr n
  | _ => wrong_type "number" p v
  end.

Definition boolean : Schema bool := fun p v =>
  match v with
  | Some (JBool b) => inr b
  | _ => wrong_type "boolean" p v
  end.

Definition any : Schema (option json) := fun _ v => inr v.

Fixpoint assoc {A} (k : string) (l : list (string * A)) : option A :=
  match l with
  | [] => None
  | (k', a) :: rest => if String.eqb k k' then Some a else assoc k rest
  end.

Definition enum {A} (names : list (string * A)) : Schema A := fun p v =>
  match v with
  | Some (JStr s) =>
      match assoc s names with
      | Some a => inr a
      | None => inl [ {| path := p; message := "Invalid enum value" |} ]
      end
  | None => inl [ {| path := p; message := "Required" |} ]
  | _ => inl [ {| path := p; message := "Invalid enum value" |} ]
  end.

Definition optional {A} (s : Schema A) : Schema (option A) := fun p v =>
  match v with
  | None => inr None
  | Some _ =>
      match s p v with
      | inr a => inr (Some a)
      | inl e => inl e
      end
  end.

(** A string that must pass a format check, as [.uuid()] and [.datetime()]. *)
Definition string_format (check : string -> bool) (what : string)
  : Schema string := fun p v =>
  match v with
  | Some (JStr s) =>
      if check s then inr s
      else inl [ {| path := p; message := "Invalid " +:+ what |} ]
  | _ => wrong_type "string" p v
  end.

(** The property [k] of a value that has passed for an object. *)
Definition prop {A} (s : Schema A) (k : string) (p : list string)
    (o : json) : Result A :=
  s (p ++ [k])%list (JSON.get k o).

Definition object {A} (fields : list string -> json -> Result A) : Schema A :=
  fun p v =>
    match v with
    | Some (JObj kvs) => fields p (JObj kvs)
    | _ => wrong_type "object" p v
    end.

Fixpoint array_from {A} (s : Schema A) (p : list string) (i : nat)
    (l : list json) : Result (list A) :=
  match l with
  | [] => inr []
  | x :: rest =>
      ap (ap (pure cons) (s (p ++ [pretty i])%list (Some x)))
         (array_from s p (S i) rest)
  end.

Definition target : Schema Target :=
  object (fun p o =>
    ap (ap (ap (pure Build_Target)
       (prop (optional string_) "selector" p o))
       (prop (optional string_) "url" p o))
       (prop (optional string_) "value" p o)).

Definition data : Schema Data :=
  object (fun p o =>
    ap (ap (ap (ap (pure Build_Data)
       (prop (enum source_names) "source" p o))
       (prop (optional string_) "field" p o))
       (prop (optional string_) "fakerMethod" p o))
       (prop any "value" p o)).

Definition validation : Schema Validation :=
  object (fun p o =>
    ap (ap (ap (pure Build_Validation)
       (prop (enum validation_type_names) "type" p o))
       (prop any "expected" p o))
       (prop (optional number) "timeout" p o)).

Definition errorHandling : Schema ErrorHandling :=
  object (fun p o =>
    ap (ap (ap (pure Build_ErrorHandling)
       (prop (enum strategy_names) "strategy" p o))
       (prop (optional number) "maxRetries" p o))
       (prop (optional number) "fallbackStepNumber" p o)).

(** [SOPStepSchema]; a step the schema accepts has an action. *)
Definition SOPStepSchema : Schema SOPStep :=
  object (fun p o =>
    ap (ap (ap (ap (ap (ap (ap (pure (fun n a => Build_SOPStep n (Some a)))
       (prop number "stepNumber" p o))
       (prop (enum action_names) "action" p o))
       (prop string_ "description" p o))
       (prop (optional target) "target" p o))
       (prop (optional data) "data" p o))
       (prop (optional validation) "validation" p o))
       (prop (optional errorHandling) "errorHandling" p o)).

End Zod.

(** ** [SOPParser.ts] *)

Module SOPParser.

(** What the parser takes from its environment: the format checks of zod's
    [.uuid()] and [.datetime()], the value of [crypto.randomUUID()] and the
    two values of [new Date().toISOString()]. *)
Record Env : Type := {
  is_uuid : string -> bool;
  is_datetime : string -> bool;
  fresh_uuid : string;
  now_iso : string;
  now_iso' : string }.

(** [\s+(.+)$] at the start of [s]: the text after the white space, which
    must run to the end without a line terminator.  When only white space
    is left the pattern gives back its last character to the group. *)
Definition spaces_then_rest (s : string) : option string :=
  let '(ws, r) := JS.span JS.is_space s in
  match ws, r with
  | EmptyString, _ => None
  | _, String _ _ =>
      if JS.all_chars (fun c => negb (JS.is_line_terminator c)) r
      then Some r else None
  | String _ ws', EmptyString =>
      match JS.last_char ws' with
      | Some c =>
          if JS.is_line_terminator c then None else Some (String c EmptyString)
      | None => None
      end
  end.

(** [\s+] at the start of [s]: what follows the white space. *)
Definition spaces (s : string) : option string :=
  match JS.span JS.is_space s with
  | (EmptyString, _) => None
  | (_, r) => Some r
  end.

(** The leftmost suffix of [s] on which [f] succeeds. *)
Fixpoint search {A} (f : string -> option A) (s : string) : option A :=
  match f s with
  | Some a => Some a
  | None =>
      match s with
      | String _ s' => search f s'
      | EmptyString => None
      end
  end.

(** [/^#\s+SOP:\s+(.+)$/] *)
Definition title_match (line : string) : option string :=
  s1 ← JS.drop_prefix "#" line;
  s2 ← spaces s1;
  s3 ← JS.drop_prefix "SOP:" s2;
  spaces_then_rest s3.

(** [/>\s+\*\*(\w+)\*\*:\s+(.+)$/] *)
Definition meta_match (line : string) : option (string * string) :=
  search (fun s =>
    s1 ← JS.drop_prefix ">" s;
    s2 ← spaces s1;
    s3 ← JS.drop_prefix "**" s2;
    let '(key, s4) := JS.span JS.is_word_char s3 in
    if String.eqb key "" then None else
    s5 ← JS.drop_prefix "**:" s4;
    v ← spaces_then_rest s5;
    Some (key, v)) line.

(** [/^\d+\.\s+(.+)$/] *)
Definition criterion_match (line : string) : option string :=
  let '(digits, s1) := JS.span JS.is_digit line in
  if String.eqb digits "" then None else
  s2 ← JS.drop_prefix "." s1;
  spaces_then_rest s2.

(** [/Validation:\s+(.+)$/] *)
Definition validation_match (line : string) : option string :=
  search (fun s => s1 ← JS.drop_prefix "Validation:" s; spaces_then_rest s1) line.

(** [/^###\s+Step\s+(\d+):\s+(.+)$/] *)
Definition step_match (line : string) : option (string * string) :=
  s1 ← JS.drop_prefix "###" line;
  s2 ← spaces s1;
  s3 ← JS.drop_prefix "Step" s2;
  s4 ← spaces s3;
  let '(digits, s5) := JS.span JS.is_digit s4 in
  if String.eqb digits "" then None else
  s6 ← JS.drop_prefix ":" s5;
  label ← spaces_then_rest s6;
  Some (digits, label).

(** The [metadata] object. *)
Record Metadata : Type := {
  m_name : option string;
  m_timestamp : option string;
  m_id : option string;
  m_description : option string;
  m_complexity : option string }.

(** The variables of [fromMarkdown] that the loop over the lines updates. *)
Record Parsed : Type := {
  currentSection : option string;
  metadata : Metadata;
  p_steps : list json;
  p_requiredInputs : list RequiredInput;
  p_successCriteria : list Criterion }.

Definition set_section (sec : string) (st : Parsed) : Parsed :=
  {| currentSection := Some sec; metadata := metadata st;
     p_steps := p_steps st; p_requiredInputs := p_requiredInputs st;
     p_successCriteria := p_successCriteria st |}.

Definition set_metadata (m : Metadata) (st : Parsed) : Parsed :=
  {| currentSection := currentSection st; metadata := m;
     p_steps := p_steps st; p_requiredInputs := p_requiredInputs st;
     p_successCriteria := p_successCriteria st |}.

Definition push_step (v : json) (st : Parsed) : Parsed :=
  {| currentSection := currentSection st; metadata := metadata st;
     p_steps := (p_steps st ++ [v])%list;
     p_requiredInputs := p_requiredInputs st;
     p_successCriteria := p_successCriteria st |}.

Definition push_input (i : RequiredInput) (st : Parsed) : Parsed :=
  {| currentSection := currentSection st; metadata := metadata st;
     p_steps := p_steps st;
     p_requiredInputs := (p_requiredInputs st ++ [i])%list;
     p_successCriteria := p_successCriteria st |}.

Definition push_criterion (c : Criterion) (st : Parsed) : Parsed :=
  {| currentSection := currentSection st; metadata := metadata st;
     p_steps := p_steps st; p_requiredInputs := p_requiredInputs st;
     p_successCriteria := (p_successCriteria st ++ [c])%list |}.

(** A metadata line: the four known keys are stored, others ignored. *)
Definition read_meta (line : string) (m : Metadata) : Metadata :=
  match meta_match line with
  | Some (key, v) =>
      if String.eqb key "Generated" then
        {| m_name := m_name m; m_timestamp := Some v; m_id := m_id m;
           m_description := m_description m; m_complexity := m_complexity m |}
      else if String.eqb key "ID" then
        {| m_name := m_name m; m_timestamp := m_timestamp m;
           m_id := Some (JS.remove_char "`" v);
           m_description := m_description m; m_complexity := m_complexity m |}
      else if String.eqb key "Description" then
        {| m_name := m_name m; m_timestamp := m_timestamp m; m_id := m_id m;
           m_description := Some v; m_complexity := m_complexity m |}
      else if String.eqb key "Complexity" then
        {| m_name := m_name m; m_timestamp := m_timestamp m; m_id := m_id m;
           m_description := m_description m; m_complexity := Some v |}
      else m
  | None => m
  end.

(** A table row of the required inputs. *)
Definition read_input (line : string) (st : Parsed) : Parsed :=
  if JS.startsWith "|" line && negb (JS.includes "---" line) then
    let parts :=
      List.filter (fun part => negb (String.eqb part ""))
                  (map JS.trim (JS.split "|" line)) in
    match parts with
    | p0 :: p1 :: p2 :: p3 :: _ =>
        if negb (String.eqb p0 "Field") then
          push_input {| field := p0; type := p1;
                        required := String.eqb p2 "Yes";
                        defaultValue :=
                          if String.eqb p3 "-" then None else Some (JStr p3) |}
                     st
        else st
    | _ => st
    end
  else st.

(** The [while] loop that collects a fenced block: the text up to the
    closing fence, and the lines from that fence on. *)
Fixpoint collect_block (lines : list string) : string * list string :=
  match lines with
  | [] => (EmptyString, [])
  | l :: rest =>
      if String.eqb (JS.trim l) "```" then (EmptyString, lines)
      else let '(body, after) := collect_block rest in
           (l +:+ JSON.newline +:+ body, after)
  end.

(** The [for] loop over the lines from index 1 on; [lines] are the lines
    not yet read.  Every round reads at least one line, so [fuel] need not
    exceed their number. *)
Fixpoint read_lines (fuel : nat) (lines : list string) (st : Parsed) : Parsed :=
  match fuel, lines with
  | S fuel', raw :: rest =>
      let line := JS.trim raw in
      if String.eqb line "" then read_lines fuel' rest st
      else if JS.startsWith ">" line then
        read_lines fuel' rest (set_metadata (read_meta line (metadata st)) st)
      else if JS.startsWith "## " line then
        read_lines fuel' rest
          (set_section (JS.trim (String.substring 3 (String.length line) line)) st)
      else
        let section := default "" (currentSection st) in
        if String.eqb section "Success Criteria" then
          match criterion_match line with
          | Some description_ =>
              let validationLine :=
                match rest with l :: _ => JS.trim l | [] => "" end in
              read_lines fuel' (tail rest)
                (push_criterion
                   {| sc_description := description_;
                      sc_validation :=
                        default "" (validation_match validationLine) |} st)
          | None => read_lines fuel' rest st
          end
        else if String.eqb section "Required Inputs" then
          read_lines fuel' rest (read_input line st)
        else if String.eqb section "Workflow Steps" then
          match step_match line with
          | Some _ => read_lines fuel' rest st
          | None =>
              if String.eqb line "```json" then
                let '(jsonContent, after) := collect_block rest in
                read_lines fuel' (tail after)
                  match JSON.parse jsonContent with
                  | Some stepData => push_step stepData st
                  | None => st
                  end
              else read_lines fuel' rest st
          end
        else read_lines fuel' rest st
  | _, _ => st
  end.

(** The state of the parser once the whole document is read. *)
Definition read_document (markdown : string) : Parsed :=
  let lines := JS.split (ascii_of_nat 10) markdown in
  let start :=
    {| currentSection := None;
       metadata :=
         {| m_name := hd_error lines ≫= title_match;
            m_timestamp := None; m_id := None; m_description := None;
            m_complexity := None |};
       p_steps := []; p_requiredInputs := []; p_successCriteria := [] |} in
  read_lines (length lines) (tail lines) start.

(** The comparator [(a, b) => a.stepNumber - b.stepNumber] is negative. *)
Definition step_before (a b : json) : bool :=
  match JSON.get "stepNumber" a, JSON.get "stepNumber" b with
  | Some (JNum x), Some (JNum y) => (x <? y)%Z
  | _, _ => false
  end.

Fixpoint insert_step (x : json) (sorted : list json) : list json :=
  match sorted with
  | [] => [x]
  | y :: rest =>
      if step_before y x then y :: insert_step x rest else x :: y :: rest
  end.

(** [steps.sort((a, b) => a.stepNumber - b.stepNumber)]: a stable sort by
    step number. *)
Definition sort_steps (l : list json) : list json :=
  fold_right (fun x acc => insert_step x acc) [] l.

(** The error [fromMarkdown] throws: "Invalid workflow structure" followed
    by the issues zod found. *)
Inductive ParseError : Type := InvalidWorkflowStructure (issues : list Zod.Issue).

(** [a || b] on optional strings: an empty string counts as absent. *)
Definition or_else (o : option string) (d : string) : string :=
  if JS.truthy o then default d o else d.

(** The workflow object built from what was read and handed to
    [SOPWorkflowSchema.parse]: every property has its type by construction
    but [id], [timestamp], [steps], [complexity] and the time stamp of the
    critique, which are checked here. *)
Definition build_workflow (env : Env) (st : Parsed) : Zod.Result SOPWorkflow :=
  let m := metadata st in
  let id_ := if JS.truthy (m_id m) then default "" (m_id m) else fresh_uuid env in
  let timestamp_ :=
    if JS.truthy (m_timestamp m) then default "" (m_timestamp m)
    else now_iso env in
  Zod.ap (Zod.ap (Zod.ap (Zod.ap (Zod.ap
    (Zod.pure (fun id_ ts steps_ cx cts =>
       {| w_id := id_;
          name := or_else (m_name m) "Untitled Workflow";
          w_description := or_else (m_description m) "";
          metadataIds := [];
          timestamp := ts;
          steps := steps_;
          requiredInputs := p_requiredInputs st;
          successCriteria := p_successCriteria st;
          estimatedDuration := 0;
          complexity := cx;
          tags := [];
          critique :=
            {| phaseId := PhaseOrchestrate;
               c_timestamp := cts;
               confidence :=
                 {| overall := 1%Q;
                    dimensions := {| completeness := 1%Q; accuracy := 1%Q;
                                     feasibility := 1%Q; coverage := 1%Q |};
                    reasoning := "Parsed from markdown";
                    humanReviewRequired := false |};
               issues := []; autoCorrections := [] |} |}))
    (Zod.string_format (is_uuid env) "uuid" ["id"] (Some (JStr id_))))
    (Zod.string_format (is_datetime env) "datetime" ["timestamp"]
       (Some (JStr timestamp_))))
    (Zod.array_from Zod.SOPStepSchema ["steps"] 0 (sort_steps (p_steps st))))
    (Zod.enum complexity_names ["complexity"]
       (Some (JStr (or_else (m_complexity m) "medium")))))
    (Zod.string_format (is_datetime env) "datetime" ["critique"; "timestamp"]
       (Some (JStr (now_iso' env)))).

Definition fromMarkdown (env : Env) (markdown : string)
  : ParseError + SOPWorkflow :=
  match build_workflow env (read_document markdown) with
  | inr workflow => inr workflow
  | inl issues_ => inl (InvalidWorkflowStructure issues_)
  end.

(** ** [SOPParser.ts]: validation *)


Record ValidationReport : Type := {
  isValid : bool;
  errors : list string }.

(** [stepNumbers.sort((a, b) => a - b)]: ascending numeric order. *)
Definition sort_numbers (l : list Z) : list Z := merge_sort Z.le l.

Definition gap_message (expected found : Z) : string :=
  "Step numbering gap: expected " +:+ pretty expected
  +:+ ", found " +:+ pretty found.

(** The loop over the sorted step numbers, from index [i] on: the first
    number that differs from its index plus one is reported and the loop
    breaks. *)
Fixpoint numbering_errors (i : Z) (stepNumbers : list Z) : list string :=
  match stepNumbers with
  | [] => []
  | n :: rest =>
      if negb (n =? i + 1)%Z then [gap_message (i + 1) n]
      else numbering_errors (i + 1) rest
  end.

(** [if (!workflow.name)] *)
Definition name_errors (workflow : SOPWorkflow) : list string :=
  if String.eqb (name workflow) "" then ["Missing workflow name"] else [].

(** [if (!workflow.steps || workflow.steps.length === 0)] *)
Definition count_errors (workflow : SOPWorkflow) : list string :=
  if (length (steps workflow) =? 0)%nat then ["No steps defined"] else [].

(** The [forEach] over the steps, from index [index] on:
    [if (!step.action)], then [if (!step.description)]. *)
Fixpoint field_errors (index : Z) (l : list SOPStep) : list string :=
  match l with
  | [] => []
  | step :: rest =>
      ((match action step with
        | None => ["Step " +:+ pretty (index + 1) +:+ " missing action"]
        | Some _ => []
        end)
       ++ (if String.eqb (description step) ""
           then ["Step " +:+ pretty (index + 1) +:+ " missing description"]
           else [])
       ++ field_errors (index + 1) rest)%list
  end.

Definition validate (workflow : SOPWorkflow) : ValidationReport :=
  let errors :=
    (name_errors workflow ++ count_errors workflow
     ++ numbering_errors 0 (sort_numbers (map stepNumber (steps workflow)))
     ++ field_errors 0 (steps workflow))%list in
  {| isValid := (length errors =? 0)%nat; errors := errors |}.

(** ** [SOPParser.ts]: merging *)

(** [{ ...step, stepNumber: n }] *)
Definition renumbered (step : SOPStep) (n : Z) : SOPStep :=
  {| stepNumber := n; action := action step; description := description step;
     target := target step; data := data step; validation := validation step;
     errorHandling := errorHandling step |}.

(** One round of the inner [forEach] of [merge]: the state is the counter
    [stepNumber] and the array [allSteps]. *)
Definition push_renumbered (acc : Z * list SOPStep) (step : SOPStep)
  : Z * list SOPStep :=
  (acc.1 + 1, (acc.2 ++ [renumbered step acc.1])%list).

(** The two nested [forEach] loops of [merge]. *)
Definition merge_steps (workflows : list SOPWorkflow) : list SOPStep :=
  (fold_left
     (fun acc workflow => fold_left push_renumbered (steps workflow) acc)
     workflows (1, [])).2.

(** [[...new Set(l)]]: the distinct elements, in the order of their first
    occurrence. *)
Definition distinct (l : list string) : list string :=
  fold_left
    (fun seen t => if bool_decide (t ∈ seen) then seen else (seen ++ [t])%list)
    l [].

Definition merge (env : Env) (workflows : list SOPWorkflow) (name_ : string)
  : SOPWorkflow :=
  {| w_id := fresh_uuid env;
     name := name_;
     w_description :=
       "Merged workflow from " +:+ pretty (length workflows) +:+ " workflows";
     metadataIds := flat_map metadataIds workflows;
     timestamp := now_iso env;
     steps := merge_steps workflows;
     requiredInputs := flat_map requiredInputs workflows;
     successCriteria := flat_map successCriteria workflows;
     estimatedDuration :=
       fold_left (fun sum w => sum + estimatedDuration w) workflows 0;
     complexity := complex;
     tags := distinct (flat_map tags workflows);
     critique :=
       {| phaseId := PhaseOrchestrate;
          c_timestamp := now_iso' env;
          confidence :=
            {| overall := 1%Q;
               dimensions := {| completeness := 1%Q; accuracy := 1%Q;
                                feasibility := 1%Q; coverage := 1%Q |};
               reasoning := "Merged workflow";
               humanReviewRequired := false |};
          issues := []; autoCorrections := [] |} |}.

(** The positions [1, 2, ..., k]. *)
Definition upto (k : nat) : list Z := map Z.of_nat (seq 1 k).

(** Step positions are contiguous from 1: they are 1, ..., n in some order. *)
Definition contiguous (positions : list Z) : Prop :=
  positions ≡ₚ upto (length positions).

(** The blocks the parser reads back from the document written for
    [workflow] are the blocks the formatter wrote, one per step. *)
Definition reads_back_blocks (workflow : SOPWorkflow) : Prop :=
  p_steps (read_document (SOPFormatter.toMarkdown workflow))
    = map SOPFormatter.step_json (steps workflow).

(** An environment whose format checks accept everything. *)
Definition lenient : Env :=
  {| is_uuid := fun _ => true; is_datetime := fun _ => true;
     fresh_uuid := "123e4567-e89b-42d3-a456-426614174000";
     now_iso := "2024-01-02T00:00:00.000Z";
     now_iso' := "2024-01-02T00:00:00.001Z" |}.

Definition open_login : SOPStep :=
  {| stepNumber := 1; action := Some navigate;
     description := "Open the login page";
     target := Some {| t_selector := None;
                       t_url := Some "https://example.com/login";
                       t_value := None |};
     data := None; validation := None; errorHandling := None |}.


(** The same document without its blocks: the headings alone. *)
Definition headings_only : string :=
  JS.join JSON.newline
    [ "# SOP: Login"; "";
      "## Workflow Steps"; "";
      "### Step 1: Press the button"; "";
      "### Step 2: Confirm" ].

(** A workflow whose steps have the given positions. *)
Definition numbered (positions : list Z) : SOPWorkflow :=
  Script.workflow_of (map (fun n => Script.click_step n None) positions).

End SOPParser.

(** * Properties *)

(** ** The executor's monad *)

Section MonadFacts.

Context {S : Type}.

Lemma bind_inr {A B} (m : M S A) (k : A -> M S B) r a r' :
  m r = (inr a, r') -> bind m k r = k a r'.
Proof. unfold bind. intros ->. reflexivity. Qed.

Lemma bind_inl {A B} (m : M S A) (k : A -> M S B) r e r' :
  m r = (inl e, r') -> bind m k r = (inl e, r').
Proof. unfold bind. intros ->. reflexivity. Qed.

Lemma no_throw_ret {A} (a : A) : no_throw (S:=S) (ret a).
Proof. intros r. eexists _, _. reflexivity. Qed.

Lemma no_throw_total {A} (op : S -> A * S) : no_throw (total op).
Proof. intros r. unfold total. destruct (op r). eexists _, _. reflexivity. Qed.

Lemma no_throw_bind {A B} (m : M S A) (k : A -> M S B) :
  no_throw m -> (forall a, no_throw (k a)) -> no_throw (bind m k).
Proof.
  intros Hm Hk r. destruct (Hm r) as (a & r' & E).
  rewrite (bind_inr _ _ _ _ _ E). apply Hk.
Qed.

Lemma no_throw_try_catch {A} (m : M S A) (h : Err -> M S A) :
  (forall e, no_throw (h e)) -> no_throw (try_catch m h).
Proof.
  intros Hh r. unfold try_catch. destruct (m r) as [[e|a] r'].
  - apply Hh.
  - eexists _, _. reflexivity.
Qed.

Lemma no_throw_finally {A} (m : M S A) (c : M S unit) :
  no_throw m -> no_throw c -> no_throw (finally m c).
Proof.
  intros Hm Hc r. unfold finally.
  destruct (Hm r) as (a & r' & ->). destruct (Hc r') as (u & r'' & ->).
  eexists _, _. reflexivity.
Qed.

Lemma returns_ret {A} (P : A -> Prop) (a : A) : P a -> returns (S:=S) P (ret a).
Proof. intros H r a' r' [= <- _]. exact H. Qed.

Lemma returns_bind {A B} (P : B -> Prop) (m : M S A) (k : A -> M S B) :
  (forall a, returns P (k a)) -> returns P (bind m k).
Proof.
  intros Hk r b r'. unfold bind. destruct (m r) as [[e|a] r1]; [discriminate|].
  apply Hk.
Qed.

Lemma returns_bind_with {A B} (Q : A -> Prop) (P : B -> Prop)
    (m : M S A) (k : A -> M S B) :
  returns Q m -> (forall a, Q a -> returns P (k a)) -> returns P (bind m k).
Proof.
  intros Hm Hk r b r'. unfold bind.
  destruct (m r) as [[e|a] r1] eqn:E; [discriminate|].
  apply Hk. eapply Hm, E.
Qed.

Lemma returns_try_catch {A} (P : A -> Prop) (m : M S A) (h : Err -> M S A) :
  returns P m -> (forall e, returns P (h e)) -> returns P (try_catch m h).
Proof.
  intros Hm Hh r a r'. unfold try_catch.
  destruct (m r) as [[e|a'] r1] eqn:E.
  - apply Hh.
  - intros [= <- <-]. eapply Hm, E.
Qed.

End MonadFacts.

(** ** [WorkflowExecutor]: single steps *)

Module ExecFacts.
Section WithSession.

Context {World : Type} (sess : Session World).
Local Open Scope js_scope.
Import Exec.

Local Abbreviation M := (M (Run World)).

Lemma keeps_ret {A} (a : A) : keeps_record (World:=World) (ret a).
Proof. intros r. split; reflexivity. Qed.

Lemma keeps_get : keeps_record (World:=World) get.
Proof. intros r. split; reflexivity. Qed.

Lemma keeps_call {A} (op : World -> (Err + A) * World) : keeps_record (call op).
Proof. intros r. unfold call. destruct (op (world r)). split; reflexivity. Qed.

Lemma keeps_call_total {A} (op : World -> A * World) :
  keeps_record (call_total op).
Proof.
  intros r. unfold call_total. destruct (op (world r)). split; reflexivity.
Qed.

Lemma keeps_set_executionState f :
  keeps_record (World:=World) (set_executionState f).
Proof. intros r. split; reflexivity. Qed.

Lemma keeps_bind {A B} (m : M A) (k : A -> M B) :
  keeps_record m -> (forall a, keeps_record (k a)) -> keeps_record (bind m k).
Proof.
  intros Hm Hk r. unfold bind. specialize (Hm r).
  destruct (m r) as [[e|a] r']; simpl in *; [exact Hm|].
  destruct (Hk a r') as [H1 H2]. destruct Hm as [H3 H4]. split; congruence.
Qed.

Lemma keeps_try_catch {A} (m : M A) (h : Err -> M A) :
  keeps_record m -> (forall e, keeps_record (h e)) ->
  keeps_record (try_catch m h).
Proof.
  intros Hm Hh r. unfold try_catch. specialize (Hm r).
  destruct (m r) as [[e|a] r']; simpl in *; [|exact Hm].
  destruct (Hh e r') as [H1 H2]. destruct Hm as [H3 H4]. split; congruence.
Qed.

Ltac keeps :=
  repeat first
    [ apply keeps_ret | apply keeps_get | apply keeps_call
    | apply keeps_call_total | apply keeps_set_executionState
    | apply keeps_bind; [|intros ?]
    | apply keeps_try_catch; [|intros ?]
    | progress cbv zeta
    | case_match ].

Lemma keeps_validateStep step : keeps_record (validateStep sess step).
Proof. unfold validateStep. keeps. Qed.

Lemma keeps_executeStep step : keeps_record (executeStep sess step).
Proof.
  unfold executeStep, executeNavigate, executeClick, executeInput,
    executeSelect, executeWait, executeVerify, executeScreenshot,
    executeExtract, generateFakerValue, set_variable.
  keeps; try apply keeps_validateStep.
Qed.

(** A step never throws: whatever the session does is caught and reported
    as a failed attempt. *)
Lemma executeStep_no_throw step : no_throw (executeStep sess step).
Proof.
  unfold executeStep. apply no_throw_bind.
  - intros r. eexists _, _. reflexivity.
  - intros r. case_match.
    + apply no_throw_ret.
    + apply no_throw_try_catch. intros e. apply no_throw_ret.
Qed.

Lemma executeStep_attempt step r :
  executeStep sess step r = (inr (attempt sess step r).1, (attempt sess step r).2).
Proof.
  unfold attempt. destruct (executeStep_no_throw step r) as (a & r' & ->).
  reflexivity.
Qed.

Lemma attempt_keeps step r :
  run_stepResults (attempt sess step r).2 = run_stepResults r /\
  currentPage (attempt sess step r).2 = currentPage r.
Proof.
  pose proof (keeps_executeStep step r) as H.
  rewrite executeStep_attempt in H. exact H.
Qed.

Lemma explains_failed e : explains_failure (failed e).
Proof. intros _. split; [eexists|]; reflexivity. Qed.

Lemma explains_ok out : explains_failure (ok out).
Proof. intros [=]. Qed.

Ltac explains :=
  repeat first
    [ apply returns_ret; first [ apply explains_failed | apply explains_ok ]
    | apply returns_bind; intros ?
    | apply returns_try_catch; [|intros ?]
    | progress cbv zeta
    | case_match ].

Lemma validateStep_explains step :
  returns explains_failure (validateStep sess step).
Proof. unfold validateStep. explains. Qed.

Lemma executeStep_explains step :
  returns explains_failure (executeStep sess step).
Proof.
  unfold executeStep, executeNavigate, executeClick, executeInput,
    executeSelect, executeWait, executeVerify, executeScreenshot,
    executeExtract.
  repeat first
    [ apply returns_ret;
      first [ apply explains_failed | apply explains_ok | assumption
            | intros [=] ]
    | eapply returns_bind_with; [apply validateStep_explains | intros ? ?]
    | apply validateStep_explains
    | apply returns_bind; intros ?
    | apply returns_try_catch; [|intros ?]
    | progress cbv zeta
    | case_match ].
Qed.

(** A failed attempt always carries an error text, and never a screenshot. *)
Lemma failed_attempt_explained step r :
  explains_failure (attempt sess step r).1.
Proof.
  eapply executeStep_explains. apply executeStep_attempt.
Qed.

(** ** [WorkflowExecutor]: the step loop *)

Lemma record_attempt_result step r :
  exists r0, (first_attempt sess step r).1 = (attempt sess step r0).1.
Proof.
  unfold first_attempt, record_attempt, bind, call_total, set_stepResults, ret.
  destruct (Date_now sess (world r)) as [t0 w0].
  rewrite executeStep_attempt.
  match goal with |- context [attempt sess step ?x] => exists x end.
  destruct (Date_now sess _) as [t1 w1]. reflexivity.
Qed.

Lemma failed_attempt_explained_first step r :
  sr_success (first_attempt sess step r).1 = false ->
  exists e, sr_error (first_attempt sess step r).1 = Some e.
Proof.
  destruct (record_attempt_result step r) as [r0 ->].
  intros H. apply (failed_attempt_explained step r0 H).
Qed.

Lemma record_attempt_first step r :
  record_attempt sess step r =
    (inr (first_attempt sess step r).1, (first_attempt sess step r).2).
Proof.
  unfold first_attempt, record_attempt, bind, call_total, set_stepResults, ret.
  destruct (Date_now sess (world r)) as [t0 w0].
  rewrite executeStep_attempt.
  destruct (Date_now sess _) as [t1 w1]. reflexivity.
Qed.

Lemma first_attempt_records step r :
  exists o,
    run_stepResults (first_attempt sess step r).2 = (run_stepResults r ++ [o])%list /\
    first_outcome_of step (first_attempt sess step r).1 o /\
    currentPage (first_attempt sess step r).2 = currentPage r.
Proof.
  unfold first_attempt, record_attempt, bind, call_total, set_stepResults, ret.
  destruct (Date_now sess (world r)) as [t0 w0].
  rewrite executeStep_attempt.
  match goal with |- context [attempt sess step ?x] =>
    pose proof (attempt_keeps step x) as [K1 K2];
    destruct (attempt sess step x) as [res r1] end.
  simpl in *.
  destruct (Date_now sess (world r1)) as [t1 w1]. simpl.
  eexists. split; [rewrite K1; reflexivity|]. split; [|exact K2].
  repeat split.
Qed.

Lemma run_steps_cons step rest r :
  run_steps sess (step :: rest) r =
    let res := (first_attempt sess step r).1 in
    let r1 := (first_attempt sess step r).2 in
    if sr_success res then continue_after sess step rest r1
    else match errorHandling step with
         | Some eh =>
             match strategy eh with
             | abort => (inr tt, r1)
             | retry =>
                 match retry_loop sess (Z.to_nat (default 3 (maxRetries eh)))
                         step r1 with
                 | (inr true, r2) => continue_after sess step rest r2
                 | (inr false, r2) => (inr tt, r2)
                 | (inl e, r2) => (inl e, r2)
                 end
             | skip => run_steps sess rest (amend_last mark_skipped r1)
             | fallback => continue_after sess step rest r1
             end
         | None => continue_after sess step rest r1
         end.
Proof.
  cbv zeta.
  unfold first_attempt, record_attempt.
  cbn [run_steps]. fold (continue_after sess step rest).
  unfold bind, call_total, set_stepResults, ret.
  destruct (Date_now sess (world r)) as [t0 w0].
  rewrite executeStep_attempt.
  destruct (attempt sess step _) as [res r1]. cbn [fst snd].
  destruct (Date_now sess (world r1)) as [t1 w1]. cbn [fst snd].
  destruct (sr_success res); cbn [negb]; [reflexivity|].
  destruct (errorHandling step) as [eh|]; [|reflexivity].
  destruct (strategy eh); try reflexivity.
  destruct (retry_loop _ _ _ _) as [[e|[|]] r2]; reflexivity.
Qed.

Lemma update_last_snoc {A} (f : A -> A) (l : list A) (x : A) :
  update_last f (l ++ [x]) = (l ++ [f x])%list.
Proof.
  induction l as [|y l IH]; [reflexivity|].
  cbn [app update_last]. rewrite IH.
  destruct (l ++ [x])%list eqn:E; [|reflexivity].
  destruct l; discriminate.
Qed.

Lemma retry_loop_S n step r :
  retry_loop sess (S n) step r =
    let again := attempt sess step r in
    if sr_success again.1
    then (inr true, amend_last (mark_retried (sr_output again.1)) again.2)
    else retry_loop sess n step again.2.
Proof.
  cbn [retry_loop]. unfold bind. rewrite executeStep_attempt. cbv zeta.
  destruct (sr_success (attempt sess step r).1); reflexivity.
Qed.

Lemma after_attempts_S n step r :
  after_attempts sess (S n) step r =
    after_attempts sess n step (attempt sess step r).2.
Proof.
  unfold after_attempts.
  exact (Nat.iter_succ_r n (fun r' => (attempt sess step r').2) r).
Qed.

Lemma after_attempts_keeps n step r :
  run_stepResults (after_attempts sess n step r) = run_stepResults r /\
  currentPage (after_attempts sess n step r) = currentPage r.
Proof.
  revert r. induction n as [|n IH]; intros r; [split; reflexivity|].
  rewrite after_attempts_S.
  destruct (attempt_keeps step r) as [H1 H2].
  destruct (IH (attempt sess step r).2) as [H3 H4]. split; congruence.
Qed.

(** When every one of the [n] re-attempts fails the loop gives up, having
    changed nothing in the record. *)
Lemma retry_loop_exhausted n step r :
  (forall j, (j < n)%nat -> reattempt_fails sess step r j) ->
  retry_loop sess n step r = (inr false, after_attempts sess n step r).
Proof.
  revert r. induction n as [|n IH]; intros r H; [reflexivity|].
  rewrite retry_loop_S, after_attempts_S. cbv zeta.
  pose proof (H 0%nat ltac:(lia)) as H0. unfold reattempt_fails in H0.
  cbn in H0. rewrite H0. apply IH. intros j Hj.
  specialize (H (S j) ltac:(lia)). unfold reattempt_fails in *.
  rewrite after_attempts_S in H. exact H.
Qed.

(** When re-attempt [k + 1] is the first to succeed the loop stops there and
    rewrites the last recorded outcome. *)
Lemma retry_loop_recovers n k step r :
  (k < n)%nat ->
  (forall j, (j < k)%nat -> reattempt_fails sess step r j) ->
  ~ reattempt_fails sess step r k ->
  let again := attempt sess step (after_attempts sess k step r) in
  retry_loop sess n step r =
    (inr true, amend_last (mark_retried (sr_output again.1)) again.2).
Proof.
  revert k r. induction n as [|n IH]; intros k r Hk Hf Hs; [lia|].
  rewrite retry_loop_S. cbv zeta. destruct k as [|k].
  - unfold reattempt_fails in Hs. cbn in Hs.
    destruct (sr_success (attempt sess step r).1); [reflexivity|congruence].
  - pose proof (Hf 0%nat ltac:(lia)) as H0. unfold reattempt_fails in H0.
    cbn in H0. rewrite H0. rewrite after_attempts_S.
    apply IH; [lia| |].
    + intros j Hj. specialize (Hf (S j) ltac:(lia)).
      unfold reattempt_fails in *. rewrite after_attempts_S in Hf. exact Hf.
    + unfold reattempt_fails in *. rewrite after_attempts_S in Hs. exact Hs.
Qed.

(** The retry loop never throws; it leaves the record alone or rewrites its
    last entry. *)
Lemma retry_loop_returns n step r :
  exists b r',
    retry_loop sess n step r = (inr b, r') /\
    currentPage r' = currentPage r /\
    (run_stepResults r' = run_stepResults r \/
     exists out, run_stepResults r' =
                   update_last (mark_retried out) (run_stepResults r)).
Proof.
  revert r. induction n as [|n IH]; intros r.
  - exists false, r. repeat split. left; reflexivity.
  - rewrite retry_loop_S. cbv zeta.
    destruct (attempt_keeps step r) as [K1 K2].
    destruct (sr_success (attempt sess step r).1).
    + eexists _, _. split; [reflexivity|]. split; [exact K2|].
      right. eexists. cbn. rewrite K1. reflexivity.
    + destruct (IH (attempt sess step r).2) as (b & r' & -> & P & Q).
      exists b, r'. split; [reflexivity|]. split; [congruence|].
      rewrite K1 in Q. exact Q.
Qed.

(** The loop over the steps never throws and only ever appends to the
    record: what was recorded before a step stays as it is. *)
Lemma run_steps_extends todo r :
  exists r' more,
    run_steps sess todo r = (inr tt, r') /\
    run_stepResults r' = (run_stepResults r ++ more)%list /\
    currentPage r' = currentPage r.
Proof.
  revert r. induction todo as [|step rest IH]; intros r.
  - exists r, []. rewrite app_nil_r. repeat split.
  - rewrite run_steps_cons. cbv zeta.
    destruct (first_attempt_records step r) as (o & R & _ & P).
    set (res := (first_attempt sess step r).1) in *.
    set (r1 := (first_attempt sess step r).2) in *.
    assert (Hcont : forall r2 o',
               run_stepResults r2 = (run_stepResults r ++ [o'])%list ->
               currentPage r2 = currentPage r ->
               exists r' more,
                 continue_after sess step rest r2 = (inr tt, r') /\
                 run_stepResults r' = (run_stepResults r ++ more)%list /\
                 currentPage r' = currentPage r).
    { intros r2 o' R2 P2. unfold continue_after, bind, set_currentStepNumber,
        set_executionState.
      match goal with |- context [run_steps sess rest ?x] =>
        destruct (IH x) as (r' & more & E & R' & P') end.
      exists r', (o' :: more). split; [exact E|]. cbn in R', P'.
      rewrite R', R2, <- app_assoc. split; [reflexivity|congruence]. }
    destruct (sr_success res); [eapply Hcont; eassumption|].
    destruct (errorHandling step) as [eh|]; [|eapply Hcont; eassumption].
    destruct (strategy eh).
    + destruct (retry_loop_returns (Z.to_nat (default 3 (maxRetries eh))) step r1)
        as (b & r2 & -> & P2 & Q).
      assert (exists o', run_stepResults r2 = (run_stepResults r ++ [o'])%list)
        as [o' R2].
      { destruct Q as [Q|[out Q]]; rewrite Q, R.
        - eexists; reflexivity.
        - rewrite update_last_snoc. eexists; reflexivity. }
      destruct b.
      * eapply Hcont; [exact R2|congruence].
      * exists r2, [o']. repeat split; [exact R2|congruence].
    + destruct (IH (amend_last mark_skipped r1)) as (r' & more & E & R' & P').
      exists r', (mark_skipped o :: more). split; [exact E|].
      cbn in R', P'. rewrite R', R, update_last_snoc, <- app_assoc.
      split; [reflexivity|congruence].
    + exists r1, [o]. repeat split; [exact R|exact P].
    + eapply Hcont; eassumption.
Qed.

(** [executeStep] does not look at the error-handling policy. *)
Lemma executeStep_with_policy step eh :
  executeStep sess (with_policy step eh) = executeStep sess step.
Proof. destruct step. reflexivity. Qed.

Lemma first_attempt_with_policy step eh r :
  first_attempt sess (with_policy step eh) r = first_attempt sess step r.
Proof.
  unfold first_attempt, record_attempt.
  rewrite executeStep_with_policy. reflexivity.
Qed.

(** A failed step under [abort]: the loop stops with the failure recorded. *)
Lemma abort_halts step eh rest r :
  errorHandling step = Some eh -> strategy eh = abort ->
  sr_success (first_attempt sess step r).1 = false ->
  run_steps sess (step :: rest) r = (inr tt, (first_attempt sess step r).2).
Proof.
  intros Heh Hs Hf. rewrite run_steps_cons. cbv zeta.
  rewrite Hf, Heh, Hs. reflexivity.
Qed.

(** A retried step whose re-attempt [k + 1] is the first to succeed. *)
Lemma retry_recovered step eh rest r k :
  errorHandling step = Some eh -> strategy eh = retry ->
  sr_success (first_attempt sess step r).1 = false ->
  let r1 := (first_attempt sess step r).2 in
  (k < Z.to_nat (default 3%Z (maxRetries eh)))%nat ->
  (forall j, (j < k)%nat -> reattempt_fails sess step r1 j) ->
  ~ reattempt_fails sess step r1 k ->
  let again := attempt sess step (after_attempts sess k step r1) in
  let r2 := amend_last (mark_retried (sr_output again.1)) again.2 in
  run_steps sess (step :: rest) r = continue_after sess step rest r2 /\
  exists o0,
    run_stepResults r1 = (run_stepResults r ++ [o0])%list /\
    first_outcome_of step (first_attempt sess step r).1 o0 /\
    run_stepResults r2 =
      (run_stepResults r ++ [mark_retried (sr_output again.1) o0])%list.
Proof.
  intros Heh Hs Hf r1 Hk Hfail Hok again r2. split.
  - rewrite run_steps_cons. cbv zeta. rewrite Hf, Heh, Hs. fold r1.
    rewrite (retry_loop_recovers _ k step r1 Hk Hfail Hok). reflexivity.
  - destruct (first_attempt_records step r) as (o0 & R & F & _).
    fold r1 in R.
    destruct (attempt_keeps step (after_attempts sess k step r1)) as [K _].
    destruct (after_attempts_keeps k step r1) as [K' _].
    exists o0. split; [exact R|]. split; [exact F|].
    subst r2 again. cbn. rewrite K, K', R, update_last_snoc. reflexivity.
Qed.

(** C3.  A step with policy retry and bound N whose first attempt fails:
    when re-attempt k+1 <= N is the first to succeed, the outcome recorded
    for the step becomes success and the loop goes on with the later steps;
    when all N re-attempts fail the loop stops there, with the very record
    the abort policy leaves and no later step run. *)
Theorem retry_policy step eh rest r :
  errorHandling step = Some eh -> strategy eh = retry ->
  sr_success (first_attempt sess step r).1 = false ->
  let N := Z.to_nat (default 3 (maxRetries eh)) in
  let r1 := (first_attempt sess step r).2 in
  (forall k,
     (k < N)%nat ->
     (forall j, (j < k)%nat -> reattempt_fails sess step r1 j) ->
     ~ reattempt_fails sess step r1 k ->
     let again := attempt sess step (after_attempts sess k step r1) in
     let r2 := amend_last (mark_retried (sr_output again.1)) again.2 in
     run_steps sess (step :: rest) r = continue_after sess step rest r2 /\
     exists o,
       run_stepResults r2 = (run_stepResults r ++ [o])%list /\
       so_stepNumber o = stepNumber step /\ so_status o = StepSuccess)
  /\
  ((forall j, (j < N)%nat -> reattempt_fails sess step r1 j) ->
   let r2 := after_attempts sess N step r1 in
   run_steps sess (step :: rest) r = (inr tt, r2) /\
   run_stepResults r2 = run_stepResults r1 /\
   forall eh',
     strategy eh' = abort ->
     run_steps sess (with_policy step (Some eh') :: rest) r = (inr tt, r1)).
Proof.
  intros Heh Hs Hf N r1. split.
  - intros k Hk Hfail Hok again r2.
    destruct (retry_recovered step eh rest r k Heh Hs Hf Hk Hfail Hok)
      as (E & o0 & _ & (E1 & _) & R2).
    split; [exact E|].
    exists (mark_retried (sr_output again.1) o0). repeat split; assumption.
  - intros Hall r2. split; [|split].
    + rewrite run_steps_cons. cbv zeta. rewrite Hf, Heh, Hs.
      fold N. fold r1. rewrite (retry_loop_exhausted N step r1 Hall). reflexivity.
    + apply after_attempts_keeps.
    + intros eh' Hab.
      rewrite (abort_halts (with_policy step (Some eh')) eh' rest r);
        rewrite ?first_attempt_with_policy; auto.
Qed.

(** C4 as amended.  A failed step under [fallback] is left recorded as a
    failure and the loop goes on with the next step in sequence, exactly as
    for a step that has no error-handling policy; no jump is made. *)
Theorem fallback_continues step eh rest r :
  errorHandling step = Some eh -> strategy eh = fallback ->
  sr_success (first_attempt sess step r).1 = false ->
  let r1 := (first_attempt sess step r).2 in
  run_steps sess (step :: rest) r = continue_after sess step rest r1 /\
  run_steps sess (with_policy step None :: rest) r
    = continue_after sess step rest r1 /\
  exists o,
    run_stepResults r1 = (run_stepResults r ++ [o])%list /\
    so_stepNumber o = stepNumber step /\ so_status o = StepFailure.
Proof.
  intros Heh Hs Hf r1. split; [|split].
  - rewrite run_steps_cons. cbv zeta. rewrite Hf, Heh, Hs. reflexivity.
  - rewrite run_steps_cons. cbv zeta.
    rewrite first_attempt_with_policy, Hf. reflexivity.
  - destruct (first_attempt_records step r) as (o & R & (E1 & E2 & _) & _).
    exists o. rewrite Hf in E2. auto.
Qed.

(** C10.  When a retried step recovers, only the status and the output of
    its recorded outcome are rewritten: step number, duration, error text
    and screenshot reference stay those of the failed first attempt, so the
    outcome reads success and still carries an error text; the later steps
    leave it in the record. *)
Theorem retry_success_keeps_error step eh rest r k :
  errorHandling step = Some eh -> strategy eh = retry ->
  sr_success (first_attempt sess step r).1 = false ->
  let r1 := (first_attempt sess step r).2 in
  (k < Z.to_nat (default 3%Z (maxRetries eh)))%nat ->
  (forall j, (j < k)%nat -> reattempt_fails sess step r1 j) ->
  ~ reattempt_fails sess step r1 k ->
  exists o0 r' more,
    run_stepResults r1 = (run_stepResults r ++ [o0])%list /\
    first_outcome_of step (first_attempt sess step r).1 o0 /\
    run_steps sess (step :: rest) r = (inr tt, r') /\
    let again := attempt sess step (after_attempts sess k step r1) in
    let o := mark_retried (sr_output again.1) o0 in
    run_stepResults r' = (run_stepResults r ++ o :: more)%list /\
    so_status o = StepSuccess /\
    so_output o = sr_output again.1 /\
    so_stepNumber o = so_stepNumber o0 /\
    so_duration o = so_duration o0 /\
    so_error o = sr_error (first_attempt sess step r).1 /\
    so_screenshot o = sr_screenshot (first_attempt sess step r).1 /\
    exists e, so_error o = Some e.
Proof.
  intros Heh Hs Hf r1 Hk Hfail Hok.
  destruct (retry_recovered step eh rest r k Heh Hs Hf Hk Hfail Hok)
    as (E & o0 & R & F & R2). fold r1 in R.
  set (again := attempt sess step (after_attempts sess k step r1)) in *.
  set (r2 := amend_last (mark_retried (sr_output again.1)) again.2) in *.
  unfold continue_after, bind, set_currentStepNumber, set_executionState in E.
  match type of E with context [run_steps sess rest ?x] =>
    destruct (run_steps_extends rest x) as (r' & more & E' & R' & _) end.
  rewrite E' in E. cbn [run_stepResults] in R'.
  change (run_stepResults r' = (run_stepResults r2 ++ more)%list) in R'.
  unfold r2, again, r1 in R'. rewrite R2, <- app_assoc in R'.
  exists o0, r', more. split; [exact R|]. split; [exact F|].
  split; [exact E|]. cbv zeta. split; [exact R'|].
  destruct F as (_ & _ & _ & F4 & F5).
  repeat split; try assumption.
  cbn. rewrite F4.
  pose proof (failed_attempt_explained_first step r Hf) as [e He].
  exists e. exact He.
Qed.

(** ** [WorkflowExecutor.executeWorkflow] *)

Lemma call_total_no_throw {A} (op : World -> A * World) :
  no_throw (call_total op).
Proof.
  intros r. unfold call_total. destruct (op (world r)). eexists _, _. reflexivity.
Qed.

Lemma get_no_throw : no_throw (get (World:=World)).
Proof. intros r. eexists _, _. reflexivity. Qed.

Lemma cleanup_no_throw : no_throw (cleanup sess).
Proof.
  unfold cleanup. apply no_throw_bind; [apply get_no_throw|]. intros r.
  destruct (currentPage r); [|apply no_throw_ret].
  apply no_throw_bind.
  - apply no_throw_try_catch. intros e. apply no_throw_ret.
  - intros _ r'. eexists _, _. reflexivity.
Qed.

Lemma executeWorkflow_catch_result wf t0 e r :
  exists d rid ts cts r',
    executeWorkflow_catch sess wf t0 e r =
      (inr (caught_result wf (executionState r) (run_stepResults r)
              d rid ts cts e), r').
Proof.
  unfold executeWorkflow_catch, bind, call_total, get, ret.
  destruct (Date_now sess (world r)) as [t1 w1]. cbn.
  destruct (randomUUID sess w1) as [rid w2]. cbn.
  destruct (Date_iso sess w2) as [ts w3]. cbn.
  destruct (Date_iso sess w3) as [cts w4]. cbn.
  eexists _, _, _, _, _. reflexivity.
Qed.

(** [executeWorkflow] never throws. *)
Lemma executeWorkflow_no_throw wf ui : no_throw (executeWorkflow sess wf ui).
Proof.
  unfold executeWorkflow.
  apply no_throw_bind; [apply call_total_no_throw|]. intros t0.
  apply no_throw_bind; [intros r; eexists _, _; reflexivity|]. intros _.
  apply no_throw_finally; [|apply cleanup_no_throw].
  apply no_throw_try_catch. intros e r.
  destruct (executeWorkflow_catch_result wf t0 e r) as (d & rid & ts & cts & r' & E).
  eexists _, _. exact E.
Qed.

(** What [executeWorkflow] returns is what its [try] block returns or, when
    that throws, what its [catch] block returns. *)
Lemma executeWorkflow_cases wf ui r :
  let t0 := (Date_now sess (world r)).1 in
  exists res r',
    executeWorkflow sess wf ui r = (inr res, r') /\
    match executeWorkflow_try sess wf ui t0 (entering sess r) with
    | (inr res', _) => res = res'
    | (inl e, r1) =>
        exists d rid ts cts,
          res = caught_result wf (executionState r1) (run_stepResults r1)
                  d rid ts cts e
    end.
Proof.
  cbv zeta. unfold executeWorkflow, entering, bind at 1, call_total.
  destruct (Date_now sess (world r)) as [t0 w0]. cbn [fst snd].
  unfold bind at 1, set_stepResults. cbn [world currentPage executionState].
  unfold finally, try_catch.
  destruct (executeWorkflow_try sess wf ui t0 _) as [[e|res] r1].
  - destruct (executeWorkflow_catch_result wf t0 e r1)
      as (d & rid & ts & cts & r2 & ->).
    destruct (cleanup_no_throw r2) as (u & r3 & ->).
    eexists _, _. split; [reflexivity|]. eexists _, _, _, _. reflexivity.
  - destruct (cleanup_no_throw r1) as (u & r3 & ->).
    eexists _, _. split; reflexivity.
Qed.

Lemma is_success_true o : is_success o = true <-> so_status o = StepSuccess.
Proof. unfold is_success. destruct (so_status o); split; congruence. Qed.

Lemma is_failure_true o : is_failure o = true <-> so_status o = StepFailure.
Proof. unfold is_failure. destruct (so_status o); split; congruence. Qed.

Lemma normal_result_status wf es results d rid ts cts :
  status_follows_outcomes (normal_result wf es results d rid ts cts).
Proof.
  unfold status_follows_outcomes. cbn [status stepResults normal_result].
  assert (HA : forallb is_success results = true <->
               forall o, In o results -> so_status o = StepSuccess).
  { rewrite forallb_forall. split; intros H o Ho; apply is_success_true, H, Ho. }
  assert (HE : existsb is_failure results = true <->
               exists o, In o results /\ so_status o = StepFailure).
  { rewrite existsb_exists. split; intros (o & Ho & H); exists o;
      (split; [exact Ho|apply is_failure_true, H]). }
  assert (HX : (forall o, In o results -> so_status o = StepSuccess) ->
               ~ exists o, In o results /\ so_status o = StepFailure).
  { intros H (o & Ho & Hf). rewrite (H o Ho) in Hf. discriminate. }
  destruct (forallb is_success results) eqn:EA;
    destruct (existsb is_failure results) eqn:EE;
    repeat split; try discriminate; try tauto; intros;
    try (exfalso; intuition congruence); intuition (try congruence).
Qed.

Lemma try_returns wf ui t0 r0 w1 w2 :
  pw_initialize sess (world r0) = (inr tt, w1) ->
  pw_newPage sess w1 = (inr tt, w2) ->
  exists es results d rid ts cts r',
    executeWorkflow_try sess wf ui t0 r0 =
      (inr (normal_result wf es results d rid ts cts), r').
Proof.
  intros H1 H2. unfold executeWorkflow_try.
  unfold bind at 1, call. rewrite H1. cbn [world].
  unfold bind at 1, call. cbn [world]. rewrite H2.
  unfold bind at 1, set_currentPage. unfold bind at 1, set_executionState.
  unfold bind at 1.
  match goal with |- context [run_steps sess (steps wf) ?x] =>
    destruct (run_steps_extends (steps wf) x) as (r1 & more & -> & _) end.
  unfold bind, call_total, get, ret.
  destruct (Date_now sess (world r1)) as [t1 w3]. cbn.
  destruct (randomUUID sess w3) as [rid w4]. cbn.
  destruct (Date_iso sess w4) as [ts w5]. cbn.
  destruct (Date_iso sess w5) as [cts w6]. cbn.
  eexists _, _, _, _, _, _, _. reflexivity.
Qed.

Lemma try_throws_at_initialize wf ui t0 r0 e w1 :
  pw_initialize sess (world r0) = (inl e, w1) ->
  exists r1,
    executeWorkflow_try sess wf ui t0 r0 = (inl e, r1) /\
    run_stepResults r1 = run_stepResults r0.
Proof.
  intros H1. unfold executeWorkflow_try. unfold bind at 1, call. rewrite H1.
  eexists. split; reflexivity.
Qed.

Lemma try_throws_at_newPage wf ui t0 r0 e w1 w2 :
  pw_initialize sess (world r0) = (inr tt, w1) ->
  pw_newPage sess w1 = (inl e, w2) ->
  exists r1,
    executeWorkflow_try sess wf ui t0 r0 = (inl e, r1) /\
    run_stepResults r1 = run_stepResults r0.
Proof.
  intros H1 H2. unfold executeWorkflow_try. unfold bind at 1, call. rewrite H1.
  cbn [world]. unfold bind at 1, call. cbn [world]. rewrite H2.
  eexists. split; reflexivity.
Qed.

(** The [try] block throws exactly when the session does not start, and then
    nothing has been recorded. *)
Lemma try_outcome wf ui t0 r :
  (session_starts sess r /\
   exists es results d rid ts cts r',
     executeWorkflow_try sess wf ui t0 (entering sess r) =
       (inr (normal_result wf es results d rid ts cts), r'))
  \/
  (~ session_starts sess r /\
   exists e r1,
     executeWorkflow_try sess wf ui t0 (entering sess r) = (inl e, r1) /\
     run_stepResults r1 = []).
Proof.
  destruct (pw_initialize sess (world (entering sess r))) as [[e|[]] w1] eqn:H1.
  - right. split.
    + intros (w1' & w2' & H & _). congruence.
    + destruct (try_throws_at_initialize wf ui t0 _ e w1 H1) as (r1 & E & R).
      exists e, r1. split; [exact E|exact R].
  - destruct (pw_newPage sess w1) as [[e|[]] w2] eqn:H2.
    + right. split.
      * intros (w1' & w2' & H & H'). assert (w1' = w1) by congruence. subst.
        congruence.
      * destruct (try_throws_at_newPage wf ui t0 _ e w1 w2 H1 H2) as (r1 & E & R).
        exists e, r1. split; [exact E|exact R].
    + left. split; [exists w1, w2; split; assumption|].
      apply (try_returns wf ui t0 _ w1 w2 H1 H2).
Qed.

(** C1 as amended.  [executeWorkflow] always returns a result.  When the
    browser session starts (no run-level exception), its status is success
    iff every recorded outcome is a success, failure iff some recorded
    outcome is a failure, and partial otherwise.  When the session does not
    start, the status is failure although no outcome is recorded. *)
Theorem status_derivation wf ui r :
  exists res r',
    executeWorkflow sess wf ui r = (inr res, r') /\
    ((session_starts sess r /\ status_follows_outcomes res) \/
     (~ session_starts sess r /\ status res = failure /\ stepResults res = [])).
Proof.
  destruct (executeWorkflow_cases wf ui r) as (res & r' & E & C). cbv zeta in C.
  exists res, r'. split; [exact E|].
  destruct (try_outcome wf ui (Date_now sess (world r)).1 r)
    as [(S & es & results & d & rid & ts & cts & r1 & T)
       |(S & e & r1 & T & R)];
    rewrite T in C.
  - left. split; [exact S|]. subst res. apply normal_result_status.
  - right. split; [exact S|].
    destruct C as (d & rid & ts & cts & ->). cbn. rewrite R. split; reflexivity.
Qed.

(** C5 as amended.  [executeWorkflow] never throws: it always returns a
    result, and when its [try] block throws an error the result has status
    failure, logs the message, carries one critical issue and a critique of
    overall confidence 0.1 (completeness, accuracy and coverage 0,
    feasibility 0.5) that asks for human review. *)
Theorem run_level_fault_is_caught wf ui r :
  exists res r',
    executeWorkflow sess wf ui r = (inr res, r') /\
    forall e r1,
      executeWorkflow_try sess wf ui (Date_now sess (world r)).1
        (entering sess r) = (inl e, r1) ->
      caught_critique res e /\ stepResults res = run_stepResults r1.
Proof.
  destruct (executeWorkflow_cases wf ui r) as (res & r' & E & C). cbv zeta in C.
  exists res, r'. split; [exact E|]. intros e r1 T. rewrite T in C.
  destruct C as (d & rid & ts & cts & ->). repeat split.
Qed.

(** ** [ExecuteAgent.executeBatch] *)

Lemma batch_failure_result wf e w :
  exists res w',
    Agent.batch_failure sess wf e w = (inr res, w') /\
    Agent.batch_critique res e.
Proof.
  unfold Agent.batch_failure, bind, total, ret.
  destruct (randomUUID sess w) as [rid w1]. cbn.
  destruct (randomUUID sess w1) as [sid w2]. cbn.
  destruct (Date_iso sess w2) as [ts w3]. cbn.
  destruct (randomUUID sess w3) as [fid w4]. cbn.
  destruct (Date_iso sess w4) as [fts w5]. cbn.
  destruct (Date_iso sess w5) as [cts w6]. cbn.
  eexists _, _. split; [reflexivity|]. repeat split.
Qed.

(** The batch runner never throws: a workflow whose [execute] throws (its
    results could not be saved) contributes a synthetic failure of zero
    confidence. *)
Lemma executeBatch_no_throw wfs uim :
  no_throw (Agent.executeBatch sess wfs uim).
Proof.
  unfold Agent.executeBatch. generalize (@nil ExecutionResult).
  induction wfs as [|wf rest IH]; intros acc; cbn [Agent.executeBatch_loop].
  - apply no_throw_ret.
  - apply no_throw_bind; [|intros res; apply IH].
    apply no_throw_try_catch. intros e w.
    destruct (batch_failure_result wf e w) as (res & w' & -> & _).
    eexists _, _. reflexivity.
Qed.

End WithSession.
End ExecFacts.

(** ** The executor on scripted sessions *)

Module ExecExamples.
Import Exec Script.

(** C1, counterexample.  The browser fails to launch: no outcome is
    recorded, so every recorded outcome is a success and none is a failure,
    and yet the status is failure. *)
Lemma status_not_from_outcomes_on_fault :
  exists res,
    run (workflow_of [click_step 1 None]) [false] = Some res /\
    stepResults res = [] /\
    status res = failure /\
    ~ status_follows_outcomes res.
Proof.
  eexists. split; [vm_compute; reflexivity|].
  split; [reflexivity|]. split; [reflexivity|].
  intros [H _]. cbn in H. destruct H as [_ H].
  discriminate H. intros o [].
Qed.

(** C5, counterexample.  The result built for a caught run-level fault
    has confidence 0.1 and feasibility 0.5, not zero. *)
Lemma caught_fault_confidence_is_not_zero :
  exists res,
    run (workflow_of [click_step 1 None]) [false] = Some res /\
    status res = failure /\
    map severity (issues (r_critique res)) = [critical] /\
    ~ (overall (confidence (r_critique res)) == 0)%Q /\
    ~ (feasibility (dimensions (confidence (r_critique res))) == 0)%Q.
Proof.
  eexists. split; [vm_compute; reflexivity|].
  repeat split; intros H; discriminate H.
Qed.

(** C4, counterexample.  Step 1 fails under [fallback] and step 2 is run
    all the same; under [abort] it is not. *)
Lemma fallback_does_not_halt :
  let wf s := workflow_of [click_step 1 (policy s None); click_step 2 None] in
  let script := [true; true; false; true] in
  exists res_fallback res_abort,
    run (wf fallback) script = Some res_fallback /\
    run (wf abort) script = Some res_abort /\
    map (fun o => (so_stepNumber o, so_status o)) (stepResults res_fallback)
      = [(1, StepFailure); (2, StepSuccess)] /\
    map (fun o => (so_stepNumber o, so_status o)) (stepResults res_abort)
      = [(1, StepFailure)].
Proof.
  cbv zeta. eexists _, _.
  split; [vm_compute; reflexivity|]. split; [vm_compute; reflexivity|].
  split; reflexivity.
Qed.

(** C3, witness.  Step 1 fails, its first re-attempt succeeds, step 2 runs. *)
Lemma retry_policy_witness :
  let eh := {| strategy := retry; maxRetries := Some 2;
               fallbackStepNumber := None |} in
  let step := click_step 1 (Some eh) in
  let rest := [click_step 2 None] in
  let r := running [false; true] in
  (errorHandling step = Some eh /\ strategy eh = retry /\
   sr_success (first_attempt session step r).1 = false) /\
  exists r',
    run_steps session (step :: rest) r = (inr tt, r') /\
    map (fun o => (so_stepNumber o, so_status o)) (run_stepResults r')
      = [(1, StepSuccess); (2, StepSuccess)].
Proof.
  cbv zeta. split; [repeat split|].
  destruct (ExecFacts.retry_policy session
              (click_step 1 (policy retry (Some 2)))
              {| strategy := retry; maxRetries := Some 2;
                 fallbackStepNumber := None |}
              [click_step 2 None] (running [false; true])
              eq_refl eq_refl eq_refl) as [H _].
  destruct (H 0%nat) as [E _].
  - vm_compute. constructor. constructor.
  - intros j Hj. inversion Hj.
  - vm_compute. discriminate.
  - eexists. split; [etransitivity; [exact E|vm_compute; reflexivity]|].
    reflexivity.
Defined.

(** C4, witness.  Step 1 fails under [fallback]; step 2 runs. *)
Lemma fallback_continues_witness :
  let eh := {| strategy := fallback; maxRetries := None;
               fallbackStepNumber := Some 5 |} in
  let step := click_step 1 (Some eh) in
  let rest := [click_step 2 None] in
  let r := running [false; true] in
  (errorHandling step = Some eh /\ strategy eh = fallback /\
   sr_success (first_attempt session step r).1 = false) /\
  exists r',
    run_steps session (step :: rest) r = (inr tt, r') /\
    map (fun o => (so_stepNumber o, so_status o)) (run_stepResults r')
      = [(1, StepFailure); (2, StepSuccess)].
Proof.
  cbv zeta. split; [repeat split|].
  destruct (ExecFacts.fallback_continues session
              (click_step 1 (Some {| strategy := fallback; maxRetries := None;
                                     fallbackStepNumber := Some 5 |}))
              {| strategy := fallback; maxRetries := None;
                 fallbackStepNumber := Some 5 |}
              [click_step 2 None] (running [false; true])
              eq_refl eq_refl eq_refl) as [E _].
  eexists. split; [etransitivity; [exact E|vm_compute; reflexivity]|].
    reflexivity.
Defined.

(** C10, witness.  The recovered step reads success and keeps the error
    text of its failed first attempt. *)
Lemma retry_success_keeps_error_witness :
  let eh := {| strategy := retry; maxRetries := Some 2;
               fallbackStepNumber := None |} in
  let step := click_step 1 (Some eh) in
  let rest := [click_step 2 None] in
  let r := running [false; true] in
  (errorHandling step = Some eh /\ strategy eh = retry /\
   sr_success (first_attempt session step r).1 = false) /\
  exists r',
    run_steps session (step :: rest) r = (inr tt, r') /\
    map (fun o => (so_status o, so_error o)) (run_stepResults r')
      = [(StepSuccess, Some "scripted failure"); (StepSuccess, None)].
Proof.
  cbv zeta. split; [repeat split|].
  destruct (ExecFacts.retry_success_keeps_error session
              (click_step 1 (policy retry (Some 2)))
              {| strategy := retry; maxRetries := Some 2;
                 fallbackStepNumber := None |}
              [click_step 2 None] (running [false; true]) 0%nat
              eq_refl eq_refl eq_refl)
    as (o0 & r' & more & _ & _ & E & _).
  - vm_compute. constructor. constructor.
  - intros j Hj. inversion Hj.
  - vm_compute. discriminate.
  - exists r'. split; [exact E|].
    vm_compute in E. injection E as <-. reflexivity.
Defined.

(** C5, witness.  The browser fails to launch. *)
Lemma run_level_fault_is_caught_witness :
  let wf := workflow_of [click_step 1 None] in
  exists res r',
    executeWorkflow session wf None (fresh [false]) = (inr res, r') /\
    caught_critique res "scripted failure" /\ stepResults res = [].
Proof.
  cbv zeta.
  destruct (ExecFacts.run_level_fault_is_caught session
              (workflow_of [click_step 1 None]) None (fresh [false]))
    as (res & r' & E & H).
  exists res, r'. split; [exact E|].
  apply (H "scripted failure" (mkRun [] false (executionState (fresh [])) [])).
  vm_compute. reflexivity.
Defined.

(** The whole run of the first example: the result counts as a success and
    one of its successful outcomes carries an error text. *)
Example recovered_run :
  let wf := workflow_of [click_step 1 (policy retry (Some 2)); click_step 2 None] in
  exists res,
    run wf [true; true; false; true] = Some res /\
    status res = success /\
    map (fun o => (so_status o, so_error o)) (stepResults res)
      = [(StepSuccess, Some "scripted failure"); (StepSuccess, None)] /\
    map i_description (issues (r_critique res))
      = ["Step 1 failed: scripted failure"].
Proof.
  cbv zeta. eexists. split; [vm_compute; reflexivity|]. repeat split.
Qed.

(** Retries exhausted: the run stops at step 1, as under [abort]. *)
Example exhausted_run :
  let wf s := workflow_of [click_step 1 (policy s (Some 2)); click_step 2 None] in
  let script := [true; true; false; false; false; true] in
  exists res_retry res_abort,
    run (wf retry) script = Some res_retry /\
    run (wf abort) script = Some res_abort /\
    stepResults res_retry = stepResults res_abort /\
    status res_retry = failure /\
    map so_stepNumber (stepResults res_retry) = [1].
Proof.
  cbv zeta. eexists _, _.
  split; [vm_compute; reflexivity|]. split; [vm_compute; reflexivity|].
  repeat split.
Qed.

(** [ExecuteAgent.execute] is not protected: when saving the result fails,
    the error leaves it. *)
Example execute_can_throw :
  (Agent.execute session (workflow_of [click_step 1 None]) None
     [true; true; true; true; false]).1
    = inl "scripted failure".
Proof. vm_compute. reflexivity. Qed.

(** [executeBatch] catches that error and records a failure of zero
    confidence for the workflow. *)
Example batch_catches_execute :
  exists res w,
    Agent.executeBatch session [workflow_of [click_step 1 None]] None
      [true; true; true; true; false] = (inr [res], w) /\
    Agent.batch_critique res "scripted failure".
Proof. eexists _, _. split; [vm_compute; reflexivity|]. repeat split. Qed.

End ExecExamples.

(** ** [ConfidenceCalculator] *)

Module CalculatorFacts.
Import ConfidenceCalculator.
Local Open Scope Q_scope.

Lemma Qltb_lt a b : Qltb a b = true <-> a < b.
Proof.
  unfold Qltb. rewrite negb_true_iff. split.
  - intros H. apply Qnot_le_lt. intros Hle. apply Qle_bool_iff in Hle. congruence.
  - intros H. destruct (Qle_bool b a) eqn:E; [|reflexivity].
    apply Qle_bool_iff in E. exfalso. apply (Qlt_not_le _ _ H E).
Qed.

Lemma Qltb_ge a b : Qltb a b = false <-> b <= a.
Proof.
  unfold Qltb. rewrite negb_false_iff. apply Qle_bool_iff.
Qed.

Lemma check_range_None scores :
  check_range scores = None <-> Forall (fun score => 0 <= score <= 1) scores.
Proof.
  induction scores as [|score rest IH]; cbn [check_range].
  - split; [constructor|reflexivity].
  - destruct (Qltb score 0) eqn:E0; cbn [orb].
    + apply Qltb_lt in E0. split; [discriminate|].
      intros H. inversion H; subst. exfalso. lra.
    + apply Qltb_ge in E0. destruct (Qltb 1 score) eqn:E1.
      * apply Qltb_lt in E1. split; [discriminate|].
        intros H. inversion H; subst. exfalso. lra.
      * apply Qltb_ge in E1. rewrite IH. split.
        -- intros H. constructor; [split; assumption|exact H].
        -- intros H. inversion H; assumption.
Qed.

(** [Math.round] picks the integer within a half of its argument. *)
Lemma Math_round_spec x :
  x - (1 # 2) < inject_Z (Math_round x) /\ inject_Z (Math_round x) <= x + (1 # 2).
Proof.
  unfold Math_round.
  pose proof (Qfloor_le (x + (1 # 2))) as H1.
  pose proof (Qlt_floor (x + (1 # 2))) as H2.
  rewrite inject_Z_plus in H2. change (inject_Z 1) with 1 in H2.
  split; lra.
Qed.

Lemma calculate_in_range dims why th :
  in_range dims ->
  calculate dims why th =
    inr {| overall := inject_Z (Math_round (weighted_sum dims * 1000)) / 1000;
           dimensions := dims;
           reasoning := why;
           humanReviewRequired :=
             Qltb (weighted_sum dims) (default 0.6 th)
             || Qltb (accuracy dims) 0.5 || Qltb (feasibility dims) 0.5 |}.
Proof.
  intros H. unfold calculate. apply check_range_None in H. rewrite H. reflexivity.
Qed.

End CalculatorFacts.

(** ** [ConfidenceCalculator.calculate] on binary64 numbers *)

Module Calculator64Facts.
Import SpecFloat Binary64 ConfidenceCalculator64.

(** *** Signs *)

Lemma shr_1_nonneg mrs : 0 <= shr_m mrs -> 0 <= shr_m (shr_1 mrs).
Proof.
  destruct mrs as [m r s]. destruct m as [|p|p]; cbn; try lia;
    destruct p; cbn; lia.
Qed.

Lemma iter_shr_1_nonneg p mrs :
  0 <= shr_m mrs -> 0 <= shr_m (iter_pos shr_1 p mrs).
Proof.
  revert mrs. induction p as [p IH|p IH|]; intros mrs H; cbn.
  - apply IH, IH, shr_1_nonneg, H.
  - apply IH, IH, H.
  - apply shr_1_nonneg, H.
Qed.

Lemma shr_fexp_nonneg m e l :
  0 <= m -> 0 <= shr_m (shr_fexp prec emax m e l).1.
Proof.
  intros H. unfold shr_fexp, shr.
  assert (K : 0 <= shr_m (shr_record_of_loc m l)).
  { destruct l as [|[]]; exact H. }
  destruct (fexp prec emax (Zdigits2 m + e) - e) as [|p|p]; cbn [fst];
    [exact K|apply iter_shr_1_nonneg, K|exact K].
Qed.

Lemma round_nearest_even_nonneg m l : 0 <= m -> 0 <= round_nearest_even m l.
Proof.
  intros H. unfold round_nearest_even.
  destruct l as [|[]]; [lia| |lia|lia]. destruct (Z.even m); lia.
Qed.

(** Rounding a magnitude keeps the sign it is given. *)
Lemma binary_round_aux_sign m e l :
  0 <= m -> nonnegative (binary_round_aux prec emax false m e l).
Proof.
  intros H. unfold binary_round_aux.
  pose proof (shr_fexp_nonneg m e l H) as H1.
  destruct (shr_fexp prec emax m e l) as [mrs' e'].
  cbn [fst] in H1.
  pose proof (shr_fexp_nonneg
                (round_nearest_even (shr_m mrs') (loc_of_shr_record mrs'))
                e' loc_Exact (round_nearest_even_nonneg _ _ H1)) as H2.
  destruct (shr_fexp prec emax _ e' loc_Exact) as [mrs'' e''].
  cbn [fst] in H2.
  destruct (shr_m mrs'') as [|p|p]; [exact I| |lia].
  destruct (e'' <=? emax - prec)%Z; reflexivity.
Qed.

Lemma binary_round_sign m e : nonnegative (binary_round prec emax false m e).
Proof.
  unfold binary_round.
  destruct (shl_align m e _) as [mz ez]. apply binary_round_aux_sign. lia.
Qed.

Lemma of_Z_nonnegative n : 0 <= n -> nonnegative (of_Z n).
Proof.
  intros H. unfold of_Z, binary_normalize.
  destruct n as [|p|p]; [exact I|apply binary_round_sign|lia].
Qed.

Lemma mul_nonnegative x m e :
  nonnegative x -> nonnegative (mul x (S754_finite false m e)).
Proof.
  destruct x as [s|s| |s mx ex]; cbn; intros H; try exact I; try contradiction.
  - rewrite H. reflexivity.
  - rewrite H. apply binary_round_aux_sign. lia.
Qed.

Lemma add_nonnegative x y :
  nonnegative x -> nonnegative y -> nonnegative (add x y).
Proof.
  destruct x as [sx|sx| |sx mx ex], y as [sy|sy| |sy my ey]; cbn;
    intros Hx Hy; try contradiction; subst; try exact I; try reflexivity.
  - destruct sx, sy; exact I.
  - unfold binary_normalize. cbn [cond_Zopp].
    destruct (shl_align mx ex (Z.min ex ey)) as [a ?].
    destruct (shl_align my ey (Z.min ex ey)) as [b ?]. cbn [fst].
    change (Z.pos a + Z.pos b) with (Z.pos (a + b)). apply binary_round_sign.
Qed.

Lemma div_eucl_nonneg a b : 0 <= a -> 0 < b -> 0 <= (Z.div_eucl a b).1.
Proof.
  intros Ha Hb. change (Z.div_eucl a b).1 with (a / b). apply Z.div_pos; lia.
Qed.

Lemma div_nonnegative x m e :
  nonnegative x -> nonnegative (div x (S754_finite false m e)).
Proof.
  destruct x as [s|s| |s mx ex]; cbn; intros H; try exact I; try contradiction.
  - rewrite H. reflexivity.
  - rewrite H. cbn [xorb]. unfold SFdiv_core_binary.
    set (s' := _ - _ - _).
    set (m' := match s' with Z.pos _ => _ | 0 => _ | Z.neg _ => _ end).
    assert (Hm : 0 <= m').
    { subst m'. destruct s'; [lia| |lia]. apply Z.shiftl_nonneg. lia. }
    pose proof (div_eucl_nonneg m' (Z.pos m) Hm ltac:(lia)) as Hq.
    destruct (Z.div_eucl m' (Z.pos m)) as [q r]. cbn [fst] in Hq.
    apply binary_round_aux_sign, Hq.
Qed.

Lemma Math_round_nonnegative x : nonnegative x -> nonnegative (Math_round x).
Proof.
  destruct x as [s|s| |s m e]; cbn [Math_round]; intros H; try exact H.
  cbn in H. subst s. destruct (0 <=? e)%Z eqn:E; [reflexivity|].
  apply Z.leb_gt in E. cbv zeta. cbn [cond_Zopp].
  destruct (_ =? 0)%Z eqn:N; [exact I|]. apply of_Z_nonnegative.
  apply Z.div_pos; [|apply Z.pow_pos_nonneg; lia].
  pose proof (Z.pow_pos_nonneg 2 (- e - 1)). lia.
Qed.

Lemma nonnegative_not_below x : nonnegative x -> ltb x zero = false.
Proof.
  destruct x as [s|s| |s m e]; cbn; intros H; try contradiction;
    try reflexivity; subst; reflexivity.
Qed.

Lemma nonnegative_not_NaN x : nonnegative x -> x <> NaN.
Proof. intros H ->. exact H. Qed.

(** What the range check lets through: NaN, the zeros and the positive
    numbers that do not compare above 1. *)
Lemma guard_passes x :
  ltb x zero = false -> ltb one x = false -> x = NaN \/ nonnegative x.
Proof.
  destruct x as [s|s| |s m e]; cbn; intros H0 H1.
  - right. exact I.
  - destruct s; discriminate.
  - left. reflexivity.
  - right. destruct s; [discriminate|reflexivity].
Qed.

(** *** The constants of the scorer *)

Lemma literal_3_10 : literal 3 10 = S754_finite false 5404319552844595 (-54).
Proof. vm_compute. reflexivity. Qed.

Lemma literal_25_100 : literal 25 100 = S754_finite false 4503599627370496 (-54).
Proof. vm_compute. reflexivity. Qed.

Lemma literal_15_100 : literal 15 100 = S754_finite false 5404319552844595 (-55).
Proof. vm_compute. reflexivity. Qed.

Lemma of_Z_1000 : of_Z 1000 = S754_finite false 8796093022208000 (-43).
Proof. vm_compute. reflexivity. Qed.

(** *** The range check *)

Lemma check_range_lets_through scores :
  check_range scores = None <->
  Forall (fun x => ltb x zero = false /\ ltb one x = false) scores.
Proof.
  induction scores as [|score rest IH]; cbn [check_range].
  - split; [constructor|reflexivity].
  - destruct (ltb score zero) eqn:E0; cbn [orb].
    + split; [discriminate|]. intros H. inversion H as [|? ? [K _]]. congruence.
    + destruct (ltb one score) eqn:E1.
      * split; [discriminate|]. intros H. inversion H as [|? ? [_ K]]. congruence.
      * rewrite IH. split.
        -- intros H. constructor; [split; assumption|exact H].
        -- intros H. inversion H; assumption.
Qed.


(** The result of [calculate] on scores the range check lets through. *)
Lemma calculate_passes dims why th :
  Forall (fun x => ltb x zero = false /\ ltb one x = false)
    [completeness dims; accuracy dims; feasibility dims; coverage dims] ->
  let sum :=
    add (add (add (mul (completeness dims) (literal 3 10))
                  (mul (accuracy dims) (literal 3 10)))
             (mul (feasibility dims) (literal 25 100)))
        (mul (coverage dims) (literal 15 100)) in
  calculate dims why th =
    inr {| overall := div (Math_round (mul sum (of_Z 1000))) (of_Z 1000);
           dimensions := dims;
           reasoning := why;
           humanReviewRequired :=
             ltb sum (default (literal 6 10) th)
             || ltb (accuracy dims) (literal 5 10)
             || ltb (feasibility dims) (literal 5 10) |}.
Proof.
  intros H. cbv zeta. unfold calculate.
  apply (check_range_lets_through (values dims)) in H. rewrite H. reflexivity.
Qed.





(** [Math.round] on a few numbers: a half goes up, also below zero, and a
    result of zero keeps the sign of the argument. *)
Lemma Math_round_examples :
  Math_round (literal 5 10) = one /\
  Math_round (literal 25 10) = of_Z 3 /\
  Math_round (literal 4 10) = zero /\
  Math_round (literal (-5) 10) = S754_zero true /\
  Math_round (literal (-15) 10) = of_Z (-1) /\
  Math_round (literal (-16) 10) = of_Z (-2) /\
  Math_round (of_Z 7) = of_Z 7 /\
  Math_round NaN = NaN.
Proof. repeat split; vm_compute; reflexivity. Qed.

(** *** NaN *)

Lemma add_NaN_r x : add x NaN = NaN.
Proof. destruct x; reflexivity. Qed.

Lemma mul_NaN_r x : mul x NaN = NaN.
Proof. destruct x; reflexivity. Qed.

(** The overall score of a sum: NaN stays NaN, a zero or a positive number
    gives a zero, a positive number or [+Infinity]. *)
Lemma rounded_NaN : div (Math_round (mul NaN (of_Z 1000))) (of_Z 1000) = NaN.
Proof. reflexivity. Qed.

Lemma rounded_nonnegative x :
  nonnegative x ->
  nonnegative (div (Math_round (mul x (of_Z 1000))) (of_Z 1000)).
Proof.
  intros H. rewrite of_Z_1000.
  apply div_nonnegative, Math_round_nonnegative, mul_nonnegative, H.
Qed.

Lemma weighted_nonnegative c a f v :
  nonnegative c -> nonnegative a -> nonnegative f -> nonnegative v ->
  nonnegative
    (add (add (add (mul c (literal 3 10)) (mul a (literal 3 10)))
              (mul f (literal 25 100)))
         (mul v (literal 15 100))).
Proof.
  intros Hc Ha Hf Hv. rewrite literal_3_10, literal_25_100, literal_15_100.
  repeat apply add_nonnegative; apply mul_nonnegative; assumption.
Qed.

Lemma weighted_NaN c a f v :
  c = NaN \/ a = NaN \/ f = NaN \/ v = NaN ->
  add (add (add (mul c (literal 3 10)) (mul a (literal 3 10)))
           (mul f (literal 25 100)))
      (mul v (literal 15 100)) = NaN.
Proof.
  intros [-> | [-> | [-> | ->]]].
  - reflexivity.
  - change (mul NaN (literal 3 10)) with NaN. rewrite add_NaN_r. reflexivity.
  - change (mul NaN (literal 25 100)) with NaN. rewrite add_NaN_r. reflexivity.
  - change (mul NaN (literal 15 100)) with NaN. apply add_NaN_r.
Qed.

(** C6 as amended.  For scores the range check lets through, the flag
    humanReviewRequired of the score that is returned is true exactly when
    the sum ((c * 0.3 + a * 0.3) + f * 0.25) + v * 0.15, as computed on
    binary64 numbers and before it is rounded to three decimals, is below
    the review threshold (0.6 unless the caller gives one), or accuracy is
    below 0.5, or feasibility is below 0.5.  A low accuracy or feasibility
    raises the flag whatever completeness and coverage are.  The overall
    that is returned is that sum times 1000, rounded by [Math.round], over
    1000. *)
Theorem review_flag dims why th :
  let c := completeness dims in
  let a := accuracy dims in
  let f := feasibility dims in
  let v := coverage dims in
  let sum :=
    add (add (add (mul c (literal 3 10)) (mul a (literal 3 10)))
             (mul f (literal 25 100)))
        (mul v (literal 15 100)) in
  let threshold := default (literal 6 10) th in
  Forall (fun x => ltb x zero = false /\ ltb one x = false) [c; a; f; v] ->
  exists s,
    calculate dims why th = inr s /\
    dimensions s = dims /\
    (humanReviewRequired s = true <->
       ltb sum threshold = true \/
       ltb a (literal 5 10) = true \/ ltb f (literal 5 10) = true) /\
    (ltb a (literal 5 10) = true \/ ltb f (literal 5 10) = true ->
     humanReviewRequired s = true) /\
    overall s = div (Math_round (mul sum (of_Z 1000))) (of_Z 1000).
Proof.
  cbv zeta. intros H. rewrite (calculate_passes dims why th H). eexists.
  split; [reflexivity|]. split; [reflexivity|].
  cbn [humanReviewRequired overall].
  rewrite !orb_true_iff. split; [tauto|]. split; [tauto|reflexivity].
Qed.


(** X15.  Whenever [calculate] returns, the dimensions and the reasoning
    are handed back unchanged; the overall is NaN exactly when one of the
    scores is NaN, which the range check does not reject; and the overall
    never compares below 0. *)
Theorem overall_nan_exactly_for_nan_score dims why th s :
  calculate dims why th = inr s ->
  dimensions s = dims /\ reasoning s = why /\
  (overall s = NaN <->
     completeness dims = NaN \/ accuracy dims = NaN \/
     feasibility dims = NaN \/ coverage dims = NaN) /\
  ltb (overall s) zero = false.
Proof.
  intros E.
  assert (P : Forall (fun x => ltb x zero = false /\ ltb one x = false)
                [completeness dims; accuracy dims; feasibility dims;
                 coverage dims]).
  { apply (check_range_lets_through (values dims)). unfold calculate in E.
    destruct (check_range (values dims)); [discriminate|reflexivity]. }
  rewrite (calculate_passes dims why th P) in E. injection E as <-.
  cbn [dimensions reasoning overall].
  split; [reflexivity|]. split; [reflexivity|].
  inversion P as [|? ? [Pc1 Pc2] P1]; subst.
  inversion P1 as [|? ? [Pa1 Pa2] P2]; subst.
  inversion P2 as [|? ? [Pf1 Pf2] P3]; subst.
  inversion P3 as [|? ? [Pv1 Pv2] _]; subst.
  destruct (guard_passes _ Pc1 Pc2) as [Nc|Nc];
    [rewrite weighted_NaN by tauto; split; [split; [tauto|reflexivity]|reflexivity]|].
  destruct (guard_passes _ Pa1 Pa2) as [Na|Na];
    [rewrite weighted_NaN by tauto; split; [split; [tauto|reflexivity]|reflexivity]|].
  destruct (guard_passes _ Pf1 Pf2) as [Nf|Nf];
    [rewrite weighted_NaN by tauto; split; [split; [tauto|reflexivity]|reflexivity]|].
  destruct (guard_passes _ Pv1 Pv2) as [Nv|Nv];
    [rewrite weighted_NaN by tauto; split; [split; [tauto|reflexivity]|reflexivity]|].
  pose proof (rounded_nonnegative _ (weighted_nonnegative _ _ _ _ Nc Na Nf Nv))
    as R.
  split; [|apply nonnegative_not_below, R]. split.
  - intros K. exfalso. exact (nonnegative_not_NaN _ R K).
  - intros [K|[K|[K|K]]]; exfalso;
      [apply (nonnegative_not_NaN _ Nc K)|apply (nonnegative_not_NaN _ Na K)
      |apply (nonnegative_not_NaN _ Nf K)|apply (nonnegative_not_NaN _ Nv K)].
Qed.


(** C6, witness.  Completeness 0.125, accuracy 1, feasibility 0.75 and
    coverage 0.5: the exact weighted sum is 0.6, the sum the program
    computes is the number just below 0.6, and review is required. *)
Lemma review_flag_witness :
  let dims := {| completeness := literal 125 1000; accuracy := one;
                 feasibility := literal 75 100; coverage := literal 5 10 |} in
  Forall (fun x => ltb x zero = false /\ ltb one x = false)
    [completeness dims; accuracy dims; feasibility dims; coverage dims] /\
  (exists q, exact_weighted_sum dims = Some q /\ (q == 0.6)%Q) /\
  exists s,
    calculate dims "scan" None = inr s /\ humanReviewRequired s = true.
Proof.
  cbv zeta.
  assert (R : Forall (fun x => ltb x zero = false /\ ltb one x = false)
                [literal 125 1000; one; literal 75 100; literal 5 10]).
  { repeat constructor. }
  split; [exact R|].
  split; [eexists; split; [vm_compute; reflexivity|reflexivity]|].
  destruct (review_flag
              {| completeness := literal 125 1000; accuracy := one;
                 feasibility := literal 75 100; coverage := literal 5 10 |}
              "scan" None R) as (s & E & _ & H & _).
  exists s. split; [exact E|]. apply H. left. vm_compute. reflexivity.
Defined.

(** C6, counterexample.  Completeness 0, accuracy 1, feasibility 1 and
    coverage 0.333, all in [0,1]: the sum 0.59995 is below the default
    threshold 0.6, so review is required, while the overall that is
    returned is 0.6, which is not below the threshold, and neither accuracy
    nor feasibility is below 0.5. *)
Lemma review_flag_not_from_returned_overall :
  let dims := {| completeness := zero; accuracy := one; feasibility := one;
                 coverage := literal 333 1000 |} in
  exists s,
    calculate dims "scan" None = inr s /\
    Forall (fun x => leb zero x = true /\ leb x one = true)
      [completeness dims; accuracy dims; feasibility dims; coverage dims] /\
    overall s = literal 6 10 /\
    humanReviewRequired s = true /\
    ltb (overall s) (literal 6 10) = false /\
    ltb (accuracy (dimensions s)) (literal 5 10) = false /\
    ltb (feasibility (dimensions s)) (literal 5 10) = false.
Proof.
  cbv zeta. eexists. split; [vm_compute; reflexivity|].
  split; [repeat constructor|]. repeat split.
Qed.


(** X15, witness.  A NaN completeness next to three scores of 1. *)
Lemma overall_nan_exactly_for_nan_score_witness :
  let dims := {| completeness := NaN; accuracy := one; feasibility := one;
                 coverage := one |} in
  exists s, calculate dims "scan" None = inr s /\ overall s = NaN.
Proof.
  cbv zeta.
  destruct (calculate {| completeness := NaN; accuracy := one;
                         feasibility := one; coverage := one |} "scan" None)
    as [e|s] eqn:E; [vm_compute in E; discriminate E|].
  exists s. split; [reflexivity|].
  apply (overall_nan_exactly_for_nan_score _ _ _ _ E). left. reflexivity.
Defined.

End Calculator64Facts.

(** ** [CognitiveQuadrantManager] *)

Module QuadrantFacts.
Import ConfidenceCalculator CognitiveQuadrantManager.
Local Open Scope Q_scope.

Lemma manual_escalation config c :
  mode config = manual ->
  shouldEscalate (shouldEscalateToHuman config c)
    = negb (Qle_bool 0.9 (overall (confidence c))
            && (length (issues c) =? 0)%nat).
Proof.
  intros H. unfold shouldEscalateToHuman. rewrite H.
  destruct (Qle_bool 0.9 (overall (confidence c))
            && (length (issues c) =? 0)%nat); reflexivity.
Qed.

(** C9 as amended.  In manual mode the engine does not escalate iff the
    overall confidence is at least 0.9 and there is no issue.  A critique
    with overall 0.95 and no issue is not escalated, and its recommended
    action is approve when the configured auto-approve threshold is at most
    0.95 (the default is 0.8) and review above that.  A critique with one
    issue, of whatever severity, is escalated. *)
Theorem manual_mode config c :
  mode config = manual ->
  (shouldEscalate (shouldEscalateToHuman config c) = false <->
     0.9 <= overall (confidence c) /\ issues c = []) /\
  (overall (confidence c) == 0.95 -> issues c = [] ->
     shouldEscalate (shouldEscalateToHuman config c) = false /\
     (autoApprove (thresholds config) <= 0.95 ->
        rec_action (getRecommendedAction config c) = approve) /\
     (0.95 < autoApprove (thresholds config) ->
        rec_action (getRecommendedAction config c) = review)) /\
  (forall i, issues c = [i] ->
     shouldEscalate (shouldEscalateToHuman config c) = true).
Proof.
  intros Hm. pose proof (manual_escalation config c Hm) as E.
  split; [|split].
  - rewrite E, negb_false_iff, andb_true_iff, Qle_bool_iff, Nat.eqb_eq.
    split; intros [H1 H2]; (split; [exact H1|]).
    + destruct (issues c); [reflexivity|discriminate].
    + rewrite H2. reflexivity.
  - intros Ho Hi.
    assert (Hesc : shouldEscalate (shouldEscalateToHuman config c) = false).
    { rewrite E, negb_false_iff, andb_true_iff, Qle_bool_iff, Nat.eqb_eq, Hi.
      split; [lra|reflexivity]. }
    split; [exact Hesc|].
    unfold getRecommendedAction, shouldAttemptAutoCorrect.
    rewrite Hesc, Hi. cbn [length Nat.ltb Nat.leb andb].
    rewrite andb_false_r. cbn [andb].
    split; intros Ha.
    + assert (Qle_bool (autoApprove (thresholds config)) (overall (confidence c))
              = true) as -> by (apply Qle_bool_iff; lra).
      reflexivity.
    + destruct (Qle_bool (autoApprove (thresholds config))
                  (overall (confidence c))) eqn:Q; [|reflexivity].
      apply Qle_bool_iff in Q. exfalso. lra.
  - intros i Hi. rewrite E, Hi. cbn [length Nat.eqb].
    rewrite andb_false_r. reflexivity.
Qed.

(** C9, witness: the default thresholds, manual mode. *)
Lemma manual_mode_witness :
  let config := constructor (Some manual) None None in
  mode config = manual /\
  shouldEscalate (shouldEscalateToHuman config (critique_with 0.95 [])) = false /\
  rec_action (getRecommendedAction config (critique_with 0.95 [])) = approve /\
  shouldEscalate (shouldEscalateToHuman config (critique_with 0.95 [low_issue]))
    = true.
Proof.
  cbv zeta. split; [reflexivity|].
  destruct (manual_mode (constructor (Some manual) None None)
              (critique_with 0.95 []) eq_refl) as (_ & H & _).
  destruct (H ltac:(reflexivity) eq_refl) as (H1 & H2 & _).
  split; [exact H1|]. split; [apply H2; vm_compute; discriminate|].
  destruct (manual_mode (constructor (Some manual) None None)
              (critique_with 0.95 [low_issue]) eq_refl) as (_ & _ & H3).
  apply (H3 low_issue eq_refl).
Defined.

(** C9, counterexample.  Manual mode with the auto-approve threshold set to
    0.99: a critique with overall 0.95 and no issue is not escalated, and
    the recommended action is review, not approve. *)
Lemma manual_mode_needs_auto_approve :
  let config :=
    constructor (Some manual)
      (Some {| autoApprove := 0.99; requireReview := 0.6; autoCorrect := 0.5 |})
      None in
  let c := critique_with 0.95 [] in
  mode config = manual /\
  shouldEscalate (shouldEscalateToHuman config c) = false /\
  rec_action (getRecommendedAction config c) = review /\
  rec_action (getRecommendedAction config c) <> approve.
Proof.
  cbv zeta. repeat split. discriminate.
Qed.

End QuadrantFacts.

(** ** [SOPParser.validate] *)

Module ValidateFacts.
Import SOPParser.

Lemma elem_of_upto k x : x ∈ upto k <-> 1 <= x <= Z.of_nat k.
Proof.
  unfold upto. rewrite list_elem_of_fmap. split.
  - intros (n & -> & Hn). apply elem_of_seq in Hn. lia.
  - intros H. exists (Z.to_nat x). split; [lia|]. apply elem_of_seq. lia.
Qed.

Lemma upto_S k : upto (S k) = (upto k ++ [Z.of_nat k + 1])%list.
Proof.
  unfold upto. rewrite seq_S, map_app. cbn [map]. do 3 f_equal. lia.
Qed.

(** What the numbering loop reports: nothing when the numbers continue
    [i+1, i+2, ...]; otherwise the first number off that line, once. *)
Lemma numbering_errors_spec i l :
  (numbering_errors i l = [] /\
   l = map (fun n => i + Z.of_nat n) (seq 1 (length l)))
  \/
  (exists k M rest,
     l = (map (fun n => i + Z.of_nat n) (seq 1 k) ++ M :: rest)%list /\
     M <> i + Z.of_nat k + 1 /\
     numbering_errors i l = [gap_message (i + Z.of_nat k + 1) M]).
Proof.
  revert i. induction l as [|n l IH]; intros i; [left; split; reflexivity|].
  cbn [numbering_errors]. destruct (n =? i + 1)%Z eqn:E; cbn [negb].
  - apply Z.eqb_eq in E. subst n.
    destruct (IH (i + 1)) as [[H1 H2]|(k & M & rest & H1 & H2 & H3)].
    + left. split; [exact H1|]. cbn [length seq map]. f_equal; try lia.
      rewrite H2 at 1. rewrite <- (seq_shift (length l) 1), map_map.
      apply map_ext. intros a. lia.
    + right. exists (S k), M, rest. split; [|split].
      * cbn [seq map app]. f_equal; try lia. rewrite H1 at 1. f_equal.
        rewrite <- (seq_shift k 1), map_map. apply map_ext. intros a. lia.
      * lia.
      * rewrite H3. do 2 f_equal. lia.
  - apply Z.eqb_neq in E. right. exists 0%nat, n, l.
    split; [reflexivity|]. split; [lia|]. do 2 f_equal. lia.
Qed.

Lemma upto_as_offsets k : map (fun n => 0 + Z.of_nat n) (seq 1 k) = upto k.
Proof. unfold upto. apply map_ext. intros a. lia. Qed.

Lemma sort_numbers_sorted ps : StronglySorted Z.le (sort_numbers ps).
Proof. apply StronglySorted_merge_sort; apply _. Qed.

Lemma sort_numbers_perm ps : sort_numbers ps ≡ₚ ps.
Proof. apply merge_sort_Permutation. Qed.

Lemma upto_sorted k : StronglySorted Z.le (upto k).
Proof.
  induction k as [|k IH]; [constructor|].
  rewrite upto_S. apply StronglySorted_app_2; [|exact IH|repeat constructor].
  intros x1 x2 H1 H2. apply elem_of_upto in H1.
  apply list_elem_of_singleton in H2. lia.
Qed.

Lemma upto_lookup n k :
  (k < n)%nat -> upto n !! k = Some (Z.of_nat k + 1).
Proof.
  intros H. unfold upto. rewrite list_lookup_fmap, lookup_seq_lt by exact H.
  cbn. f_equal. lia.
Qed.

Lemma length_upto k : length (upto k) = k.
Proof. unfold upto. rewrite length_map, length_seq. reflexivity. Qed.

Lemma contiguous_sorted ps :
  contiguous ps <-> sort_numbers ps = upto (length ps).
Proof.
  unfold contiguous. split.
  - intros H. apply (StronglySorted_unique Z.le).
    + apply sort_numbers_sorted.
    + apply upto_sorted.
    + rewrite sort_numbers_perm. exact H.
  - intros H. rewrite <- H. symmetry. apply sort_numbers_perm.
Qed.

(** The sorted positions of a workflow that is not contiguous leave the line
    1, 2, 3, ... at some first index [k]. *)
Lemma first_gap_exists ps :
  ~ contiguous ps ->
  exists k M rest,
    sort_numbers ps = (upto k ++ M :: rest)%list /\
    M <> Z.of_nat k + 1 /\
    numbering_errors 0 (sort_numbers ps) = [gap_message (Z.of_nat k + 1) M].
Proof.
  intros H.
  destruct (numbering_errors_spec 0 (sort_numbers ps))
    as [[_ E]|(k & M & rest & E & HM & G)].
  - exfalso. apply H, contiguous_sorted. rewrite upto_as_offsets in E.
    rewrite E at 1. f_equal. apply Permutation_length, sort_numbers_perm.
  - exists k, M, rest. rewrite upto_as_offsets in E.
    split; [exact E|]. split; [lia|]. rewrite G. do 2 f_equal.
Qed.

Lemma contiguous_no_gap ps :
  contiguous ps -> numbering_errors 0 (sort_numbers ps) = [].
Proof.
  intros H. apply contiguous_sorted in H.
  destruct (numbering_errors_spec 0 (sort_numbers ps))
    as [[E _]|(k & M & rest & E & HM & _)]; [exact E|].
  exfalso. rewrite upto_as_offsets in E.
  assert (Hk : (k < length ps)%nat).
  { rewrite <- (Permutation_length (sort_numbers_perm ps)), E, length_app,
      length_upto. cbn. lia. }
  pose proof (upto_lookup (length ps) k Hk) as L.
  rewrite <- H, E, lookup_app_r, length_upto, Nat.sub_diag in L
    by (rewrite length_upto; lia).
  cbn in L. injection L as ->. lia.
Qed.

(** C8 as amended.  For a workflow whose step positions are not contiguous
    from 1, validation fails and reports exactly one numbering gap, between
    the name and step-count errors and the per-step errors: the message
    "expected N, found M" where, in the positions sorted ascending, N - 1
    positions 1, ..., N - 1 come first and M, which is not N, comes next.
    When the positions are distinct and positive, N is the smallest
    position that is absent and M the smallest position above it. *)
Theorem validate_first_gap wf :
  let ps := map stepNumber (steps wf) in
  ~ contiguous ps ->
  exists k M rest,
    let N := Z.of_nat k + 1 in
    sort_numbers ps = (upto k ++ M :: rest)%list /\
    M <> N /\
    errors (validate wf) =
      (name_errors wf ++ count_errors wf ++ [gap_message N M]
       ++ field_errors 0 (steps wf))%list /\
    isValid (validate wf) = false /\
    (NoDup ps -> (forall p, p ∈ ps -> 1 <= p) ->
     (N ∉ ps) /\ (forall p, 1 <= p < N -> p ∈ ps) /\
     M ∈ ps /\ N < M /\ (forall q, q ∈ ps -> N < q -> M <= q)).
Proof.
  intros ps H. destruct (first_gap_exists ps H) as (k & M & rest & E & HM & G).
  exists k, M, rest. cbv zeta. split; [exact E|]. split; [exact HM|].
  unfold validate. cbn [errors isValid]. fold ps. rewrite G.
  split; [reflexivity|]. split.
  { rewrite !length_app. cbn [length]. apply Nat.eqb_neq. lia. }
  intros Hnd Hpos.
  pose proof (sort_numbers_perm ps) as P. fold ps in P.
  pose proof (sort_numbers_sorted ps) as S. rewrite E in S.
  assert (Hin : forall x, x ∈ ps <-> x ∈ upto k \/ x = M \/ x ∈ rest).
  { intros x. rewrite <- P, E, elem_of_app, elem_of_cons. tauto. }
  assert (Hnd' : NoDup (upto k ++ M :: rest)%list) by (rewrite <- E, P; exact Hnd).
  apply NoDup_app in Hnd' as (_ & Hdisj & Hnd').
  apply NoDup_cons in Hnd' as [HMrest _].
  apply StronglySorted_app in S as (_ & _ & S).
  apply StronglySorted_cons in S as [Hrest _]. rewrite Forall_forall in Hrest.
  assert (HM1 : 1 <= M) by (apply Hpos, Hin; tauto).
  assert (HMk : Z.of_nat k + 1 < M).
  { destruct (Z_lt_le_dec (Z.of_nat k) M) as [?|Hle]; [lia|].
    exfalso. apply (Hdisj M); [apply elem_of_upto; lia|left]. }
  split; [|split; [|split; [|split]]].
  - intros Hn. apply Hin in Hn as [Hn|[Hn|Hn]].
    + apply elem_of_upto in Hn. lia.
    + lia.
    + specialize (Hrest _ Hn). lia.
  - intros p Hp. apply Hin. left. apply elem_of_upto. lia.
  - apply Hin. tauto.
  - exact HMk.
  - intros q Hq Hlt. apply Hin in Hq as [Hq|[Hq|Hq]].
    + apply elem_of_upto in Hq. lia.
    + lia.
    + apply Hrest, Hq.
Qed.

(** C8, witness: the numbering 1, 2, 4. *)
Lemma validate_first_gap_witness :
  let wf := numbered [1; 2; 4] in
  ~ contiguous (map stepNumber (steps wf)) /\
  errors (validate wf) = ["Step numbering gap: expected 3, found 4"] /\
  isValid (validate wf) = false.
Proof.
  cbv zeta.
  assert (H : ~ contiguous (map stepNumber (steps (numbered [1; 2; 4])))).
  { intros C. apply contiguous_sorted in C. vm_compute in C. discriminate C. }
  split; [exact H|].
  destruct (validate_first_gap (numbered [1; 2; 4]) H)
    as (k & M & rest & _ & _ & _ & V & _).
  split; [vm_compute; reflexivity|exact V].
Defined.

(** Later gaps are not reported: 1, 2, 4, 6 yields the gap at 3 only. *)
Example validate_reports_first_gap_only :
  errors (validate (numbered [6; 1; 4; 2]))
    = ["Step numbering gap: expected 3, found 4"].
Proof. vm_compute. reflexivity. Qed.

(** C8, counterexample.  Positions 1, 1, 2 are not contiguous; the message
    names 2 as the expected position although a step with position 2 is
    there, and the smallest absent position is 3. *)
Lemma validate_gap_need_not_be_absent :
  let ps := [1; 1; 2] in
  map stepNumber (steps (numbered ps)) = ps /\
  ~ contiguous ps /\
  errors (validate (numbered ps)) = ["Step numbering gap: expected 2, found 1"] /\
  2 ∈ ps /\
  (3 ∉ ps) /\ (forall p, 1 <= p < 3 -> p ∈ ps).
Proof.
  cbv zeta. split; [reflexivity|]. split.
  { intros C. apply contiguous_sorted in C. vm_compute in C. discriminate C. }
  split; [vm_compute; reflexivity|].
  split; [apply list_elem_of_In; cbn; tauto|].
  split; [intros H; apply list_elem_of_In in H; cbn in H; lia|].
  intros p Hp. apply list_elem_of_In. cbn. lia.
Qed.

End ValidateFacts.

(** ** [SOPFormatter.toMarkdown] and [SOPParser.fromMarkdown] *)

Module RoundTripFacts.
Import SOPParser.

(** The machine-readable block of a step has no description. *)
Lemma step_json_no_description step :
  JSON.get "description" (SOPFormatter.step_json step) = None.
Proof.
  unfold SOPFormatter.step_json, JSON.object.
  destruct (action step), (target step), (data step), (validation step),
    (errorHandling step); reflexivity.
Qed.

Lemma step_json_is_object step :
  exists kvs, SOPFormatter.step_json step = JObj kvs.
Proof. unfold SOPFormatter.step_json, JSON.object. eexists. reflexivity. Qed.

Lemma ap_issue_r {A B} (f : Zod.Result (A -> B)) (e : list Zod.Issue) i :
  i ∈ e -> exists e', Zod.ap f (inl e) = inl e' /\ i ∈ e'.
Proof.
  intros H. destruct f as [e0|g]; cbn.
  - eexists. split; [reflexivity|]. apply elem_of_app. right. exact H.
  - eexists. split; [reflexivity|exact H].
Qed.

Lemma ap_issue_l {A B} (e : list Zod.Issue) (x : Zod.Result A) i :
  i ∈ e -> exists e', Zod.ap (B:=B) (inl e) x = inl e' /\ i ∈ e'.
Proof.
  intros H. destruct x as [e0|a]; cbn.
  - eexists. split; [reflexivity|]. apply elem_of_app. left. exact H.
  - eexists. split; [reflexivity|exact H].
Qed.

(** [SOPStepSchema] refuses an object that has no description. *)
Lemma schema_requires_description p kvs :
  JSON.get "description" (JObj kvs) = None ->
  exists e,
    Zod.SOPStepSchema p (Some (JObj kvs)) = inl e /\
    {| Zod.path := (p ++ ["description"])%list; Zod.message := "Required" |} ∈ e.
Proof.
  intros H. unfold Zod.SOPStepSchema, Zod.object.
  unfold Zod.prop at 3. rewrite H. cbn [Zod.string_ Zod.wrong_type].
  set (i := {| Zod.path := (p ++ ["description"])%list; Zod.message := "Required" |}).
  assert (Hi : i ∈ [i]) by left.
  destruct (Zod.prop Zod.number "stepNumber" p (JObj kvs)),
    (Zod.prop (Zod.enum action_names) "action" p (JObj kvs)),
    (Zod.prop (Zod.optional Zod.target) "target" p (JObj kvs)),
    (Zod.prop (Zod.optional Zod.data) "data" p (JObj kvs)),
    (Zod.prop (Zod.optional Zod.validation) "validation" p (JObj kvs)),
    (Zod.prop (Zod.optional Zod.errorHandling) "errorHandling" p (JObj kvs));
    cbn [Zod.ap Zod.pure]; eexists; (split; [reflexivity|]);
    rewrite ?elem_of_app; tauto.
Qed.

Lemma array_from_issue {A} (s : Zod.Schema A) p i l k v iss :
  l !! k = Some v ->
  (exists e, s (p ++ [pretty (i + k)%nat])%list (Some v) = inl e /\ iss ∈ e) ->
  exists e, Zod.array_from s p i l = inl e /\ iss ∈ e.
Proof.
  revert i k. induction l as [|x l IH]; intros i k Hk (e & E & He);
    [discriminate|].
  cbn [Zod.array_from]. destruct k as [|k].
  - injection Hk as ->. rewrite Nat.add_0_r in E. rewrite E. cbn [Zod.ap Zod.pure].
    destruct (Zod.array_from s p (S i) l); cbn; eexists;
      (split; [reflexivity|]); rewrite ?elem_of_app; tauto.
  - destruct (IH (S i) k Hk) as (e' & E' & He').
    { exists e. split; [|exact He]. rewrite <- E. do 4 f_equal. lia. }
    rewrite E'. destruct (s (p ++ [pretty i])%list (Some x)); cbn; eexists;
      (split; [reflexivity|]); rewrite ?elem_of_app; tauto.
Qed.

Lemma insert_step_elem x l y : y ∈ insert_step x l <-> y = x \/ y ∈ l.
Proof.
  induction l as [|z l IH]; cbn [insert_step].
  - rewrite list_elem_of_singleton, elem_of_nil. tauto.
  - destruct (step_before z x); rewrite !elem_of_cons, ?IH; tauto.
Qed.

Lemma sort_steps_elem l y : y ∈ sort_steps l <-> y ∈ l.
Proof.
  unfold sort_steps. induction l as [|x l IH]; cbn [fold_right]; [tauto|].
  rewrite insert_step_elem, elem_of_cons, IH. tauto.
Qed.

(** A document one of whose blocks is an object without a description
    does not parse: the workflow built from it is refused by the schema. *)
Lemma block_without_description_throws env markdown kvs :
  JObj kvs ∈ p_steps (read_document markdown) ->
  JSON.get "description" (JObj kvs) = None ->
  exists issues_ (k : nat),
    fromMarkdown env markdown = inl (InvalidWorkflowStructure issues_) /\
    {| Zod.path := ["steps"; pretty k; "description"];
       Zod.message := "Required" |} ∈ issues_.
Proof.
  intros Hin Hd. apply sort_steps_elem, list_elem_of_lookup in Hin as [k Hk].
  destruct (array_from_issue Zod.SOPStepSchema ["steps"] 0 _ k (JObj kvs)
              {| Zod.path := ["steps"; pretty k; "description"];
                 Zod.message := "Required" |} Hk) as (e & E & He).
  { destruct (schema_requires_description (["steps"] ++ [pretty (0 + k)%nat]) kvs Hd)
      as (e & E & He).
    exists e. split; [exact E|exact He]. }
  unfold fromMarkdown, build_workflow. cbv zeta. rewrite E.
  match goal with
  | |- context [Zod.ap (Zod.ap (Zod.ap (Zod.ap (Zod.ap _ ?a) ?b) _) ?c) ?d] =>
      destruct a, b, c, d
  end; cbn [Zod.ap Zod.pure]; eexists _, k; (split; [reflexivity|]);
    rewrite ?elem_of_app; tauto.
Qed.

(** C2, the defect.  Whenever the parser reads back the blocks that the
    formatter wrote for a workflow with at least one step, [fromMarkdown]
    throws "Invalid workflow structure": the blocks carry no description
    and the step schema requires one.  Nothing is returned whose steps or
    required inputs could equal those of the workflow. *)
Theorem round_trip_throws env workflow :
  reads_back_blocks workflow ->
  steps workflow <> [] ->
  exists issues_ (k : nat),
    fromMarkdown env (SOPFormatter.toMarkdown workflow)
      = inl (InvalidWorkflowStructure issues_) /\
    {| Zod.path := ["steps"; pretty k; "description"];
       Zod.message := "Required" |} ∈ issues_.
Proof.
  intros Hr Hs. destruct (steps workflow) as [|step rest] eqn:E; [congruence|].
  destruct (step_json_is_object step) as [kvs Hk].
  apply (block_without_description_throws env _ kvs).
  - rewrite Hr, E. cbn [map]. rewrite Hk. left.
  - rewrite <- Hk. apply step_json_no_description.
Qed.

(** C2, witness: a workflow of one navigation step. *)
Lemma round_trip_throws_witness :
  let workflow := Script.workflow_of [open_login] in
  reads_back_blocks workflow /\
  steps workflow <> [] /\
  exists issues_ (k : nat),
    fromMarkdown lenient (SOPFormatter.toMarkdown workflow)
      = inl (InvalidWorkflowStructure issues_) /\
    {| Zod.path := ["steps"; pretty k; "description"];
       Zod.message := "Required" |} ∈ issues_.
Proof.
  cbv zeta.
  assert (H1 : reads_back_blocks (Script.workflow_of [open_login]))
    by (vm_compute; reflexivity).
  assert (H2 : steps (Script.workflow_of [open_login]) <> []) by discriminate.
  split; [exact H1|]. split; [exact H2|].
  exact (round_trip_throws lenient (Script.workflow_of [open_login]) H1 H2).
Defined.

(** The same run, computed: the document, read back, is refused for the one
    reason that step 1 has no description. *)
Example round_trip_of_one_step :
  fromMarkdown lenient (SOPFormatter.toMarkdown (Script.workflow_of [open_login]))
    = inl (InvalidWorkflowStructure
             [ {| Zod.path := ["steps"; "0"; "description"];
                  Zod.message := "Required" |} ]).
Proof. vm_compute. reflexivity. Qed.

(** Without steps the same document parses, and the required inputs come
    back, a numeric default as a string. *)
Example round_trip_without_steps :
  let inputs :=
    [ {| field := "user"; type := "string"; required := true;
         defaultValue := None |};
      {| field := "attempts"; type := "number"; required := false;
         defaultValue := Some (JNum 3) |} ] in
  let workflow :=
    {| w_id := "123e4567-e89b-42d3-a456-426614174000"; name := "Login";
       w_description := "Sign in"; metadataIds := [];
       timestamp := "2024-01-01T00:00:00.000Z";
       steps := []; requiredInputs := inputs; successCriteria := [];
       estimatedDuration := 0; complexity := simple; tags := [];
       critique := Script.a_critique |} in
  exists parsed,
    fromMarkdown lenient (SOPFormatter.toMarkdown workflow) = inr parsed /\
    map field (requiredInputs parsed) = ["user"; "attempts"] /\
    map defaultValue (requiredInputs parsed) = [None; Some (JStr "3")].
Proof. cbv zeta. eexists. split; [vm_compute; reflexivity|]. split; reflexivity. Qed.

End RoundTripFacts.
Module TraceFacts.
Section WithSession.

Context {World : Type} (sess : Session World).
Local Open Scope js_scope.
Import Exec ExecFacts.

Local Abbreviation M := (M (Run World)).

(** *** How a step changes the execution state *)

Lemma extends_refl es : extends_variables es es.
Proof. repeat split; auto. Qed.

Lemma extends_trans es1 es2 es3 :
  extends_variables es1 es2 -> extends_variables es2 es3 ->
  extends_variables es1 es3.
Proof.
  intros (A1 & A2 & A3 & A4) (B1 & B2 & B3 & B4).
  repeat split; try congruence. auto.
Qed.

Lemma varies_ret {A} (a : A) : varies (World:=World) (ret a).
Proof. intros r. apply extends_refl. Qed.

Lemma varies_get : varies (World:=World) get.
Proof. intros r. apply extends_refl. Qed.

Lemma varies_call {A} (op : World -> (Err + A) * World) : varies (call op).
Proof. intros r. unfold call. destruct (op (world r)). apply extends_refl. Qed.

Lemma varies_call_total {A} (op : World -> A * World) : varies (call_total op).
Proof.
  intros r. unfold call_total. destruct (op (world r)). apply extends_refl.
Qed.

Lemma varies_set_variable k v : varies (World:=World) (set_variable k v).
Proof.
  intros r. repeat split. cbn. intros k' H.
  destruct (decide (k = k')) as [->|N].
  - rewrite lookup_insert_eq. eauto.
  - rewrite lookup_insert_ne by exact N. exact H.
Qed.

Lemma varies_bind {A B} (m : M A) (k : A -> M B) :
  varies m -> (forall a, varies (k a)) -> varies (bind m k).
Proof.
  intros Hm Hk r. unfold bind. specialize (Hm r).
  destruct (m r) as [[e|a] r']; cbn in *; [exact Hm|].
  eapply extends_trans; [exact Hm|apply Hk].
Qed.

Lemma varies_try_catch {A} (m : M A) (h : Err -> M A) :
  varies m -> (forall e, varies (h e)) -> varies (try_catch m h).
Proof.
  intros Hm Hh r. unfold try_catch. specialize (Hm r).
  destruct (m r) as [[e|a] r']; cbn in *; [|exact Hm].
  eapply extends_trans; [exact Hm|apply Hh].
Qed.

Ltac varies :=
  repeat first
    [ apply varies_ret | apply varies_get | apply varies_call
    | apply varies_call_total | apply varies_set_variable
    | apply varies_bind; [|intros ?]
    | apply varies_try_catch; [|intros ?]
    | progress cbv zeta
    | case_match ].

Lemma varies_validateStep step : varies (validateStep sess step).
Proof. unfold validateStep. varies. Qed.

Lemma varies_executeStep step : varies (executeStep sess step).
Proof.
  unfold executeStep, executeNavigate, executeClick, executeInput,
    executeSelect, executeWait, executeVerify, executeScreenshot,
    executeExtract, generateFakerValue.
  varies; try apply varies_validateStep.
Qed.

Lemma varies_set_stepResults f : varies (World:=World) (set_stepResults f).
Proof. intros r. apply extends_refl. Qed.

Lemma attempt_extends step r :
  extends_variables (executionState r) (executionState (attempt sess step r).2).
Proof.
  pose proof (varies_executeStep step r) as H.
  rewrite executeStep_attempt in H. exact H.
Qed.

Lemma first_attempt_extends step r :
  extends_variables (executionState r)
    (executionState (first_attempt sess step r).2).
Proof.
  assert (H : varies (record_attempt sess step)).
  { unfold record_attempt.
    repeat first [ apply varies_executeStep | apply varies_call_total
                 | apply varies_set_stepResults | apply varies_ret
                 | apply varies_bind; [|intros ?] ]. }
  specialize (H r). rewrite record_attempt_first in H. exact H.
Qed.

Lemma extends_carries es es' : extends_variables es es' -> carries es es'.
Proof. intros (A1 & A2 & _ & A4). repeat split; assumption. Qed.

Lemma carries_refl es : carries es es.
Proof. repeat split; auto. Qed.

Lemma carries_trans es1 es2 es3 :
  carries es1 es2 -> carries es2 es3 -> carries es1 es3.
Proof.
  intros (A1 & A2 & A4) (B1 & B2 & B4). repeat split; try congruence. auto.
Qed.

(** The retry loop, with what it does to the record tied to its answer. *)
Lemma retry_loop_outcome n step r :
  exists b r',
    retry_loop sess n step r = (inr b, r') /\
    currentPage r' = currentPage r /\
    extends_variables (executionState r) (executionState r') /\
    if b
    then exists out, run_stepResults r' =
                       update_last (mark_retried out) (run_stepResults r)
    else run_stepResults r' = run_stepResults r.
Proof.
  revert r. induction n as [|n IH]; intros r.
  - exists false, r. repeat split; auto.
  - rewrite retry_loop_S. cbv zeta.
    destruct (attempt_keeps sess step r) as [K1 K2].
    pose proof (attempt_extends step r) as K3.
    destruct (sr_success (attempt sess step r).1).
    + eexists _, _. split; [reflexivity|]. split; [exact K2|].
      split; [exact K3|]. eexists. cbn. rewrite K1. reflexivity.
    + destruct (IH (attempt sess step r).2) as (b & r' & -> & P & V & Q).
      exists b, r'. split; [reflexivity|]. split; [congruence|].
      split; [eapply extends_trans; eassumption|].
      rewrite K1 in Q. exact Q.
Qed.

Lemma first_outcome_explained step r o :
  first_outcome_of step (first_attempt sess step r).1 o ->
  explained o /\
  (sr_success (first_attempt sess step r).1 = false ->
   so_status o = StepFailure /\ exists e, so_error o = Some e).
Proof.
  intros (_ & E2 & _ & E4 & E5).
  destruct (record_attempt_result sess step r) as [r0 E0].
  pose proof (failed_attempt_explained sess step r0) as X. rewrite <- E0 in X.
  destruct (sr_success (first_attempt sess step r).1) eqn:Hs.
  - split; [intros H; congruence|discriminate].
  - destruct (X Hs) as [[e He] Hn]. split.
    + intros _. rewrite E4, E5. eauto.
    + intros _. rewrite E4. eauto.
Qed.

Lemma continue_after_run step rest r :
  exists r2,
    continue_after sess step rest r = run_steps sess rest r2 /\
    run_stepResults r2 = run_stepResults r /\
    currentPage r2 = currentPage r /\
    carries (executionState r) (executionState r2) /\
    currentStepNumber (executionState r2) = stepNumber step.
Proof.
  eexists. split; [reflexivity|]. cbn. repeat split; auto.
Qed.

(** What the loop does with its first step: it records one outcome for it
    and then either stops, the outcome being a failure, or goes on with
    the rest. *)
Lemma step_handled step rest r :
  exists o r2,
    run_stepResults r2 = (run_stepResults r ++ [o])%list /\
    so_stepNumber o = stepNumber step /\
    explained o /\
    currentPage r2 = currentPage r /\
    carries (executionState r) (executionState r2) /\
    ((run_steps sess (step :: rest) r = (inr tt, r2) /\
      so_status o = StepFailure)
     \/ run_steps sess (step :: rest) r = run_steps sess rest r2).
Proof.
  rewrite run_steps_cons. cbv zeta.
  destruct (first_attempt_records sess step r) as (o & R & F & P).
  destruct (first_outcome_explained step r o F) as [X Hfail].
  pose proof (extends_carries _ _ (first_attempt_extends step r)) as V.
  pose proof F as (N & _).
  set (res := (first_attempt sess step r).1) in *.
  set (r1 := (first_attempt sess step r).2) in *.
  assert (Hcont : forall r1' o',
             run_stepResults r1' = (run_stepResults r ++ [o'])%list ->
             so_stepNumber o' = stepNumber step -> explained o' ->
             currentPage r1' = currentPage r ->
             carries (executionState r) (executionState r1') ->
             exists o r2,
               run_stepResults r2 = (run_stepResults r ++ [o])%list /\
               so_stepNumber o = stepNumber step /\
               explained o /\
               currentPage r2 = currentPage r /\
               carries (executionState r) (executionState r2) /\
               ((continue_after sess step rest r1' = (inr tt, r2) /\
                 so_status o = StepFailure)
                \/ continue_after sess step rest r1' = run_steps sess rest r2)).
  { intros r1' o' R' N' X' P' V'.
    destruct (continue_after_run step rest r1') as (r2 & E & R2 & P2 & V2 & _).
    exists o', r2. split; [congruence|]. split; [exact N'|]. split; [exact X'|].
    split; [congruence|]. split; [eapply carries_trans; eassumption|].
    right. exact E. }
  destruct (sr_success res) eqn:Hs; [eapply Hcont; eassumption|].
  destruct (Hfail eq_refl) as [Hst [e He]].
  destruct (errorHandling step) as [eh|]; [|eapply Hcont; eassumption].
  destruct (strategy eh).
  - destruct (retry_loop_outcome (Z.to_nat (default 3 (maxRetries eh))) step r1)
      as (b & r2 & -> & P2 & V2 & Q).
    pose proof (extends_carries _ _ V2) as V2'.
    destruct b.
    + destruct Q as [out Q]. rewrite R, update_last_snoc in Q.
      eapply Hcont; [exact Q|exact N| |congruence|eapply carries_trans; eassumption].
      intros H. exfalso. apply H. reflexivity.
    + exists o, r2. split; [congruence|]. split; [exact N|]. split; [exact X|].
      split; [congruence|]. split; [eapply carries_trans; eassumption|].
      left. split; [reflexivity|exact Hst].
  - exists (mark_skipped o), (amend_last mark_skipped r1).
    split; [cbn; rewrite R, update_last_snoc; reflexivity|].
    split; [exact N|]. split.
    { intros _. cbn. split; [eauto|]. apply X. congruence. }
    split; [exact P|]. split; [exact V|]. right. reflexivity.
  - exists o, r1. split; [exact R|]. split; [exact N|]. split; [exact X|].
    split; [exact P|]. split; [exact V|]. left. split; [reflexivity|exact Hst].
  - eapply Hcont; eassumption.
Qed.

(** The loop over the steps: it never throws, records one outcome per step
    it reaches, in the order of the steps, and stops early only after an
    outcome that stays a failure. *)
Lemma run_steps_trace todo r :
  exists r' more,
    run_steps sess todo r = (inr tt, r') /\
    run_stepResults r' = (run_stepResults r ++ more)%list /\
    recorded_for todo more /\
    Forall explained more /\
    (length more = length todo \/
     exists o, In o more /\ so_status o = StepFailure) /\
    carries (executionState r) (executionState r') /\
    currentPage r' = currentPage r.
Proof.
  revert r. induction todo as [|step rest IH]; intros r.
  - exists r, []. rewrite app_nil_r. repeat split; auto.
  - destruct (step_handled step rest r)
      as (o & r2 & R & N & X & P & V & [[E S]|E]).
    + exists r2, [o]. split; [exact E|]. split; [exact R|].
      split; [unfold recorded_for; simpl; rewrite N; reflexivity|].
      split; [constructor; [exact X|constructor]|].
      split; [right; exists o; split; [left; reflexivity|exact S]|].
      split; assumption.
    + destruct (IH r2) as (r' & more & E' & R' & T' & X' & D' & V' & P').
      exists r', (o :: more). split; [congruence|].
      split; [rewrite R', R, <- app_assoc; reflexivity|].
      split; [unfold recorded_for in *; simpl; rewrite N, T'; reflexivity|].
      split; [constructor; assumption|].
      split.
      { destruct D' as [L|(o' & I & S)]; [left; cbn; congruence|].
        right. exists o'. split; [right; exact I|exact S]. }
      split; [eapply carries_trans; eassumption|congruence].
Qed.

(** *** The whole run *)

Lemma cleanup_releases r : currentPage (cleanup sess r).2 = false.
Proof.
  unfold cleanup, bind, get. destruct (currentPage r) eqn:E; [|exact E].
  unfold try_catch, call. destruct (page_close sess (world r)) as [[e|[]] w];
    reflexivity.
Qed.

Lemma finally_state {A} (m : M A) (c : M unit) r :
  (finally m c r).2 = (c (m r).2).2.
Proof.
  unfold finally. destruct (m r) as [x r1]. cbn.
  destruct (c r1) as [[e|u] r2]; reflexivity.
Qed.

Lemma executeWorkflow_releases wf ui r :
  currentPage (executeWorkflow sess wf ui r).2 = false.
Proof.
  unfold executeWorkflow, bind at 1, call_total.
  destruct (Date_now sess (world r)) as [t0 w0].
  unfold bind at 1, set_stepResults.
  rewrite finally_state. apply cleanup_releases.
Qed.

(** The [try] block when the session starts. *)
Lemma try_trace wf ui t0 r0 w1 w2 :
  pw_initialize sess (world r0) = (inr tt, w1) ->
  pw_newPage sess w1 = (inr tt, w2) ->
  exists es more d rid ts cts r',
    executeWorkflow_try sess wf ui t0 r0 =
      (inr (normal_result wf es (run_stepResults r0 ++ more) d rid ts cts), r') /\
    recorded_for (steps wf) more /\
    Forall explained more /\
    (length more = length (steps wf) \/
     exists o, In o more /\ so_status o = StepFailure) /\
    es_id es = es_id (executionState r0) /\
    es_workflowId es = w_id wf /\
    forall k,
      is_Some ((default ∅ ui ∪ variables (executionState r0)) !! k) ->
      is_Some (variables es !! k).
Proof.
  intros H1 H2. unfold executeWorkflow_try.
  unfold bind at 1, call. rewrite H1. cbn [world].
  unfold bind at 1, call. cbn [world]. rewrite H2.
  unfold bind at 1, set_currentPage. unfold bind at 1, set_executionState.
  unfold bind at 1.
  match goal with |- context [run_steps sess (steps wf) ?x] =>
    destruct (run_steps_trace (steps wf) x)
      as (r1 & more & -> & R & T & X & D & (V1 & V2 & V3) & _) end.
  unfold bind, call_total, get, ret.
  destruct (Date_now sess (world r1)) as [t1 w3]. cbn.
  destruct (randomUUID sess w3) as [rid w4]. cbn.
  destruct (Date_iso sess w4) as [ts w5]. cbn.
  destruct (Date_iso sess w5) as [cts w6]. cbn.
  cbn in R, V1, V2, V3. rewrite R.
  eexists _, more, _, _, _, _, _. split; [reflexivity|].
  repeat split; assumption.
Qed.

(** The [try] block throws exactly when the session does not start, and
    then the executor's record and state are untouched. *)
Lemma try_trace_outcome wf ui t0 r :
  (session_starts sess r /\
   exists es results d rid ts cts r',
     executeWorkflow_try sess wf ui t0 (entering sess r) =
       (inr (normal_result wf es results d rid ts cts), r') /\
     recorded_for (steps wf) results /\
     Forall explained results /\
     (length results = length (steps wf) \/
      exists o, In o results /\ so_status o = StepFailure) /\
     es_id es = es_id (executionState r) /\
     es_workflowId es = w_id wf /\
     forall k,
       is_Some ((default ∅ ui ∪ variables (executionState r)) !! k) ->
       is_Some (variables es !! k))
  \/
  (~ session_starts sess r /\
   exists e r1,
     executeWorkflow_try sess wf ui t0 (entering sess r) = (inl e, r1) /\
     run_stepResults r1 = [] /\
     executionState r1 = executionState r).
Proof.
  destruct (pw_initialize sess (world (entering sess r))) as [[e|[]] w1] eqn:H1.
  - right. split.
    + intros (w1' & w2' & H & _). congruence.
    + exists e. eexists. unfold executeWorkflow_try. unfold bind at 1, call.
      rewrite H1. repeat split.
  - destruct (pw_newPage sess w1) as [[e|[]] w2] eqn:H2.
    + right. split.
      * intros (w1' & w2' & H & H'). assert (w1' = w1) by congruence. subst.
        congruence.
      * exists e. eexists. unfold executeWorkflow_try. unfold bind at 1, call.
        rewrite H1. cbn [world]. unfold bind at 1, call. cbn [world].
        rewrite H2. repeat split.
    + left. split; [exists w1, w2; split; assumption|].
      destruct (try_trace wf ui t0 _ w1 w2 H1 H2)
        as (es & more & d & rid & ts & cts & r' & E & H).
      exists es, more, d, rid, ts, cts, r'. split; [exact E|exact H].
Qed.

(** What [executeWorkflow] returns, and how. *)
Lemma executeWorkflow_trace wf ui r :
  exists res r',
    executeWorkflow sess wf ui r = (inr res, r') /\
    currentPage r' = false /\
    ((session_starts sess r /\
      exists es results d rid ts cts,
        res = normal_result wf es results d rid ts cts /\
        recorded_for (steps wf) results /\
        Forall explained results /\
        (length results = length (steps wf) \/
         exists o, In o results /\ so_status o = StepFailure) /\
        es_id es = es_id (executionState r) /\
        es_workflowId es = w_id wf /\
        forall k,
          is_Some ((default ∅ ui ∪ variables (executionState r)) !! k) ->
          is_Some (variables es !! k))
     \/
     (~ session_starts sess r /\
      exists e d rid ts cts,
        res = caught_result wf (executionState r) [] d rid ts cts e)).
Proof.
  destruct (executeWorkflow_cases sess wf ui r) as (res & r' & E & C).
  cbv zeta in C. exists res, r'. split; [exact E|].
  split; [pose proof (executeWorkflow_releases wf ui r) as H;
          rewrite E in H; exact H|].
  destruct (try_trace_outcome wf ui (Date_now sess (world r)).1 r)
    as [(S & es & results & d & rid & ts & cts & r1 & T & H)
       |(S & e & r1 & T & R & V)];
    rewrite T in C.
  - left. split; [exact S|]. exists es, results, d, rid, ts, cts.
    split; [exact C|exact H].
  - right. split; [exact S|]. destruct C as (d & rid & ts & cts & ->).
    rewrite R, V. exists e, d, rid, ts, cts. reflexivity.
Qed.

Lemma failure_not_hidden wf es results d rid ts cts o :
  In o results -> so_status o = StepFailure ->
  status (normal_result wf es results d rid ts cts) = failure.
Proof.
  intros I S. cbn.
  assert (forallb is_success results = false) as ->.
  { apply not_true_is_false. rewrite forallb_forall. intros H.
    specialize (H o I). apply is_success_true in H. congruence. }
  assert (existsb is_failure results = true) as ->.
  { apply existsb_exists. exists o. split; [exact I|].
    apply is_failure_true. exact S. }
  reflexivity.
Qed.

Lemma recorded_for_all todo results :
  recorded_for todo results -> length results = length todo ->
  map so_stepNumber results = map stepNumber todo.
Proof.
  unfold recorded_for. intros -> ->. rewrite firstn_all. reflexivity.
Qed.

Lemma recorded_for_In todo results o :
  recorded_for todo results -> In o results ->
  exists step, In step todo /\ stepNumber step = so_stepNumber o.
Proof.
  unfold recorded_for. intros H I.
  apply (in_map so_stepNumber) in I. rewrite H in I.
  apply in_map_iff in I as (step & E & I). exists step. split; [|exact E].
  rewrite <- (take_drop (length results) todo). apply in_or_app. left. exact I.
Qed.

(** X1.  [executeWorkflow] records at most one outcome per step, in the
    order of the workflow: the step numbers of the recorded outcomes are
    those of the first steps of the workflow, whatever the policies did and
    also when the run was cut short or caught. *)
Theorem outcomes_follow_the_steps wf ui r :
  exists res r',
    executeWorkflow sess wf ui r = (inr res, r') /\
    (length (stepResults res) <= length (steps wf))%nat /\
    map so_stepNumber (stepResults res)
      = map stepNumber (take (length (stepResults res)) (steps wf)).
Proof.
  destruct (executeWorkflow_trace wf ui r) as (res & r' & E & _ & C).
  exists res, r'. split; [exact E|].
  destruct C as [(_ & es & results & d & rid & ts & cts & -> & T & _)
                |(_ & e & d & rid & ts & cts & ->)].
  - cbn [stepResults normal_result]. split; [|exact T].
    apply (f_equal (@length Z)) in T.
    rewrite !length_map, length_take in T. lia.
  - cbn. split; [lia|reflexivity].
Qed.

(** X2.  A run stops before the end of the workflow only on an outcome that
    stays a failure: when the status of the result is not [failure] (it is
    [success] or [partial]) every step of the workflow has its outcome. *)
Theorem unfinished_run_is_a_failure wf ui r :
  exists res r',
    executeWorkflow sess wf ui r = (inr res, r') /\
    (status res <> failure ->
     map so_stepNumber (stepResults res) = map stepNumber (steps wf)).
Proof.
  destruct (executeWorkflow_trace wf ui r) as (res & r' & E & _ & C).
  exists res, r'. split; [exact E|].
  destruct C as [(_ & es & results & d & rid & ts & cts & -> & T & _ & D & _)
                |(_ & e & d & rid & ts & cts & ->)].
  - intros H. destruct D as [L|(o & I & S)].
    + apply recorded_for_all; assumption.
    + exfalso. apply H. eapply failure_not_hidden; eassumption.
  - intros H. exfalso. apply H. reflexivity.
Qed.

(** X3.  Every outcome in the result of [executeWorkflow] whose status is
    [failure] or [skipped] carries an error text and has no screenshot. *)
Theorem failures_are_explained wf ui r :
  exists res r',
    executeWorkflow sess wf ui r = (inr res, r') /\
    forall o, In o (stepResults res) -> so_status o <> StepSuccess ->
      (exists e, so_error o = Some e) /\ so_screenshot o = None.
Proof.
  destruct (executeWorkflow_trace wf ui r) as (res & r' & E & _ & C).
  exists res, r'. split; [exact E|].
  destruct C as [(_ & es & results & d & rid & ts & cts & -> & _ & X & _)
                |(_ & e & d & rid & ts & cts & ->)].
  - intros o I. rewrite Forall_forall in X. apply (X o).
    apply list_elem_of_In. exact I.
  - intros o [].
Qed.

(** X4.  [executeWorkflow] always gives up its page: when it returns, the
    executor holds no page, whether the steps ran to the end, a policy cut
    the run short or the session failed to start. *)
Theorem page_is_released wf ui r :
  exists res r',
    executeWorkflow sess wf ui r = (inr res, r') /\ currentPage r' = false.
Proof.
  destruct (executeWorkflow_trace wf ui r) as (res & r' & E & P & _).
  exists res, r'. split; assumption.
Qed.

(** X5.  The result names the workflow and the executor's state.  When the
    session starts, the final state is stamped with the workflow's id and
    still defines every variable the user inputs or the earlier state
    defined; when it does not start, the final state is the executor's
    state as it was, workflow id included. *)
Theorem final_state_provenance wf ui r :
  exists res r',
    executeWorkflow sess wf ui r = (inr res, r') /\
    r_workflowId res = w_id wf /\
    executionStateId res = es_id (executionState r) /\
    es_id (finalState res) = es_id (executionState r) /\
    (session_starts sess r ->
     es_workflowId (finalState res) = w_id wf /\
     forall k,
       is_Some (default ∅ ui !! k) \/ is_Some (variables (executionState r) !! k) ->
       is_Some (variables (finalState res) !! k)) /\
    (~ session_starts sess r -> finalState res = executionState r).
Proof.
  destruct (executeWorkflow_trace wf ui r) as (res & r' & E & _ & C).
  exists res, r'. split; [exact E|].
  destruct C as [(S & es & results & d & rid & ts & cts & -> & _ & _ & _
                    & I & W & V)
                |(S & e & d & rid & ts & cts & ->)]; cbn.
  - split; [reflexivity|]. split; [exact I|]. split; [exact I|].
    split; [|tauto]. intros _. split; [exact W|].
    intros k Hk. apply V. rewrite lookup_union_is_Some. exact Hk.
  - split; [reflexivity|]. split; [reflexivity|]. split; [reflexivity|].
    split; [tauto|reflexivity].
Qed.

(** X26.  A workflow without steps, run on a session that starts, is a
    success: nothing is recorded, the status is [success], the confidence
    is 0.9 and no review is asked for. *)
Theorem empty_workflow_succeeds wf ui r :
  session_starts sess r -> steps wf = [] ->
  exists res r',
    executeWorkflow sess wf ui r = (inr res, r') /\
    status res = success /\ stepResults res = [] /\
    overall (confidence (r_critique res)) = 0.9%Q /\
    humanReviewRequired (confidence (r_critique res)) = false /\
    issues (r_critique res) = [].
Proof.
  intros S E0.
  destruct (executeWorkflow_trace wf ui r) as (res & r' & E & _ & C).
  exists res, r'. split; [exact E|].
  destruct C as [(_ & es & results & d & rid & ts & cts & -> & T & _)
                |(N & _)]; [|contradiction].
  unfold recorded_for in T. rewrite E0, take_nil in T.
  destruct results; [|discriminate]. repeat split.
Qed.

(** *** Single steps *)

(** X6.  A step that cannot run fails without a call to the session, the
    executor's state staying as it is: any step when no page is open, a
    [navigate] without URL, a [click], [input] or [extract] without
    selector, a [select] without selector or value, and every
    [conditional] and [loop] step, for which the executor has no code. *)
Theorem unrunnable_step_leaves_session step r :
  (currentPage r = false ->
   executeStep sess step r = (inr (failed "No active page"), r)) /\
  (currentPage r = true ->
   (action step = Some navigate -> JS.truthy (target_url step) = false ->
    executeStep sess step r = (inr (failed "No URL specified"), r)) /\
   (action step = Some click \/ action step = Some input \/ action step = Some extract ->
    JS.truthy (target_selector step) = false ->
    executeStep sess step r = (inr (failed "No selector specified"), r)) /\
   (action step = Some select ->
    JS.truthy (target_selector step) = false \/
    JS.truthy (target_value step) = false ->
    executeStep sess step r
      = (inr (failed "No selector or value specified"), r)) /\
   (action step = Some conditional \/ action step = Some loop ->
    executeStep sess step r
      = (inr (failed ("Unknown action: " +:+ action_text (action step))), r))).
Proof.
  split; [|intros P; split; [|split; [|split]]].
  - intros P. unfold executeStep, bind, get. rewrite P. reflexivity.
  - intros A U. unfold executeStep, bind, get, try_catch. rewrite P, A. cbn.
    unfold executeNavigate. rewrite U. reflexivity.
  - intros A U. unfold executeStep, bind, get, try_catch. rewrite P. cbn.
    destruct A as [->| [->| ->]];
      unfold executeClick, executeInput, executeExtract, bind, get;
      rewrite U; cbn; reflexivity.
  - intros A U. unfold executeStep, bind, get, try_catch. rewrite P, A. cbn.
    unfold executeSelect.
    destruct U as [-> | ->]; rewrite ?orb_true_r; reflexivity.
  - intros A. unfold executeStep, bind, get, try_catch. rewrite P. cbn.
    destruct A as [-> | ->]; reflexivity.
Qed.

(** X7.  A [verify] step whose validation is of type [count] or [custom],
    or that has no validation at all, always passes: nothing is asked of
    the page and nothing changes. *)
Theorem unchecked_validation_passes step r :
  currentPage r = true ->
  action step = Some verify ->
  (validation step = None \/
   exists v, validation step = Some v /\
             (v_type v = count \/ v_type v = custom)) ->
  executeStep sess step r = (inr (ok None), r).
Proof.
  intros P A V. unfold executeStep, bind, get, try_catch. rewrite P, A. cbn.
  unfold executeVerify, validateStep, bind, get, try_catch.
  destruct V as [-> | (v & -> & [-> | ->])]; rewrite ?P; reflexivity.
Qed.

(** X8.  What an [extract] step stores under a field name is what a later
    [input] step of source [user] with that field name types: the text of
    the element, or the empty string when the element has no text.  The
    [input] step then stores the typed value under the same name. *)
Theorem extracted_text_is_typed s1 s2 f txt w1 r :
  currentPage r = true ->
  action s1 = Some extract ->
  JS.truthy (target_selector s1) = true ->
  data s1 ≫= d_field = Some f -> JS.truthy (Some f) = true ->
  page_textContent sess (default "" (target_selector s1)) (world r)
    = (inr txt, w1) ->
  action s2 = Some input ->
  JS.truthy (target_selector s2) = true ->
  d_source <$> data s2 = Some user ->
  data s2 ≫= d_field = Some f ->
  let r1 := (attempt sess s1 r).2 in
  let typed := JStr (default "" txt) in
  let sel := default "" (target_selector s2) in
  world r1 = w1 /\
  variables (executionState r1) !! f = Some (from_option JStr JNull txt) /\
  forall w2,
    pw_fill sess sel typed w1 = (inr tt, w2) ->
    let r2 := (attempt sess s2 r1).2 in
    (attempt sess s2 r1).1
      = ok (Some (JObj [("selector", JStr sel); ("value", typed)])) /\
    world r2 = w2 /\
    variables (executionState r2) !! f = Some typed.
Proof.
  intros P A1 T1 F1 Tf C A2 T2 S2 F2.
  assert (E1 : attempt sess s1 r
               = (ok (Some (JObj [("text", from_option JStr JNull txt)])),
                  mkRun w1 true
                    (executionState
                       (set_variable f (from_option JStr JNull txt) r).2)
                    (run_stepResults r))).
  { unfold attempt, executeStep, bind, get, try_catch. rewrite P, A1. cbn.
    unfold executeExtract, bind, get. rewrite T1, P. cbn.
    unfold call. rewrite C, F1. cbn in Tf |- *. rewrite Tf. cbn. rewrite P. reflexivity. }
  cbv zeta. rewrite E1. cbn [fst snd world executionState].
  split; [reflexivity|]. split; [cbn; apply lookup_insert_eq|].
  intros w2 C2.
  assert (N : JS.nullish (Some (from_option JStr JNull txt)) (JStr "")
              = JStr (default "" txt)).
  { destruct txt; reflexivity. }
  unfold attempt, executeStep, bind, get, try_catch. cbn. rewrite A2.
  unfold executeInput, bind, get. rewrite T2. cbn. rewrite S2, F2. cbn.
  rewrite lookup_insert_eq, N. unfold call. cbn. rewrite C2. cbn in Tf |- *. rewrite Tf. cbn.
  split; [reflexivity|]. split; [reflexivity|]. apply lookup_insert_eq.
Qed.

(** X27.  An [input] step whose data source is [state] does not read the
    variables of the execution state: it types the value of its target (or
    the empty string), so its result and its effect on the session are the
    same whatever the variables hold. *)
Theorem state_source_reads_no_variable step r vars :
  action step = Some input -> d_source <$> data step = Some state ->
  let r' := mkRun (world r) (currentPage r)
              (with_variables (executionState r) vars) (run_stepResults r) in
  (attempt sess step r').1 = (attempt sess step r).1 /\
  world (attempt sess step r').2 = world (attempt sess step r).2 /\
  (currentPage r = true -> JS.truthy (target_selector step) = true ->
   forall w2,
     pw_fill sess (default "" (target_selector step))
       (JStr (default "" (target_value step))) (world r) = (inr tt, w2) ->
     (attempt sess step r).1
       = ok (Some (JObj [("selector", JStr (default "" (target_selector step)));
                         ("value", JStr (default "" (target_value step)))]))).
Proof.
  intros A S. cbv zeta.
  unfold attempt, executeStep, bind, get, try_catch. cbn [currentPage].
  rewrite A. destruct (currentPage r) eqn:P; cbn [negb];
    [|repeat split; intros; discriminate].
  unfold executeInput. destruct (JS.truthy (target_selector step)) eqn:T;
    cbn [negb]; [|repeat split; intros; discriminate].
  unfold bind, get, ret, call. rewrite S. cbn [world].
  destruct (pw_fill sess _ _ (world r)) as [[e|[]] w] eqn:F; cbn.
  - repeat split. intros _ _ w2 [=].
  - destruct (JS.truthy (data step ≫= d_field)); cbn; repeat split.
Qed.

(** X9.  A [retry] policy whose bound is zero or negative makes no
    re-attempt: the failed step stops the loop with its failure recorded,
    as [abort] would. *)
Theorem retry_without_attempts step eh n rest r :
  errorHandling step = Some eh -> strategy eh = retry ->
  maxRetries eh = Some n -> n <= 0 ->
  sr_success (first_attempt sess step r).1 = false ->
  let r1 := (first_attempt sess step r).2 in
  run_steps sess (step :: rest) r = (inr tt, r1) /\
  exists o,
    run_stepResults r1 = (run_stepResults r ++ [o])%list /\
    so_stepNumber o = stepNumber step /\ so_status o = StepFailure.
Proof.
  intros Heh Hs Hn Hle Hf r1. split.
  - rewrite run_steps_cons. cbv zeta. rewrite Hf, Heh, Hs, Hn.
    change (default 3 (Some n)) with n.
    replace (Z.to_nat n) with 0%nat by lia. reflexivity.
  - destruct (first_attempt_records sess step r) as (o & R & (E1 & E2 & _) & _).
    exists o. rewrite Hf in E2. auto.
Qed.

(** X10.  A failed step under [skip] is recorded as [skipped], keeping the
    error text of its attempt, and the loop goes on with the next step;
    unlike a step that succeeds, it does not become the current step of the
    execution state. *)
Theorem skip_policy step eh rest r :
  errorHandling step = Some eh -> strategy eh = skip ->
  sr_success (first_attempt sess step r).1 = false ->
  let r1 := (first_attempt sess step r).2 in
  let r2 := amend_last mark_skipped r1 in
  run_steps sess (step :: rest) r = run_steps sess rest r2 /\
  currentStepNumber (executionState r2) = currentStepNumber (executionState r) /\
  exists o,
    run_stepResults r2 = (run_stepResults r ++ [o])%list /\
    so_stepNumber o = stepNumber step /\ so_status o = StepSkipped /\
    so_error o = sr_error (first_attempt sess step r).1 /\
    exists e, so_error o = Some e.
Proof.
  intros Heh Hs Hf r1 r2. split; [|split].
  - rewrite run_steps_cons. cbv zeta. rewrite Hf, Heh, Hs. reflexivity.
  - destruct (first_attempt_extends step r) as (_ & _ & H & _). exact H.
  - destruct (first_attempt_records sess step r) as (o & R & F & _).
    destruct (first_outcome_explained step r o F) as [_ X].
    destruct (X Hf) as [_ [e He]]. destruct F as (E1 & _ & _ & E4 & _).
    exists (mark_skipped o). subst r2 r1. cbn.
    rewrite R, update_last_snoc. repeat split; try assumption. eauto.
Qed.

End WithSession.
End TraceFacts.

(** ** [ExecuteAgent]: what its runs return *)

Module AgentFacts.
Section WithSession.

Context {World : Type} (sess : Session World).
Local Open Scope js_scope.
Import Exec ExecFacts TraceFacts.

(** A method run on a new executor starts without page, without recorded
    outcome and without variable. *)
Lemma on_new_executor_run {A} (m : M (Run World) A) w a es' w' :
  Agent.on_new_executor sess m w = (inr (a, es'), w') ->
  exists r r',
    m r = (inr a, r') /\
    currentPage r = false /\ run_stepResults r = [] /\
    variables (executionState r) = ∅.
Proof.
  unfold Agent.on_new_executor, Agent.createInitialState, bind, total, ret.
  destruct (randomUUID sess w) as [i w1]. cbn.
  destruct (Date_iso sess w1) as [ts w2]. cbn.
  match goal with |- context [m ?x] =>
    destruct (m x) as [[e|a'] r'] eqn:E; [discriminate|];
    intros [= <- <- <-]; exists x, r' end.
  split; [exact E|]. repeat split.
Qed.

Lemma execute_runs wf ui w res w' :
  Agent.execute sess wf ui w = (inr res, w') ->
  exists r r',
    executeWorkflow sess wf ui r = (inr res, r') /\
    variables (executionState r) = ∅.
Proof.
  unfold Agent.execute. unfold bind at 1.
  destruct (Agent.on_new_executor sess _ w) as [[e|[result fs]] w1] eqn:E;
    [discriminate|].
  unfold bind.
  destruct (Agent.saveExecutionResults sess result fs w1) as [[e|u] w2];
    [discriminate|].
  intros [= <- <-].
  destruct (on_new_executor_run _ _ _ _ _ E) as (r & r' & H & _ & _ & V).
  exists r, r'. split; assumption.
Qed.

Lemma executeWorkflow_names_workflow wf ui r res r' :
  executeWorkflow sess wf ui r = (inr res, r') -> r_workflowId res = w_id wf.
Proof.
  intros E.
  destruct (executeWorkflow_trace sess wf ui r) as (res0 & r0 & E0 & _ & C).
  rewrite E in E0. injection E0 as <- <-.
  destruct C as [(_ & es & results & d & rid & ts & cts & -> & _)
                |(_ & e & d & rid & ts & cts & ->)]; reflexivity.
Qed.

(** One round of the loop of [executeBatch] returns a result that names
    its workflow. *)
Lemma batch_item wf ui w :
  exists res w',
    try_catch (Agent.execute sess wf ui) (Agent.batch_failure sess wf) w
      = (inr res, w') /\
    r_workflowId res = w_id wf.
Proof.
  unfold try_catch.
  destruct (Agent.execute sess wf ui w) as [[e|res] w1] eqn:E.
  - unfold Agent.batch_failure, bind, total, ret.
    destruct (randomUUID sess w1) as [rid w2]. cbn.
    destruct (randomUUID sess w2) as [sid w3]. cbn.
    destruct (Date_iso sess w3) as [ts w4]. cbn.
    destruct (randomUUID sess w4) as [fid w5]. cbn.
    destruct (Date_iso sess w5) as [fts w6]. cbn.
    destruct (Date_iso sess w6) as [cts w7]. cbn.
    eexists _, _. split; reflexivity.
  - exists res, w1. split; [reflexivity|].
    destruct (execute_runs wf ui w res w1 E) as (r & r' & H & _).
    eapply executeWorkflow_names_workflow, H.
Qed.

Lemma executeBatch_loop_results wfs uim acc w :
  exists more w',
    Agent.executeBatch_loop sess wfs uim acc w = (inr (acc ++ more)%list, w') /\
    map r_workflowId more = map w_id wfs.
Proof.
  revert acc w. induction wfs as [|wf rest IH]; intros acc w.
  - exists [], w. rewrite app_nil_r. split; reflexivity.
  - cbn [Agent.executeBatch_loop]. unfold bind.
    destruct (batch_item wf (uim ≫= (fun m => m !! w_id wf)) w)
      as (res & w1 & -> & N).
    destruct (IH (acc ++ [res])%list w1) as (more & w' & -> & M).
    exists (res :: more), w'. rewrite <- app_assoc. split; [reflexivity|].
    cbn. congruence.
Qed.

(** X11.  [executeBatch] never throws and returns one result per
    workflow, in the order of the workflows, each naming its workflow:
    also for a workflow whose run could not be saved. *)
Theorem batch_results_match_workflows wfs uim w :
  exists results w',
    Agent.executeBatch sess wfs uim w = (inr results, w') /\
    map r_workflowId results = map w_id wfs.
Proof.
  unfold Agent.executeBatch.
  destruct (executeBatch_loop_results wfs uim [] w) as (more & w' & E & M).
  exists more, w'. split; assumption.
Qed.

Lemma resume_runs wf st fromStep w res w' :
  Agent.resume sess wf st fromStep w = (inr res, w') ->
  exists partialWorkflow r r',
    w_id partialWorkflow = w_id wf /\
    steps partialWorkflow =
      List.filter (fun step => (fromStep <=? stepNumber step)%Z) (steps wf) /\
    executeWorkflow sess partialWorkflow (Some (variables st)) r = (inr res, r').
Proof.
  unfold Agent.resume. cbv zeta. unfold bind at 1.
  destruct (Agent.on_new_executor sess _ w) as [[e|[result fs]] w1] eqn:E;
    [discriminate|].
  unfold bind.
  destruct (Agent.saveExecutionResults sess result fs w1) as [[e|u] w2];
    [discriminate|].
  intros [= <- <-].
  destruct (on_new_executor_run _ _ _ _ _ E) as (r & r' & H & _).
  eexists _, r, r'. split; [|split; [|exact H]]; reflexivity.
Qed.

(** X12.  A resumed run touches the steps from [fromStep] on only: every
    outcome it records belongs to a step of the workflow whose number is at
    least [fromStep].  The result names the whole workflow, and unless its
    status is [failure] its final state defines every variable of the
    state resumed from. *)
Theorem resume_runs_later_steps_only wf st fromStep w res w' :
  Agent.resume sess wf st fromStep w = (inr res, w') ->
  r_workflowId res = w_id wf /\
  (forall o, In o (stepResults res) ->
     fromStep <= so_stepNumber o /\
     exists step, In step (steps wf) /\ stepNumber step = so_stepNumber o) /\
  (status res <> failure ->
   forall k, is_Some (variables st !! k) ->
             is_Some (variables (finalState res) !! k)).
Proof.
  intros H. destruct (resume_runs _ _ _ _ _ _ H) as (pw & r & r' & I & S & E).
  destruct (executeWorkflow_trace sess pw (Some (variables st)) r)
    as (res0 & r0 & E0 & _ & C).
  rewrite E in E0. injection E0 as <- <-.
  destruct C as [(_ & es & results & d & rid & ts & cts & -> & T & _ & _ & _
                    & _ & V)
                |(_ & e & d & rid & ts & cts & ->)].
  - split; [exact I|]. split.
    + intros o Ho. cbn in Ho.
      destruct (recorded_for_In _ _ _ T Ho) as (step & Hs & N).
      rewrite S in Hs. apply filter_In in Hs as [Hs L].
      split; [rewrite <- N; lia|]. exists step. split; assumption.
    + intros _ k Hk. cbn. apply V. cbn. rewrite lookup_union_is_Some.
      left. exact Hk.
  - split; [exact I|]. split; [intros o []|].
    intros F. exfalso. apply F. reflexivity.
Qed.

Lemma drop_prefix_startsWith p s :
  JS.startsWith p s = false -> JS.drop_prefix p s = None.
Proof.
  revert s. induction p as [|a p IH]; intros s; [discriminate|].
  destruct s as [|b s]; [reflexivity|]. cbn.
  destruct (Ascii.eqb a b); [apply IH|reflexivity].
Qed.

Lemma strip_png_header payload :
  Agent.strip_data_url ("data:image/png;base64," +:+ payload) = payload.
Proof. reflexivity. Qed.

(** X13.  Saving a screenshot undoes the encoding the [screenshot] step
    applies: the step records the session's picture as a PNG data URL, a
    non-empty string, and what [saveExecutionResults] writes for it, the
    URL without its header, is the very payload the session returned. *)
Theorem screenshot_payload_is_saved step r payload w1 :
  currentPage r = true -> action step = Some screenshot ->
  pw_screenshot sess (world r) = (inr payload, w1) ->
  exists url,
    sr_screenshot (attempt sess step r).1 = Some url /\
    JS.truthy (Some url) = true /\
    Agent.strip_data_url url = payload.
Proof.
  intros P A C.
  unfold attempt, executeStep, bind, get, try_catch. rewrite P, A. cbn.
  unfold executeScreenshot, bind, call. rewrite C. cbn.
  eexists. split; [reflexivity|]. split; [reflexivity|].
  apply strip_png_header.
Qed.

End WithSession.

End AgentFacts.

(** ** The executor and the agent on scripted sessions, continued *)

Module TraceExamples.
Import Exec Script.

(** X26, witness.  No step, on a session that starts. *)
Lemma empty_workflow_succeeds_witness :
  let wf := workflow_of [] in
  session_starts session (fresh []) /\ steps wf = [] /\
  exists res, run wf [] = Some res /\ status res = success.
Proof.
  cbv zeta.
  assert (S : session_starts session (fresh [])).
  { exists [], []. split; reflexivity. }
  split; [exact S|]. split; [reflexivity|].
  destruct (TraceFacts.empty_workflow_succeeds session (workflow_of []) None
              (fresh []) S eq_refl) as (res & r' & E & St & _).
  exists res. split; [unfold run; rewrite E; reflexivity|exact St].
Defined.

(** X7, witness.  A check that three rows are listed passes although the
    session is not asked anything. *)
Lemma unchecked_validation_passes_witness :
  let step :=
    {| stepNumber := 1; action := Some verify;
       description := "Three rows are listed";
       target := Some {| t_selector := Some "tr"; t_url := None;
                         t_value := None |};
       data := None;
       validation := Some {| v_type := count; v_expected := Some (JNum 3);
                             v_timeout := None |};
       errorHandling := None |} in
  let r := running [false] in
  currentPage r = true /\ action step = Some verify /\
  executeStep session step r = (inr (ok None), r).
Proof.
  cbv zeta. split; [reflexivity|]. split; [reflexivity|].
  apply TraceFacts.unchecked_validation_passes; [reflexivity|reflexivity|].
  right. eexists. split; [reflexivity|]. left. reflexivity.
Defined.

(** X8, witness.  The text read from [#total] is typed into [#amount]. *)
Lemma extracted_text_is_typed_witness :
  let s1 :=
    {| stepNumber := 1; action := Some extract; description := "Read the total";
       target := Some {| t_selector := Some "#total"; t_url := None;
                         t_value := None |};
       data := Some {| d_source := state; d_field := Some "total";
                       d_fakerMethod := None; d_value := None |};
       validation := None; errorHandling := None |} in
  let s2 :=
    {| stepNumber := 2; action := Some input; description := "Type the total";
       target := Some {| t_selector := Some "#amount"; t_url := None;
                         t_value := None |};
       data := Some {| d_source := user; d_field := Some "total";
                       d_fakerMethod := None; d_value := None |};
       validation := None; errorHandling := None |} in
  let r1 := (attempt session s1 (running [])).2 in
  variables (executionState r1) !! "total" = Some (JStr "ready") /\
  (attempt session s2 r1).1
    = ok (Some (JObj [("selector", JStr "#amount"); ("value", JStr "ready")])).
Proof.
  cbv zeta.
  match goal with |- context [attempt session ?s2 (attempt session ?s1 ?r).2] =>
    destruct (TraceFacts.extracted_text_is_typed session s1 s2 "total"
                (Some "ready") [] r
                eq_refl eq_refl eq_refl eq_refl eq_refl eq_refl
                eq_refl eq_refl eq_refl eq_refl) as (_ & V & H) end.
  split; [exact V|]. destruct (H [] eq_refl) as [E _]. exact E.
Defined.

(** X27, witness.  The variable [city] is not typed; the target's value
    is. *)
Lemma state_source_reads_no_variable_witness :
  let step :=
    {| stepNumber := 1; action := Some input; description := "Type the city";
       target := Some {| t_selector := Some "#city"; t_url := None;
                         t_value := Some "Paris" |};
       data := Some {| d_source := state; d_field := Some "city";
                       d_fakerMethod := None; d_value := None |};
       validation := None; errorHandling := None |} in
  let r := running [] in
  let r' := mkRun (world r) (currentPage r)
              (with_variables (executionState r) {[ "city" := JStr "Rome" ]})
              (run_stepResults r) in
  (attempt session step r').1
    = ok (Some (JObj [("selector", JStr "#city"); ("value", JStr "Paris")])).
Proof.
  cbv zeta.
  match goal with |- (attempt session ?step _).1 = _ =>
    destruct (TraceFacts.state_source_reads_no_variable session step
                (running []) {[ "city" := JStr "Rome" ]} eq_refl eq_refl)
      as (E & _ & H) end.
  cbv zeta in E. etransitivity; [exact E|].
  apply (H eq_refl eq_refl []). reflexivity.
Defined.

(** X9, witness.  A bound of zero: step 2 is not run. *)
Lemma retry_without_attempts_witness :
  let step := click_step 1 (policy retry (Some 0)) in
  let r := running [false; true] in
  sr_success (first_attempt session step r).1 = false /\
  exists r',
    run_steps session [step; click_step 2 None] r = (inr tt, r') /\
    map (fun o => (so_stepNumber o, so_status o)) (run_stepResults r')
      = [(1, StepFailure)].
Proof.
  cbv zeta. split; [reflexivity|].
  destruct (TraceFacts.retry_without_attempts session
              (click_step 1 (policy retry (Some 0)))
              {| strategy := retry; maxRetries := Some 0;
                 fallbackStepNumber := None |} 0
              [click_step 2 None] (running [false; true])
              eq_refl eq_refl eq_refl ltac:(lia) eq_refl) as [E _].
  eexists. split; [exact E|]. reflexivity.
Defined.

(** X10, witness.  Step 1 fails and is skipped; step 2 runs. *)
Lemma skip_policy_witness :
  let step := click_step 1 (policy skip None) in
  let r := running [false; true] in
  sr_success (first_attempt session step r).1 = false /\
  exists r',
    run_steps session [step; click_step 2 None] r = (inr tt, r') /\
    map (fun o => (so_stepNumber o, so_status o, so_error o))
        (run_stepResults r')
      = [(1, StepSkipped, Some "scripted failure"); (2, StepSuccess, None)].
Proof.
  cbv zeta. split; [reflexivity|].
  destruct (TraceFacts.skip_policy session
              (click_step 1 (policy skip None))
              {| strategy := skip; maxRetries := None;
                 fallbackStepNumber := None |}
              [click_step 2 None] (running [false; true])
              eq_refl eq_refl eq_refl) as [E _].
  eexists. split; [etransitivity; [exact E|vm_compute; reflexivity]|].
  reflexivity.
Defined.

(** X12, witness.  Resuming at step 2 of three. *)
Lemma resume_runs_later_steps_only_witness :
  let wf := workflow_of [click_step 1 None; click_step 2 None; click_step 3 None] in
  let st := executionState (fresh []) in
  exists res w',
    Agent.resume session wf st 2 [] = (inr res, w') /\
    map so_stepNumber (stepResults res) = [2; 3] /\
    forall o, In o (stepResults res) -> 2 <= so_stepNumber o.
Proof.
  cbv zeta. eexists _, _. split; [vm_compute; reflexivity|].
  split; [reflexivity|]. intros o Ho.
  match goal with Ho : In o (stepResults ?res) |- _ =>
    destruct (AgentFacts.resume_runs_later_steps_only session
                (workflow_of [click_step 1 None; click_step 2 None;
                              click_step 3 None])
                (executionState (fresh [])) 2 [] res [])
      as (_ & H & _); [vm_compute; reflexivity|] end.
  apply (H o Ho).
Defined.

(** X13, witness.  The scripted picture comes back. *)
Lemma screenshot_payload_is_saved_witness :
  let step :=
    {| stepNumber := 1; action := Some screenshot; description := "Take a picture";
       target := None; data := None; validation := None;
       errorHandling := None |} in
  exists url,
    sr_screenshot (attempt session step (running [])).1 = Some url /\
    Agent.strip_data_url url = "AAAA".
Proof.
  cbv zeta.
  match goal with |- context [attempt session ?step ?r] =>
    destruct (AgentFacts.screenshot_payload_is_saved session step r "AAAA" []
                eq_refl eq_refl eq_refl) as (url & E & _ & S) end.
  exists url. split; assumption.
Defined.

End TraceExamples.

(** ** [ConfidenceCalculator]: scores from counts *)

Module ScoreFacts.
Import ConfidenceCalculator CalculatorFacts.
Local Open Scope Q_scope.

Lemma max0_spec x : (x < 0 -> max0 x = 0) /\ (0 <= x -> max0 x = x).
Proof.
  unfold max0. destruct (Qltb x 0) eqn:E.
  - apply Qltb_lt in E. split; [reflexivity|]. intros H. exfalso. lra.
  - apply Qltb_ge in E. split; [|reflexivity]. intros H. exfalso. lra.
Qed.

Lemma min1_spec x : (1 < x -> min1 x = 1) /\ (x <= 1 -> min1 x = x).
Proof.
  unfold min1. destruct (Qltb 1 x) eqn:E.
  - apply Qltb_lt in E. split; [reflexivity|]. intros H. exfalso. lra.
  - apply Qltb_ge in E. split; [|reflexivity]. intros H. exfalso. lra.
Qed.

Lemma max0_range x : x <= 1 -> 0 <= max0 x <= 1.
Proof.
  intros H. destruct (Qlt_le_dec x 0) as [L|L].
  - rewrite (proj1 (max0_spec x) L). lra.
  - rewrite (proj2 (max0_spec x) L). lra.
Qed.

Lemma min1_range x : 0 <= x -> 0 <= min1 x <= 1.
Proof.
  intros H. destruct (Qlt_le_dec 1 x) as [L|L].
  - rewrite (proj1 (min1_spec x) L). lra.
  - rewrite (proj2 (min1_spec x) L). lra.
Qed.

Lemma inject_Z_pos (b : Z) : (0 < b)%Z -> 0 < inject_Z b.
Proof. intros H. change 0 with (inject_Z 0). rewrite <- Zlt_Qlt. exact H. Qed.

Lemma inject_Z_nonneg (a : Z) : (0 <= a)%Z -> 0 <= inject_Z a.
Proof. intros H. change 0 with (inject_Z 0). rewrite <- Zle_Qle. exact H. Qed.

(** [a / b] times [b] is [a]. *)
Lemma ratio_scale (a b : Z) :
  b <> 0%Z -> (inject_Z a / inject_Z b) * inject_Z b == inject_Z a.
Proof.
  intros H. rewrite Qmult_comm. apply Qmult_div_r. intros E.
  apply H. apply (inject_Z_injective b 0). exact E.
Qed.

(** [a / b] against a bound, for a positive [b]. *)
Lemma ratio_lt (a b : Z) (q : Q) :
  (0 < b)%Z ->
  (q < inject_Z a / inject_Z b <-> q * inject_Z b < inject_Z a).
Proof.
  intros H. pose proof (inject_Z_pos b H) as Hb.
  pose proof (ratio_scale a b ltac:(lia)) as E.
  set (x := inject_Z a / inject_Z b) in *. split; intros L.
  - rewrite <- E. apply Qmult_lt_compat_r; assumption.
  - apply Qnot_le_lt. intros G.
    pose proof (Qmult_le_compat_r _ _ (inject_Z b) G (Qlt_le_weak _ _ Hb)) as K.
    rewrite E in K. lra.
Qed.

Lemma ratio_nonneg (a b : Z) :
  (0 <= a)%Z -> (0 < b)%Z -> 0 <= inject_Z a / inject_Z b.
Proof.
  intros Ha Hb. apply Qle_shift_div_l; [apply inject_Z_pos, Hb|].
  pose proof (inject_Z_nonneg a Ha). lra.
Qed.

Lemma completeness_in_range (total items : Z) :
  (0 <= total)%Z -> (0 <= items)%Z ->
  0 <= calculateCompletenessFromIssues total items <= 1.
Proof.
  intros Ht Hi. unfold calculateCompletenessFromIssues.
  destruct (total =? 0)%Z eqn:E; [lra|]. apply Z.eqb_neq in E.
  pose proof (ratio_nonneg items total Hi ltac:(lia)) as R.
  apply max0_range. lra.
Qed.

Lemma accuracy_in_range (total items : Z) :
  (0 <= total)%Z -> (0 <= items)%Z ->
  0 <= calculateAccuracyFromErrors total items <= 1.
Proof. exact (completeness_in_range total items). Qed.

Lemma coverage_in_range (items total : Z) :
  (0 <= total)%Z -> (0 <= items)%Z ->
  0 <= calculateCoverageScore items total <= 1.
Proof.
  intros Ht Hi. unfold calculateCoverageScore.
  destruct (total =? 0)%Z eqn:E; [lra|]. apply Z.eqb_neq in E.
  apply min1_range. apply ratio_nonneg; lia.
Qed.

(** X14.  The scores derived from counts are valid scores: for a
    non-negative total and a non-negative number of missing, wrong or
    covered items, completeness, accuracy and coverage all lie in [0,1],
    so [calculate] accepts them; an empty total gives 1. *)
Theorem count_scores_in_range (total items : Z) :
  (0 <= total)%Z -> (0 <= items)%Z ->
  0 <= calculateCompletenessFromIssues total items <= 1 /\
  0 <= calculateAccuracyFromErrors total items <= 1 /\
  0 <= calculateCoverageScore items total <= 1 /\
  (total = 0%Z ->
   calculateCompletenessFromIssues total items = 1 /\
   calculateAccuracyFromErrors total items = 1 /\
   calculateCoverageScore items total = 1).
Proof.
  intros Ht Hi.
  split; [apply completeness_in_range; assumption|].
  split; [apply accuracy_in_range; assumption|].
  split; [apply coverage_in_range; assumption|].
  intros ->. repeat split.
Qed.

(** X14, witness.  Three of ten items missing. *)
Lemma count_scores_in_range_witness :
  0 <= calculateCompletenessFromIssues 10 3 <= 1 /\
  calculateCompletenessFromIssues 10 3 == 0.7.
Proof.
  split; [|reflexivity].
  apply (count_scores_in_range 10 3); lia.
Defined.

Lemma completeness_cases (T n : Z) :
  (0 <= n)%Z ->
  let c := calculateCompletenessFromIssues T n in
  ((0 <= T)%Z -> 0 <= c <= 1) /\
  ((T < 0)%Z -> n = 0%Z -> c == 1) /\
  ((T < 0)%Z -> (0 < n)%Z -> 1 < c) /\
  ((T = 0)%Z -> c = 1) /\
  ((0 < T)%Z -> (c < 19 # 45 <-> (26 * T < 45 * n)%Z)).
Proof.
  intros Hn c. subst c. unfold calculateCompletenessFromIssues.
  destruct (T =? 0)%Z eqn:E.
  - apply Z.eqb_eq in E. repeat split; intros; try lra; lia.
  - apply Z.eqb_neq in E.
    pose proof (ratio_scale n T E) as S.
    pose proof (inject_Z_nonneg n Hn) as Nn.
    set (x := inject_Z n / inject_Z T) in *.
    split; [|split; [|split; [|split]]].
    + intros HT. apply max0_range.
      pose proof (ratio_nonneg n T Hn ltac:(lia)). fold x in H. lra.
    + intros HT ->. assert (X : x == 0).
      { unfold x. change (inject_Z 0) with 0. unfold Qdiv. ring. }
      rewrite (proj2 (max0_spec (1 - x))) by lra. lra.
    + intros HT Hp.
      assert (Tn : inject_Z T < 0).
      { change 0 with (inject_Z 0). rewrite <- Zlt_Qlt. exact HT. }
      assert (Np : 0 < inject_Z n) by (apply inject_Z_pos; exact Hp).
      assert (X : x < 0).
      { apply Qnot_le_lt. intros G.
        assert (x * inject_Z T <= 0) by nra. lra. }
      rewrite (proj2 (max0_spec (1 - x))) by lra. lra.
    + intros ->. lia.
    + intros HT.
      pose proof (ratio_lt n T (26 # 45) HT) as R. fold x in R.
      assert (Z : (26 * T < 45 * n)%Z <-> (26 # 45) * inject_Z T < inject_Z n).
      { rewrite Zlt_Qlt, !inject_Z_mult.
        change (inject_Z 26) with 26. change (inject_Z 45) with 45.
        split; intros; lra. }
      rewrite Z, <- R.
      destruct (Qlt_le_dec (1 - x) 0) as [L|L].
      * rewrite (proj1 (max0_spec (1 - x)) L). split; intros; lra.
      * rewrite (proj2 (max0_spec (1 - x)) L). split; intros; lra.
Qed.

(** [quickScore] on [n] issues out of [T] expected: when it throws, when
    it asks for review and what it gives without issues. *)
Lemma quickScore_cases issues_ te :
  let T := default 10%Z te in
  let n := Z.of_nat (length issues_) in
  ((exists e, quickScore issues_ te = inl e) <-> (T < 0 /\ 0 < n)%Z) /\
  ((0 <= T)%Z ->
   exists s,
     quickScore issues_ te = inr s /\
     (humanReviewRequired s = true <-> (0 < T /\ 26 * T < 45 * n)%Z) /\
     (n = 0%Z -> overall s == 1)).
Proof.
  cbv zeta. set (T := default 10%Z te). set (n := Z.of_nat (length issues_)).
  assert (Hn : (0 <= n)%Z) by lia.
  destruct (completeness_cases T n Hn) as (C1 & C2 & C3 & C4 & C5).
  cbv zeta in *.
  unfold quickScore. cbv zeta. fold T. fold n.
  set (c := calculateCompletenessFromIssues T n) in *.
  match goal with |- context [calculate ?d ?w None] =>
    set (dims := d); set (why := w) end.
  assert (A : 0 <= accuracy dims <= 1 /\ 0 <= feasibility dims <= 1).
  { unfold dims. cbn [accuracy feasibility]. destruct (n =? 0)%Z; repeat split; lra. }
  assert (R : in_range dims <-> 0 <= c <= 1).
  { unfold in_range, values. cbn [completeness accuracy feasibility coverage dims].
    split.
    - intros H. inversion H; assumption.
    - intros H. repeat constructor; try apply H; apply A. }
  split.
  - unfold calculate. pose proof (check_range_None (values dims)) as K.
    fold (in_range dims) in K. rewrite R in K.
    destruct (check_range (values dims)) as [e|].
    + split; [intros _|intros _; eexists; reflexivity].
      destruct (Z_lt_le_dec T 0%Z) as [L|L].
      * split; [exact L|]. destruct (Z.eq_dec n 0%Z) as [N|N]; [|lia].
        exfalso. pose proof (C2 L N).
        assert (0 <= c <= 1) as B by lra. apply K in B. discriminate.
      * exfalso. pose proof (proj2 K (C1 L)). discriminate.
    + split; [intros [e [=]]|]. intros [L P]. exfalso.
      pose proof (C3 L P). pose proof (proj1 K eq_refl). lra.
  - intros HT. pose proof (proj2 R (C1 HT)) as IR.
    rewrite (calculate_in_range dims why None IR). eexists.
    split; [reflexivity|]. cbn [humanReviewRequired overall default].
    assert (W : weighted_sum dims == (45 # 100) * c
                 + (3 # 10) * accuracy dims + (1 # 4) * feasibility dims).
    { unfold weighted_sum, weights. cbn. ring. }
    split.
    + rewrite !orb_true_iff, !Qltb_lt, W. cbn [accuracy feasibility dims].
      destruct (n =? 0)%Z eqn:E.
      * apply Z.eqb_eq in E.
        assert (Ec : c == 1).
        { destruct (Z.eq_dec T 0%Z) as [Z|Z]; [rewrite (C4 Z); reflexivity|].
          unfold c, calculateCompletenessFromIssues.
          apply Z.eqb_neq in Z. rewrite Z, E.
          assert (X : inject_Z 0 / inject_Z T == 0).
          { change (inject_Z 0) with 0. unfold Qdiv. ring. }
          rewrite (proj2 (max0_spec _)) by lra. lra. }
        split; [intros [[H|H]|H]; exfalso; lra|lia].
      * apply Z.eqb_neq in E. destruct (Z.eq_dec T 0%Z) as [Z|Z].
        -- rewrite (C4 Z). split; [intros [[H|H]|H]; exfalso; lra|lia].
        -- rewrite <- (C5 ltac:(lia)). split.
           ++ intros [[H|H]|H]; [|exfalso; lra|exfalso; lra].
              split; [lia|lra].
           ++ intros [_ H]. left. left. lra.
    + intros E. apply Z.eqb_eq in E.
      assert (c == 1 /\ accuracy dims == 1 /\ feasibility dims == 1)
        as (Ec & Ea & Ef).
      { cbn. rewrite E. split; [|split; reflexivity].
        apply Z.eqb_eq in E.
        destruct (Z.eq_dec T 0%Z) as [Z|Z]; [rewrite (C4 Z); reflexivity|].
        unfold c, calculateCompletenessFromIssues.
        apply Z.eqb_neq in Z. rewrite Z, E.
        assert (X : inject_Z 0 / inject_Z T == 0).
        { change (inject_Z 0) with 0. unfold Qdiv. ring. }
        rewrite (proj2 (max0_spec _)) by lra. lra. }
      assert (S1 : weighted_sum dims == 1).
      { rewrite W, Ec, Ea, Ef. reflexivity. }
      pose proof (Math_round_spec (weighted_sum dims * 1000)) as [L U].
      set (m := Math_round (weighted_sum dims * 1000)) in *.
      assert (H1 : 999 < inject_Z m) by lra.
      assert (H2 : inject_Z m < 1001) by lra.
      change 999 with (inject_Z 999) in H1.
      change 1001 with (inject_Z 1001) in H2.
      rewrite <- Zlt_Qlt in H1, H2.
      assert (m = 1000%Z) as -> by lia. reflexivity.
Qed.


End ScoreFacts.

(** ** [CritiqueEngine] *)

Module CritiqueFacts.
Import ConfidenceCalculator CalculatorFacts CritiqueEngine.
Local Open Scope Q_scope.

(** Up to two issues out of five expected: no review is asked for and the
    overall confidence is at least 0.68. *)
Lemma quickScore_of_five l :
  (length l <= 2)%nat ->
  exists s,
    quickScore l (Some 5%Z) = inr s /\
    humanReviewRequired s = false /\ 0.68 <= overall s.
Proof.
  intros H. destruct l as [|a [|b [|c l]]]; [| | |cbn in H; lia];
    (eexists; split; [reflexivity|]; split;
     [vm_compute; reflexivity|vm_compute; discriminate]).
Qed.

Lemma execute_issues_cases res :
  (length (execute_issues res) <= 2)%nat /\
  (existsb (fun i => match severity i with critical => true | _ => false end)
     (execute_issues res) = true <-> stepResults res = []).
Proof.
  unfold execute_issues.
  destruct (status res);
    try destruct (existsb _ (stepResults res));
    destruct (stepResults res) as [|o l]; cbn;
    (split; [lia|split; [try discriminate; reflexivity|try discriminate; reflexivity]]).
Qed.

(** X17.  [critiqueExecute] never throws, raises at most two issues and
    never sets the review flag of the confidence it computes.  For an
    engine whose threshold is at most 0.68 (the default is 0.6),
    [requiresHumanReview] holds of its critique exactly when the execution
    result records no step outcome at all: a failed run that recorded
    outcomes is not sent to review. *)
Theorem critiqueExecute_review engine now res :
  humanReviewThreshold engine <= 0.68 ->
  exists c,
    critiqueExecute now res = inr c /\
    phaseId c = PhaseExecute /\
    (length (issues c) <= 2)%nat /\
    humanReviewRequired (confidence c) = false /\
    (requiresHumanReview engine c = true <-> stepResults res = []).
Proof.
  intros Hth. unfold critiqueExecute. cbv zeta.
  destruct (execute_issues_cases res) as [L C].
  destruct (quickScore_of_five (map i_description (execute_issues res)))
    as (s & -> & F & O); [rewrite length_map; exact L|].
  eexists. split; [reflexivity|]. split; [reflexivity|].
  split; [exact L|]. split; [exact F|].
  unfold requiresHumanReview. cbn [confidence issues]. rewrite F.
  assert (Qltb (overall s) (humanReviewThreshold engine) = false) as ->.
  { apply Qltb_ge. lra. }
  cbn [orb]. exact C.
Qed.

(** X17, witness.  The default engine on the result of a failed launch. *)
Lemma critiqueExecute_review_witness :
  let engine := constructor None in
  humanReviewThreshold engine <= 0.68 /\
  exists c,
    critiqueExecute "2024-01-01T00:00:00.000Z" Script.launch_failure = inr c /\
    requiresHumanReview engine c = true.
Proof.
  cbv zeta. split; [vm_compute; discriminate|].
  destruct (critiqueExecute_review (constructor None)
              "2024-01-01T00:00:00.000Z" Script.launch_failure)
    as (c & E & _ & _ & _ & R); [vm_compute; discriminate|].
  exists c. split; [exact E|]. apply R. reflexivity.
Defined.

End CritiqueFacts.

(** ** [SOPParser.validate] and [critiqueOrchestrate] *)

Module AcceptFacts.
Import SOPParser ValidateFacts.

Lemma name_errors_nil wf : name_errors wf = [] <-> name wf <> "".
Proof.
  unfold name_errors. destruct (String.eqb_spec (name wf) "") as [E|E].
  - split; [discriminate|]. intros H. contradiction.
  - split; [intros _; exact E|reflexivity].
Qed.

Lemma count_errors_nil wf : count_errors wf = [] <-> steps wf <> [].
Proof.
  unfold count_errors. destruct (steps wf) as [|s l]; cbn.
  - split; [discriminate|]. intros H. contradiction.
  - split; [discriminate|reflexivity].
Qed.

Lemma field_errors_nil i l :
  field_errors i l = [] <->
  Forall (fun s => action s <> None /\ description s <> "") l.
Proof.
  revert i. induction l as [|s l IH]; intros i; cbn [field_errors].
  - split; [constructor|reflexivity].
  - destruct (action s) as [a|] eqn:A; cbn [app].
    + destruct (String.eqb_spec (description s) "") as [E|E]; cbn [app].
      * split; [discriminate|]. intros H. inversion H; tauto.
      * rewrite IH. split.
        -- intros H. constructor; [split; [rewrite A; discriminate|exact E]|exact H].
        -- intros H. inversion H; assumption.
    + split; [discriminate|]. intros H. inversion H; tauto.
Qed.

(** The error of a step without action names its position, counted
    from 1. *)
Lemma field_errors_action i l (k : nat) s :
  l !! k = Some s -> action s = None ->
  ("Step " +:+ pretty (i + Z.of_nat k + 1) +:+ " missing action")
    ∈ field_errors i l.
Proof.
  revert i k. induction l as [|s0 l IH]; intros i k L A; [discriminate|].
  cbn [field_errors]. destruct k as [|k]; cbn in L.
  - injection L as ->. rewrite A. cbn [app].
    replace (i + Z.of_nat 0 + 1) with (i + 1) by lia. apply list_elem_of_here.
  - rewrite !elem_of_app. right. right.
    replace (i + Z.of_nat (S k) + 1) with (i + 1 + Z.of_nat k + 1) by lia.
    apply IH; assumption.
Qed.

Lemma numbering_errors_nil ps :
  numbering_errors 0 (sort_numbers ps) = [] <-> contiguous ps.
Proof.
  split; [|apply contiguous_no_gap].
  intros H. apply contiguous_sorted.
  destruct (decide (sort_numbers ps = upto (length ps))) as [E|E]; [exact E|].
  exfalso. rewrite <- contiguous_sorted in E.
  destruct (first_gap_exists ps E) as (k & M & rest & _ & _ & G).
  rewrite H in G. discriminate.
Qed.

Lemma errors_nil wf :
  errors (validate wf) = [] <->
  name_errors wf = [] /\ count_errors wf = [] /\
  numbering_errors 0 (sort_numbers (map stepNumber (steps wf))) = [] /\
  field_errors 0 (steps wf) = [].
Proof.
  cbn [errors validate]. rewrite !app_nil. tauto.
Qed.

Lemma isValid_errors wf : isValid (validate wf) = true <-> errors (validate wf) = [].
Proof.
  cbn [isValid validate errors].
  match goal with |- context [length ?l] => destruct l end; cbn;
    split; congruence.
Qed.

(** X18.  [validate] accepts a workflow exactly when it has a name and at
    least one step, its step numbers are 1, ..., n in some order, and every
    step has an action and a description; it accepts exactly when it
    reports no error.  A step without action, the k-th of the workflow, is
    reported as "Step k missing action". *)
Theorem validate_accepts wf :
  (isValid (validate wf) = true <->
     name wf <> "" /\ steps wf <> [] /\
     contiguous (map stepNumber (steps wf)) /\
     Forall (fun s => action s <> None /\ description s <> "") (steps wf)) /\
  (isValid (validate wf) = true <-> errors (validate wf) = []) /\
  (forall (k : nat) s,
     steps wf !! k = Some s -> action s = None ->
     ("Step " +:+ pretty (Z.of_nat k + 1) +:+ " missing action")
       ∈ errors (validate wf)).
Proof.
  split; [|split; [apply isValid_errors|]].
  - rewrite isValid_errors, errors_nil, name_errors_nil, count_errors_nil,
      numbering_errors_nil, field_errors_nil. reflexivity.
  - intros k s L A. cbn [errors validate]. rewrite !elem_of_app.
    right. right. right. apply (field_errors_action 0 _ k s L A).
Qed.

Lemma step_issues_nil i l :
  CritiqueEngine.step_issues i l = [] <->
  Forall (fun s => action s <> None /\ description s <> "") l.
Proof.
  revert i. induction l as [|s l IH]; intros i; cbn [CritiqueEngine.step_issues].
  - split; [constructor|reflexivity].
  - destruct (action s) as [a|] eqn:A; cbn [app].
    + destruct (String.eqb_spec (description s) "") as [E|E]; cbn [app].
      * split; [discriminate|]. intros H. inversion H; tauto.
      * rewrite IH. split.
        -- intros H. constructor; [split; [rewrite A; discriminate|exact E]|exact H].
        -- intros H. inversion H; assumption.
    + split; [discriminate|]. intros H. inversion H; tauto.
Qed.

(** The issue of a step without action is of high severity and names the
    position of the step, counted from 0. *)
Lemma step_issues_action i l (k : nat) s :
  l !! k = Some s -> action s = None ->
  CritiqueEngine.toIssue
    ("步骤 " +:+ pretty (i + Z.of_nat k) +:+ " 缺少动作类型") (Some high)
    ∈ CritiqueEngine.step_issues i l.
Proof.
  revert i k. induction l as [|s0 l IH]; intros i k L A; [discriminate|].
  cbn [CritiqueEngine.step_issues]. destruct k as [|k]; cbn in L.
  - injection L as ->. rewrite A. cbn [app].
    replace (i + Z.of_nat 0) with i by lia. apply list_elem_of_here.
  - rewrite !elem_of_app. right. right.
    replace (i + Z.of_nat (S k)) with (i + 1 + Z.of_nat k) by lia.
    apply IH; assumption.
Qed.

Lemma orchestrate_issues_nil wf :
  CritiqueEngine.orchestrate_issues wf = [] <->
  name wf <> "" /\ steps wf <> [] /\
  Forall (fun s => action s <> None /\ description s <> "") (steps wf).
Proof.
  unfold CritiqueEngine.orchestrate_issues.
  rewrite !app_nil, step_issues_nil, <- name_errors_nil, <- count_errors_nil.
  unfold name_errors, count_errors.
  destruct (String.eqb (name wf) ""); destruct (length (steps wf) =? 0)%nat;
    intuition congruence.
Qed.

(** X19.  [critiqueOrchestrate] never throws.  It raises no issue exactly
    when the workflow has a name, at least one step, and an action and a
    description on every step; step numbers are not looked at.  A step
    without action, at index k from 0, gets the issue of high severity
    "步骤 k 缺少动作类型".  Its confidence asks for review exactly from six
    issues on.  Every workflow [validate] accepts gets no issue and an
    overall confidence of 1. *)
Theorem critiqueOrchestrate_issues now wf :
  exists c,
    CritiqueEngine.critiqueOrchestrate now wf = inr c /\
    phaseId c = PhaseOrchestrate /\
    (issues c = [] <->
       name wf <> "" /\ steps wf <> [] /\
       Forall (fun s => action s <> None /\ description s <> "") (steps wf)) /\
    (forall (k : nat) s,
       steps wf !! k = Some s -> action s = None ->
       {| severity := high;
          i_description := "步骤 " +:+ pretty (Z.of_nat k) +:+ " 缺少动作类型";
          suggestion := None |} ∈ issues c) /\
    (humanReviewRequired (confidence c) = true <->
       (6 <= length (issues c))%nat) /\
    (isValid (validate wf) = true ->
     issues c = [] /\ (overall (confidence c) == 1)%Q).
Proof.
  unfold CritiqueEngine.critiqueOrchestrate. cbv zeta.
  destruct (ScoreFacts.quickScore_cases
              (map i_description (CritiqueEngine.orchestrate_issues wf))
              (Some 10)) as [_ H].
  cbv zeta in H. destruct (H ltac:(cbn; lia)) as (s & -> & R & O).
  rewrite length_map in R, O.
  change (default 10%Z (Some 10%Z)) with 10%Z in R.
  eexists. split; [reflexivity|]. split; [reflexivity|].
  cbn [issues confidence].
  split; [apply orchestrate_issues_nil|].
  split.
  { intros k st L A. unfold CritiqueEngine.orchestrate_issues.
    rewrite !elem_of_app. right. right.
    apply (step_issues_action 0 _ k st L A). }
  split; [rewrite R; lia|].
  intros V. apply isValid_errors, errors_nil in V as (V1 & V2 & _ & V4).
  assert (E : CritiqueEngine.orchestrate_issues wf = []).
  { apply orchestrate_issues_nil. rewrite <- name_errors_nil,
      <- count_errors_nil, <- (field_errors_nil 0). auto. }
  split; [exact E|]. apply O. rewrite E. reflexivity.
Qed.

(** X19, witness.  A workflow [validate] accepts. *)
Lemma critiqueOrchestrate_issues_witness :
  let wf := numbered [2; 1] in
  isValid (validate wf) = true /\
  exists c,
    CritiqueEngine.critiqueOrchestrate "2024-01-01T00:00:00.000Z" wf = inr c /\
    issues c = [].
Proof.
  cbv zeta. split; [reflexivity|].
  destruct (critiqueOrchestrate_issues "2024-01-01T00:00:00.000Z"
              (numbered [2; 1])) as (c & E & _ & _ & _ & _ & H).
  exists c. split; [exact E|]. apply H. reflexivity.
Defined.

End AcceptFacts.

(** ** [CognitiveQuadrantManager]: escalation and recommendation *)

Module EscalationFacts.
Import ConfidenceCalculator CalculatorFacts CognitiveQuadrantManager.
Local Open Scope Q_scope.

Lemma Qle_bool_false a b : Qle_bool a b = false <-> b < a.
Proof.
  split.
  - intros H. apply Qnot_le_lt. intros L. apply Qle_bool_iff in L. congruence.
  - intros H. destruct (Qle_bool a b) eqn:E; [|reflexivity].
    apply Qle_bool_iff in E. exfalso. lra.
Qed.

(** Turns the comparisons of the manager into inequalities. *)
Ltac compare :=
  repeat match goal with
  | H : Qltb _ _ = true |- _ => apply Qltb_lt in H
  | H : Qltb _ _ = false |- _ => apply Qltb_ge in H
  | H : Qle_bool _ _ = true |- _ => apply Qle_bool_iff in H
  | H : Qle_bool _ _ = false |- _ => apply Qle_bool_false in H
  end.

(** X20.  With the thresholds in their intended order
    (autoCorrect <= requireReview <= autoApprove, autoCorrect <= 0.9), in
    every mode the recommendation is [reject] exactly when the overall
    confidence is below [autoCorrect]. *)
Theorem reject_below_autoCorrect config c :
  ordered (thresholds config) ->
  (rec_action (getRecommendedAction config c) = reject <->
   overall (confidence c) < autoCorrect (thresholds config)).
Proof.
  intros (O1 & O2 & O3).
  unfold getRecommendedAction, shouldEscalateToHuman, shouldAttemptAutoCorrect.
  cbv zeta.
  destruct (mode config);
    repeat match goal with
    | |- context [if ?b then _ else _] =>
        lazymatch b with
        | context [if _ then _ else _] => fail
        | _ => destruct b eqn:?
        end; cbn [shouldEscalate rec_action reason andb]
    end;
    compare;
    try (split; [discriminate|intros; exfalso; lra]);
    try (split; [intros _; assumption|reflexivity]).
  all: try (apply andb_prop in Heqb as [? ?]; compare).
  all: try (split; [discriminate|intros; exfalso; lra]).
Qed.

(** X20, witness.  The default configuration rejects a critique of
    confidence 0.4. *)
Lemma reject_below_autoCorrect_witness :
  let config := constructor None None None in
  ordered (thresholds config) /\
  rec_action (getRecommendedAction config (critique_with 0.4 [])) = reject.
Proof.
  cbv zeta.
  assert (O : ordered (thresholds (constructor None None None))).
  { repeat split; vm_compute; discriminate. }
  split; [exact O|].
  apply (reject_below_autoCorrect (constructor None None None)
           (critique_with 0.4 []) O).
  reflexivity.
Defined.

Lemma critical_has_issue c :
  hasCriticalErrors c = true -> (length (issues c) =? 0)%nat = false.
Proof.
  unfold hasCriticalErrors. destruct (issues c); [discriminate|reflexivity].
Qed.

(** X21.  What a critical issue does in each mode.  In autonomous and in
    manual mode the critique is always escalated.  In supervised mode it
    is escalated exactly when the overall confidence is below
    [autoApprove]; in collaborative mode it can be escalated only then.
    So in these two modes a confidence of [autoApprove] or more lets a
    critique with a critical issue pass without escalation. *)
Theorem critical_issue_by_mode config c :
  hasCriticalErrors c = true ->
  let escalated := shouldEscalate (shouldEscalateToHuman config c) in
  let conf := overall (confidence c) in
  (mode config = autonomous \/ mode config = manual -> escalated = true) /\
  (mode config = supervised ->
   (escalated = true <-> conf < autoApprove (thresholds config))) /\
  (mode config = collaborative ->
   (escalated = true -> conf < autoApprove (thresholds config)) /\
   (conf < requireReview (thresholds config) ->
    conf < autoApprove (thresholds config) -> escalated = true)).
Proof.
  intros K. pose proof (critical_has_issue c K) as N. cbv zeta.
  unfold shouldEscalateToHuman. cbv zeta.
  split; [|split].
  - intros [-> | ->].
    + rewrite K. destruct (Qltb _ _); reflexivity.
    + rewrite N, andb_false_r. reflexivity.
  - intros ->. rewrite K.
    destruct (Qle_bool _ _) eqn:A; [|destruct (Qltb _ _) eqn:B];
      cbn [shouldEscalate]; compare.
    + split; [discriminate|]. intros. exfalso. lra.
    + split; [intros _; assumption|reflexivity].
    + split; [intros _; assumption|reflexivity].
  - intros ->.
    destruct (Qle_bool _ _) eqn:A; [|destruct (Qltb _ _) eqn:B];
      cbn [shouldEscalate]; compare.
    + split; [discriminate|]. intros. exfalso. lra.
    + split; [intros _; assumption|reflexivity].
    + split; [intros _; assumption|]. intros. exfalso. lra.
Qed.

(** X21, witness.  Supervised mode, one critical issue, confidence 0.85:
    no escalation, and the recommendation is to approve. *)
Lemma critical_issue_by_mode_witness :
  let config := constructor (Some supervised) None None in
  let c :=
    critique_with 0.85
      [ {| severity := critical; i_description := "Payment is charged twice";
           suggestion := None |} ] in
  hasCriticalErrors c = true /\
  shouldEscalate (shouldEscalateToHuman config c) = false /\
  rec_action (getRecommendedAction config c) = approve.
Proof.
  cbv zeta. split; [reflexivity|]. split; [|reflexivity].
  match goal with |- shouldEscalate (shouldEscalateToHuman ?config ?c) = _ =>
    destruct (critical_issue_by_mode config c eq_refl) as (_ & H & _) end.
  cbv zeta in H. destruct (H eq_refl) as [H1 _].
  destruct (shouldEscalate _) eqn:E; [|reflexivity].
  specialize (H1 eq_refl). vm_compute in H1. discriminate H1.
Defined.

Lemma points_consulted config c points :
  Qltb (overall (confidence c)) (requireReview (thresholds config)) = false ->
  checkInterventionPoints_loop config c points
    = checkInterventionPoints_loop config c (List.filter consulted points).
Proof.
  intros L. induction points as [|p points IH]; [reflexivity|].
  destruct p; cbn [checkInterventionPoints_loop List.filter consulted];
    rewrite ?L; try exact IH.
  - destruct (0 <? length (issues c))%nat; [reflexivity|exact IH].
  - destruct (hasCriticalErrors c); [reflexivity|exact IH].
Qed.

Lemma points_loop_config config config' c points :
  thresholds config' = thresholds config ->
  checkInterventionPoints_loop config' c points
    = checkInterventionPoints_loop config c points.
Proof.
  intros E. induction points as [|p points IH]; [reflexivity|].
  cbn [checkInterventionPoints_loop]. rewrite E, IH. reflexivity.
Qed.

(** X22.  The configured intervention points decide nothing outside
    collaborative mode, and in collaborative mode only [on_error] and
    [on_critical_issue] count: replacing the points by others leaves the
    escalation verdict and its reason unchanged in autonomous, supervised
    and manual mode, and in collaborative mode whenever the two lists have
    the same [on_error] and [on_critical_issue] entries. *)
Theorem escalation_ignores_points config points c :
  (mode config <> collaborative \/
   List.filter consulted points
     = List.filter consulted (humanInterventionPoints config)) ->
  shouldEscalateToHuman (with_points config points) c
    = shouldEscalateToHuman config c.
Proof.
  intros H. unfold shouldEscalateToHuman. cbv zeta.
  change (mode (with_points config points)) with (mode config).
  change (thresholds (with_points config points)) with (thresholds config).
  destruct (mode config) eqn:M; try reflexivity.
  destruct H as [H|H]; [contradiction|].
  destruct (Qle_bool _ _); [reflexivity|].
  destruct (Qltb _ _) eqn:L; [reflexivity|].
  unfold checkInterventionPoints.
  change (humanInterventionPoints (with_points config points)) with points.
  rewrite (points_loop_config config (with_points config points) c points
             eq_refl).
  rewrite (points_consulted config c points L), H,
    <- (points_consulted config c _ L). reflexivity.
Qed.

(** X22, witness.  Collaborative mode: dropping [on_low_confidence] from
    the default points changes nothing. *)
Lemma escalation_ignores_points_witness :
  let config := constructor (Some collaborative) None None in
  let c := critique_with 0.7 [low_issue] in
  shouldEscalateToHuman (with_points config [on_critical_issue]) c
    = shouldEscalateToHuman config c.
Proof.
  cbv zeta. apply escalation_ignores_points. right. reflexivity.
Defined.

End EscalationFacts.

(** ** [SOPParser.merge] *)

Module MergeFacts.
Import SOPParser ValidateFacts AcceptFacts.

Lemma fold_push_renumbered l n acc :
  exists added,
    fold_left push_renumbered l (n, acc)
      = (n + Z.of_nat (length l), (acc ++ added)%list) /\
    map stepNumber added = map (fun i => n + Z.of_nat i) (seq 0 (length l)) /\
    Forall2 (fun s' s => s' = renumbered s (stepNumber s')) added l.
Proof.
  revert n acc. induction l as [|s l IH]; intros n acc.
  - exists []. cbn. rewrite Z.add_0_r, app_nil_r. repeat split. constructor.
  - cbn [fold_left]. unfold push_renumbered at 2. cbn [fst snd].
    destruct (IH (n + 1) (acc ++ [renumbered s n])%list)
      as (added & -> & N & F).
    exists (renumbered s n :: added). split; [|split].
    + rewrite <- app_assoc. cbn [length]. f_equal. lia.
    + cbn [length seq map stepNumber renumbered]. rewrite N, Z.add_0_r.
      f_equal. rewrite <- seq_shift, map_map. apply map_ext. intros i. lia.
    + constructor; [reflexivity|exact F].
Qed.

Lemma offsets_shift (n : Z) k m :
  map (fun i => n + Z.of_nat i) (seq k m)
    = map (fun i => n + Z.of_nat k + Z.of_nat i) (seq 0 m).
Proof.
  revert n k. induction m as [|m IH]; intros n k; [reflexivity|].
  cbn [seq map]. f_equal; [lia|].
  rewrite (IH n (S k)), (IH (n + Z.of_nat k) 1%nat).
  apply map_ext. intros i. lia.
Qed.

Lemma fold_merge_steps wfs n acc :
  exists added,
    fold_left
      (fun acc workflow => fold_left push_renumbered (steps workflow) acc)
      wfs (n, acc)
      = (n + Z.of_nat (length (flat_map steps wfs)), (acc ++ added)%list) /\
    map stepNumber added
      = map (fun i => n + Z.of_nat i) (seq 0 (length (flat_map steps wfs))) /\
    Forall2 (fun s' s => s' = renumbered s (stepNumber s')) added
      (flat_map steps wfs).
Proof.
  revert n acc. induction wfs as [|w wfs IH]; intros n acc.
  - exists []. cbn. rewrite Z.add_0_r, app_nil_r. repeat split. constructor.
  - cbn [fold_left flat_map].
    destruct (fold_push_renumbered (steps w) n acc) as (a1 & -> & N1 & F1).
    destruct (IH (n + Z.of_nat (length (steps w))) (acc ++ a1)%list)
      as (a2 & -> & N2 & F2).
    exists (a1 ++ a2)%list. split; [|split].
    + rewrite <- app_assoc, length_app. f_equal. lia.
    + rewrite map_app, N1, N2, length_app, seq_app, map_app. f_equal.
      symmetry. apply offsets_shift.
    + apply Forall2_app; assumption.
Qed.

Lemma merge_steps_spec wfs :
  map stepNumber (merge_steps wfs) = upto (length (flat_map steps wfs)) /\
  Forall2 (fun s' s => s' = renumbered s (stepNumber s')) (merge_steps wfs)
    (flat_map steps wfs).
Proof.
  unfold merge_steps.
  destruct (fold_merge_steps wfs 1 []) as (added & -> & N & F).
  cbn [snd app]. split; [|exact F].
  rewrite N. unfold upto. rewrite <- seq_shift, map_map.
  apply map_ext. intros i. lia.
Qed.

Lemma distinct_acc (l seen : list string) :
  NoDup seen ->
  let out :=
    fold_left
      (fun seen t => if bool_decide (t ∈ seen) then seen else (seen ++ [t])%list)
      l seen in
  NoDup out /\ forall t, t ∈ out <-> t ∈ seen \/ t ∈ l.
Proof.
  revert seen. induction l as [|x l IH]; intros seen H; cbv zeta.
  - cbn. split; [exact H|]. intros t. rewrite elem_of_nil. tauto.
  - cbn [fold_left]. destruct (bool_decide_reflect (x ∈ seen)) as [I|I].
    + destruct (IH seen H) as [N E]. split; [exact N|].
      intros t. rewrite (E t), elem_of_cons. split; [tauto|].
      intros [K|[->|K]]; tauto.
    + assert (H' : NoDup (seen ++ [x])).
      { apply NoDup_app. split; [exact H|]. split; [|apply NoDup_singleton].
        intros y Hy Hx. apply list_elem_of_singleton in Hx. congruence. }
      destruct (IH _ H') as [N E]. split; [exact N|].
      intros t. rewrite (E t), elem_of_app, list_elem_of_singleton, elem_of_cons.
      tauto.
Qed.

Lemma upto_lookup_Some n (k : nat) p :
  upto n !! k = Some p -> p = Z.of_nat k + 1.
Proof.
  unfold upto. rewrite list_lookup_fmap.
  destruct (seq 1 n !! k) as [i|] eqn:E; [|discriminate].
  apply lookup_seq in E as [-> _]. cbn. intros [= <-]. lia.
Qed.

(** X23.  [merge] numbers the steps of the given workflows 1, 2, ..., n in
    the order in which they are given: the step at index k gets number
    k + 1.  Action, description, target, data, validation and error
    handling of every step are those of the step it was copied from (a
    fallback target, for one, keeps its old number).  [validate] accepts
    the merged workflow exactly when the new name is not empty, there is
    at least one step and every step has an action and a description: the
    numbering never stands in the way.  Its tags are those of the given
    workflows, each once. *)
Theorem merge_renumbers env wfs name_ :
  let merged := merge env wfs name_ in
  let all := flat_map steps wfs in
  length (steps merged) = length all /\
  (forall (k : nat) s',
     steps merged !! k = Some s' -> stepNumber s' = Z.of_nat k + 1) /\
  Forall2
    (fun s' s =>
       action s' = action s /\ description s' = description s /\
       target s' = target s /\ data s' = data s /\
       validation s' = validation s /\ errorHandling s' = errorHandling s)
    (steps merged) all /\
  (isValid (validate merged) = true <->
     name_ <> "" /\ all <> [] /\
     Forall (fun s => action s <> None /\ description s <> "") all) /\
  NoDup (tags merged) /\
  (forall t, t ∈ tags merged <-> exists w, w ∈ wfs /\ t ∈ tags w).
Proof.
  cbv zeta. destruct (merge_steps_spec wfs) as [N F].
  cbn [steps tags merge name].
  assert (L : length (merge_steps wfs) = length (flat_map steps wfs)).
  { apply (Forall2_length _ _ _ F). }
  assert (C : contiguous (map stepNumber (merge_steps wfs))).
  { unfold contiguous. rewrite length_map, L, N. reflexivity. }
  split; [exact L|]. split; [|split; [|split; [|split]]].
  - intros k s' K. apply (upto_lookup_Some (length (flat_map steps wfs)) k).
    rewrite <- N, list_lookup_fmap, K. reflexivity.
  - clear -F. induction F as [|s' s l' l E F IH]; constructor; [|exact IH].
    rewrite E. cbn. repeat split.
  - rewrite isValid_errors, errors_nil, name_errors_nil, count_errors_nil,
      numbering_errors_nil, field_errors_nil.
    cbn [steps merge name].
    assert (D : Forall (fun s => action s <> None /\ description s <> "")
                  (merge_steps wfs) <->
                Forall (fun s => action s <> None /\ description s <> "")
                  (flat_map steps wfs)).
    { clear -F. induction F as [|s' s l' l E F IH].
      - split; constructor.
      - assert (description s' = description s) as Ed by (rewrite E; reflexivity).
        assert (action s' = action s) as Ea by (rewrite E; reflexivity).
        split; intros H; inversion H; subst; constructor;
          try (apply IH; assumption); rewrite ?Ed, ?Ea in *; assumption. }
    assert (E : merge_steps wfs <> [] <-> flat_map steps wfs <> []).
    { destruct (merge_steps wfs), (flat_map steps wfs);
        cbn in L; try discriminate; split; congruence. }
    rewrite D, E. tauto.
  - apply (distinct_acc (flat_map tags wfs) [] NoDup_nil_2).
  - intros t.
    destruct (distinct_acc (flat_map tags wfs) [] NoDup_nil_2) as [_ E].
    cbv zeta in E. unfold distinct. rewrite (E t), elem_of_nil.
    rewrite list_elem_of_In, in_flat_map. split.
    + intros [[]|(w & Hw & Ht)]. exists w.
      rewrite !list_elem_of_In. split; assumption.
    + intros (w & Hw & Ht). right. exists w.
      rewrite <- !list_elem_of_In. split; assumption.
Qed.

End MergeFacts.

(** ** [SOPParser.fromMarkdown]: what a parsed workflow looks like *)

Module ParsedFacts.
Import SOPParser RoundTripFacts.

Lemma ap_inr {A B} (f : Zod.Result (A -> B)) (x : Zod.Result A) b :
  Zod.ap f x = inr b -> exists g a, f = inr g /\ x = inr a /\ b = g a.
Proof.
  destruct f as [e|g], x as [e'|a]; cbn; intros [=]. subst.
  exists g, a. repeat split.
Qed.












Lemma read_input_steps line st : p_steps (read_input line st) = p_steps st.
Proof.
  unfold read_input. repeat case_match; reflexivity.
Qed.

Lemma Forall_tail {A} (P : A -> Prop) l : Forall P l -> Forall P (tail l).
Proof. intros H. destruct H; [constructor|assumption]. Qed.

(** Reading lines none of which opens a JSON block adds no step. *)
Lemma read_lines_no_block fuel lines st :
  Forall (fun l => JS.trim l <> "```json") lines ->
  p_steps (read_lines fuel lines st) = p_steps st.
Proof.
  revert lines st. induction fuel as [|fuel IH]; intros lines st H;
    [reflexivity|].
  destruct lines as [|raw rest]; [reflexivity|].
  inversion H as [|? ? Hraw Hrest]; subst.
  pose proof (Forall_tail _ _ Hrest) as Htail.
  cbn [read_lines]. cbv zeta.
  repeat case_match; rewrite ?IH by assumption;
    rewrite ?read_input_steps; try reflexivity.
  all: exfalso; apply Hraw; apply String.eqb_eq; assumption.
Qed.

(** X25.  Steps come from the fenced JSON blocks only: a document none of
    whose lines is the opening fence of a JSON block gives no step,
    whatever its step headings say, so a workflow parsed from it has no
    steps. *)
Theorem steps_come_from_blocks markdown :
  Forall (fun l => JS.trim l <> "```json")
         (JS.split (ascii_of_nat 10) markdown) ->
  p_steps (read_document markdown) = [] /\
  forall env wf, fromMarkdown env markdown = inr wf -> steps wf = [].
Proof.
  intros H.
  assert (E : p_steps (read_document markdown) = []).
  { unfold read_document. cbv zeta.
    rewrite read_lines_no_block; [reflexivity|apply Forall_tail, H]. }
  split; [exact E|]. intros env wf. unfold fromMarkdown.
  destruct (build_workflow env (read_document markdown)) as [e|w] eqn:B;
    [discriminate|].
  intros [= ->]. unfold build_workflow in B. cbv zeta in B. rewrite E in B.
  do 5 (apply ap_inr in B as (? & ? & B & ? & ->)).
  injection B as <-. cbn.
  match goal with H : Zod.array_from _ _ _ _ = inr ?ss |- _ =>
    cbn in H; injection H as <- end.
  reflexivity.
Qed.

(** X25, witness.  Headings without blocks. *)
Lemma steps_come_from_blocks_witness :
  exists wf,
    fromMarkdown lenient headings_only = inr wf /\ steps wf = [].
Proof.
  destruct (fromMarkdown lenient headings_only) as [e|wf] eqn:E;
    [vm_compute in E; discriminate|].
  exists wf. split; [reflexivity|].
  refine (proj2 (steps_come_from_blocks headings_only _) lenient wf E).
  vm_compute. repeat constructor; discriminate.
Defined.

End ParsedFacts.

(** ** The validators and [critiqueDerive] *)

Module ValidatorFacts.
Import ConfidenceCalculator CalculatorFacts ScoreFacts PageModel.
Local Open Scope Q_scope.

Lemma check_range_ok score rest :
  0 <= score <= 1 -> check_range (score :: rest) = check_range rest.
Proof.
  intros [L U]. cbn [check_range].
  apply Qltb_ge in L, U. rewrite L, U. reflexivity.
Qed.

Lemma check_range_bad score rest :
  score < 0 \/ 1 < score ->
  check_range (score :: rest) = Some (ScoreOutOfRange score).
Proof.
  intros H. cbn [check_range].
  destruct H as [H|H]; apply Qltb_lt in H; rewrite H, ?orb_true_r; reflexivity.
Qed.

Lemma calculate_returns dims why :
  0 <= completeness dims <= 1 -> 0 <= accuracy dims <= 1 ->
  0 <= feasibility dims <= 1 -> 0 <= coverage dims <= 1 ->
  exists s, calculate dims why None = inr s.
Proof.
  intros H1 H2 H3 H4. unfold calculate, values.
  rewrite !check_range_ok by assumption. eexists. reflexivity.
Qed.

Lemma missing_field_names l :
  length
    (flat_map
       (fun dep =>
          if String.eqb (fieldName dep) ""
          then [InterpretValidator.toIssue "数据依赖缺少字段名" (Some medium)]
          else [])
       l)
  = length (List.filter (fun dep => String.eqb (fieldName dep) "") l).
Proof.
  induction l as [|dep l IH]; [reflexivity|]. cbn [flat_map List.filter].
  destruct (String.eqb (fieldName dep) ""); cbn; rewrite IH; reflexivity.
Qed.

(** X28.  [InterpretValidator.validate] throws exactly when more than ten
    data dependencies lack a field name: the feasibility score it hands to
    [calculate], one minus a tenth per such dependency, is then negative,
    and the error quotes that score.  Otherwise it returns a critique of
    the interpret phase that lists the issues of the three checks. *)
Theorem interpret_validate_throws now metadata :
  let missing :=
    length (List.filter (fun dep => String.eqb (fieldName dep) "")
                        (dataDependencies metadata)) in
  ((exists e, InterpretValidator.validate now metadata = inl e)
   <-> (10 < missing)%nat) /\
  ((10 < missing)%nat ->
   InterpretValidator.validate now metadata
     = inl (ScoreOutOfRange (1 - inject_Z (Z.of_nat missing) * 0.1))) /\
  ((missing <= 10)%nat ->
   exists c,
     InterpretValidator.validate now metadata = inr c /\
     phaseId c = PhaseInterpret /\
     issues c = (InterpretValidator.validateCompleteness metadata
                 ++ InterpretValidator.validateAccuracy metadata
                 ++ InterpretValidator.validateFeasibility metadata)%list).
Proof.
  cbv zeta. rewrite <- missing_field_names.
  fold (InterpretValidator.validateFeasibility metadata).
  set (m := length (InterpretValidator.validateFeasibility metadata)).
  unfold InterpretValidator.validate. cbv zeta. fold m.
  set (why := if (length _ =? 0)%nat then _ else _).
  unfold calculate, values.
  cbn [completeness accuracy feasibility coverage].
  rewrite (check_range_ok (calculateCompletenessFromIssues _ _))
    by (apply completeness_in_range; lia).
  rewrite (check_range_ok (calculateAccuracyFromErrors _ _))
    by (apply accuracy_in_range; lia).
  assert (Q10 : inject_Z (Z.of_nat m) * 0.1 <= 1 <-> (m <= 10)%nat).
  { assert (E : 1 == inject_Z 10 * 0.1) by reflexivity.
    split; intros H.
    - assert (inject_Z (Z.of_nat m) <= inject_Z 10) as K by lra.
      rewrite <- Zle_Qle in K. lia.
    - assert (inject_Z (Z.of_nat m) <= inject_Z 10) as K
        by (rewrite <- Zle_Qle; lia).
      lra. }
  assert (Q0 : 0 <= inject_Z (Z.of_nat m)) by (apply inject_Z_nonneg; lia).
  assert (Cov : 0 <= (if (0 <? length (businessFlows metadata))%nat
                      then 1 else 0.5) <= 1).
  { destruct (0 <? _)%nat; split; lra. }
  destruct (Nat.leb_spec m 10) as [L|L].
  - assert (F : 0 <= (if (m =? 0)%nat then 1
                      else 1 - inject_Z (Z.of_nat m) * 0.1) <= 1).
    { destruct (m =? 0)%nat; [split; lra|]. apply Q10 in L. split; lra. }
    rewrite (check_range_ok _ _ F), (check_range_ok _ _ Cov). cbn [check_range].
    split; [|split].
    + split; [intros [e [=]]|lia].
    + lia.
    + intros _. eexists. split; [reflexivity|]. split; reflexivity.
  - assert ((m =? 0)%nat = false) as -> by (apply Nat.eqb_neq; lia).
    assert (B : 1 - inject_Z (Z.of_nat m) * 0.1 < 0).
    { apply Qnot_le_lt. intros G.
      assert (inject_Z (Z.of_nat m) * 0.1 <= 1) as K by lra.
      apply Q10 in K. lia. }
    rewrite (check_range_bad _ _ (or_introl B)).
    split; [|split].
    + split; [intros _; exact L|intros _; eexists; reflexivity].
    + intros _. reflexivity.
    + lia.
Qed.

Lemma element_issues_not_critical i l :
  existsb (fun x => match severity x with critical => true | _ => false end)
    (ScanValidator.element_issues i l) = false.
Proof.
  revert i. induction l as [|el l IH]; intros i; [reflexivity|].
  cbn [ScanValidator.element_issues]. rewrite !existsb_app, IH.
  destruct (String.eqb (e_selector el) ""), (String.eqb (tagName el) "");
    reflexivity.
Qed.

(** X29.  [ScanValidator.validate] never throws, whatever the scan result
    holds: every score it hands to [calculate] is a valid score.  The
    critique it returns is of the scan phase, lists the issues of the three
    checks, and has a critical issue exactly when the URL is empty or is
    not a valid URL. *)
Theorem scan_validate_returns valid_url now scanResult :
  exists c,
    ScanValidator.validate valid_url now scanResult = inr c /\
    phaseId c = PhaseScan /\
    issues c = (ScanValidator.validateCompleteness scanResult
                ++ ScanValidator.validateAccuracy valid_url scanResult
                ++ ScanValidator.validateCoverage scanResult)%list /\
    (existsb (fun x => match severity x with critical => true | _ => false end)
       (issues c) = true
     <-> sr_url scanResult = "" \/ valid_url (sr_url scanResult) = false).
Proof.
  unfold ScanValidator.validate. cbv zeta.
  match goal with |- context [calculate ?d ?w None] =>
    destruct (calculate_returns d w) as [s ->] end.
  - apply completeness_in_range; lia.
  - apply accuracy_in_range; lia.
  - cbn. destruct (_ =? 0)%nat; split; lra.
  - cbn. destruct (_ =? 0)%nat; split; lra.
  - eexists. split; [reflexivity|]. split; [reflexivity|].
    split; [reflexivity|]. cbn [issues].
    unfold ScanValidator.validateCompleteness, ScanValidator.validateAccuracy,
      ScanValidator.validateCoverage. cbv zeta.
    rewrite !existsb_app, element_issues_not_critical.
    destruct (String.eqb_spec (sr_url scanResult) "") as [E|E];
      destruct (valid_url (sr_url scanResult));
      destruct (String.eqb (sr_screenshot_path scanResult) "");
      destruct (String.eqb (htmlSnapshot scanResult) "");
      destruct (length (elements scanResult) =? 0)%nat;
      destruct (JS.startsWith "data:image" (sr_screenshot_path scanResult));
      destruct (negb _ && negb _ && negb _);
      cbn; split; intros; try tauto; try discriminate;
      try (destruct H; congruence).
Qed.

(** Up to three issues out of eight expected: no review is asked for and
    the overall confidence is at least 0.691. *)
Lemma quickScore_of_eight l :
  (length l <= 3)%nat ->
  exists s,
    quickScore l (Some 8%Z) = inr s /\
    humanReviewRequired s = false /\ 0.691 <= overall s.
Proof.
  intros H. destruct l as [|a [|b [|c [|d l]]]]; [| | | |cbn in H; lia];
    (eexists; split; [reflexivity|]; split;
     [vm_compute; reflexivity|vm_compute; discriminate]).
Qed.

Lemma derive_issues_cases tc :
  (length (CritiqueEngine.derive_issues tc) <= 3)%nat /\
  existsb (fun i => match severity i with critical => true | _ => false end)
    (CritiqueEngine.derive_issues tc) = false.
Proof.
  unfold CritiqueEngine.derive_issues.
  destruct (String.eqb _ ""), (String.eqb _ ""), (_ =? 0)%nat; cbn;
    split; try reflexivity; lia.
Qed.

(** X30.  [critiqueDerive] never throws and raises at most three issues,
    none of them critical; for an engine whose threshold is at most 0.691
    (the default is 0.6) [requiresHumanReview] never holds of its
    critique: a derived test case is not sent to review even when it has
    no name, no source workflow and no mutation. *)
Theorem critiqueDerive_never_reviewed engine now tc :
  CritiqueEngine.humanReviewThreshold engine <= 0.691 ->
  exists c,
    CritiqueEngine.critiqueDerive now tc = inr c /\
    phaseId c = PhaseDerive /\
    (length (issues c) <= 3)%nat /\
    CritiqueEngine.requiresHumanReview engine c = false.
Proof.
  intros Hth. unfold CritiqueEngine.critiqueDerive. cbv zeta.
  destruct (derive_issues_cases tc) as [L C].
  destruct (quickScore_of_eight
              (map i_description (CritiqueEngine.derive_issues tc)))
    as (s & -> & F & O); [rewrite length_map; exact L|].
  eexists. split; [reflexivity|]. split; [reflexivity|].
  split; [exact L|].
  unfold CritiqueEngine.requiresHumanReview. cbn [confidence issues].
  rewrite F, C.
  assert (Qltb (overall s) (CritiqueEngine.humanReviewThreshold engine) = false)
    as ->.
  { apply Qltb_ge. lra. }
  reflexivity.
Qed.

(** X30, witness.  The default engine on a test case that lacks
    everything. *)
Lemma critiqueDerive_never_reviewed_witness :
  let engine := CritiqueEngine.constructor None in
  CritiqueEngine.humanReviewThreshold engine <= 0.691 /\
  exists c,
    CritiqueEngine.critiqueDerive "2024-01-01T00:00:00.000Z"
      Script.bare_test_case = inr c /\
    length (issues c) = 3%nat /\
    CritiqueEngine.requiresHumanReview engine c = false.
Proof.
  cbv zeta. split; [vm_compute; discriminate|].
  destruct (critiqueDerive_never_reviewed (CritiqueEngine.constructor None)
              "2024-01-01T00:00:00.000Z" Script.bare_test_case)
    as (c & E & _ & _ & R); [vm_compute; discriminate|].
  exists c. split; [exact E|]. split; [|exact R].
  vm_compute in E. injection E as <-. reflexivity.
Defined.

End ValidatorFacts.
